(** * Patient identifier linking and page assignment

    A shallow embedding of the similarity scorer ([fuzzy_matcher.py]), the
    entity extractor ([entity_extractor.py]), the entity linker
    ([entity_linker.py]), the page assigner ([page_assigner.py]), the word
    loop and the average confidence of the OCR stage ([ocr_processor.py])
    and the grouping of the document splitter ([document_splitter.py]).

    Modelling conventions.
    - A Python [str] is a [string]: a sequence of code points below 256.
      Character classes ([str.isspace], [\s], [\d], [str.lower]) are the
      Python ones restricted to that range.
    - A Python [float] is written as a rational [Q]: a decimal such as
      0.05 stands for the binary64 number nearest to it, and the result of
      an operation is written as its exact value.  Comparisons, [max] and
      [min] are exact on floats.  The sums, products, quotients and the
      difference of the page assigner, where a rounding error can change
      what the code returns, are the operations of [Binary64], taken as
      given like the string metrics; [binary64] computes them.  The
      extractor's confidence, the scorer's [raw / 100] and the averages are
      the exact ones.
    - A raised exception is the [Raise] constructor of [result].
    - Mutable cluster objects live in one list (the [clusters] list of
      [link]); a reference to a cluster is its position in that list. *)

From Stdlib Require Import ZArith QArith Ascii String List Bool Lia.
From Stdlib Require Import DecimalString DecimalNat Sorted.
From Stdlib Require Import Lqa.
From Stdlib Require Floats.
From stdpp Require Import base option list gmap strings.
Import ListNotations.

Local Open Scope string_scope.
Local Open Scope bool_scope.
Local Open Scope list_scope.

(** ** Exceptions *)

Inductive exn := ValueError.

Inductive result (A : Type) : Type :=
| Ok (a : A)
| Raise (e : exn).
Arguments Ok {A} a.
Arguments Raise {A} e.

Definition rbind {A B} (r : result A) (k : A -> result B) : result B :=
  match r with
  | Ok a => k a
  | Raise e => Raise e
  end.

#[global] Instance result_ret : MRet result := fun _ a => Ok a.
#[global] Instance result_bind : MBind result := fun _ _ k r => rbind r k.

(** [[f(x) for x in l]] with a body that may raise. *)
Fixpoint rmap {A B} (f : A -> result B) (l : list A) : result (list B) :=
  match l with
  | [] => Ok []
  | x :: l' => y ← f x; ys ← rmap f l'; Ok (y :: ys)
  end.

(** ** Floats *)

Definition Qltb (a b : Q) : bool := negb (Qle_bool b a).
Definition Qgtb (a b : Q) : bool := Qltb b a.
Definition Qgeb (a b : Q) : bool := Qle_bool b a.
Definition Qmax (a b : Q) : Q := if Qltb a b then b else a.
Definition Qmin (a b : Q) : Q := if Qltb b a then b else a.

(** [round(x, 3)]: nearest multiple of 1/1000, halves to the even one. *)
Definition round3 (x : Q) : Q :=
  let n := (Qnum x * 1000)%Z in
  let d := Z.pos (Qden x) in
  let q := (n / d)%Z in
  let r := (2 * (n mod d))%Z in
  let up := if (d <? r)%Z then true
            else if (r =? d)%Z then Z.odd q else false in
  Qmake (if up then q + 1 else q) 1000.

(** ** Binary64 arithmetic

    The operations of Python floats that round: [fadd a b], [fmul a b]
    and [fdiv a b] are [a + b], [a * b] and [a / b], and [sub_le a b c] is
    the test [a - b <= c] made on the rounded difference. *)
Record Binary64 := {
  fadd : Q -> Q -> Q;
  fmul : Q -> Q -> Q;
  fdiv : Q -> Q -> Q;
  sub_le : Q -> Q -> Q -> bool
}.

Definition spec_of_Z (z : Z) : SpecFloat.spec_float :=
  match z with
  | Z0 => SpecFloat.S754_zero false
  | Zpos p => SpecFloat.S754_finite false p 0
  | Zneg p => SpecFloat.S754_finite true p 0
  end.

(** The float a rational is written for: the binary64 number nearest to
    it, halves to the even one, as Python reads a literal and as
    [round(x, 3)] returns its result. *)
Definition float_of_Q (q : Q) : PrimFloat.float :=
  FloatOps.SF2Prim
    (SpecFloat.SFdiv FloatOps.prec FloatOps.emax
       (spec_of_Z (Qnum q)) (spec_of_Z (Z.pos (Qden q)))).

(** The exact value of a finite float.  (Infinities and NaN have none;
    they do not arise from weights and scores between 0 and 1.) *)
Definition Q_of_float (x : PrimFloat.float) : Q :=
  match FloatOps.Prim2SF x with
  | SpecFloat.S754_finite s m e =>
      let v := if s then Zneg m else Zpos m in
      match e with
      | Zneg k => Qmake v (2 ^ k)%positive
      | _ => Qmake (v * 2 ^ e) 1
      end
  | _ => 0%Q
  end.

(** The operations as the processor computes them. *)
Definition binary64 : Binary64 := {|
  fadd := fun a b =>
    Q_of_float (PrimFloat.add (float_of_Q a) (float_of_Q b));
  fmul := fun a b =>
    Q_of_float (PrimFloat.mul (float_of_Q a) (float_of_Q b));
  fdiv := fun a b =>
    Q_of_float (PrimFloat.div (float_of_Q a) (float_of_Q b));
  sub_le := fun a b c =>
    PrimFloat.leb (PrimFloat.sub (float_of_Q a) (float_of_Q b)) (float_of_Q c)
|}.

(** ** Python string primitives *)

Module Py.

Definition ord (c : ascii) : N := N_of_ascii c.

(** [str.isspace] on one character; also the class [\s]. *)
Definition isspace (c : ascii) : bool :=
  let n := ord c in
  ((9 <=? n) && (n <=? 13) || (28 <=? n) && (n <=? 32)
   || (n =? 133) || (n =? 160))%N.

(** Decimal digits; also the class [\d]. *)
Definition isdigit (c : ascii) : bool :=
  let n := ord c in ((48 <=? n) && (n <=? 57))%N.

Definition is_az (c : ascii) : bool :=
  let n := ord c in ((97 <=? n) && (n <=? 122))%N.

Definition is_AZ (c : ascii) : bool :=
  let n := ord c in ((65 <=? n) && (n <=? 90))%N.

(** Membership in the class [[A-Za-z0-9]]. *)
Definition is_alnum (c : ascii) : bool := is_AZ c || is_az c || isdigit c.

Definition lower_char (c : ascii) : ascii :=
  let n := ord c in
  if (is_AZ c || (192 <=? n) && (n <=? 222) && negb (n =? 215))%N
  then ascii_of_N (n + 32) else c.

(** Upper case of one character.  The three code points whose upper case
    is not a single code point below 256 (181, 223, 255) are left as they
    are; they can only reach [upper_char] through the name branch of the
    extractor's normalisation, which no property below is about. *)
Definition upper_char (c : ascii) : ascii :=
  let n := ord c in
  if (is_az c || (224 <=? n) && (n <=? 254) && negb (n =? 247))%N
  then ascii_of_N (n - 32) else c.

Fixpoint smap (f : ascii -> ascii) (s : string) : string :=
  match s with
  | EmptyString => EmptyString
  | String c s' => String (f c) (smap f s')
  end.

Fixpoint sfilter (f : ascii -> bool) (s : string) : string :=
  match s with
  | EmptyString => EmptyString
  | String c s' => if f c then String c (sfilter f s') else sfilter f s'
  end.

Fixpoint sexists (f : ascii -> bool) (s : string) : bool :=
  match s with
  | EmptyString => false
  | String c s' => f c || sexists f s'
  end.

Definition lower (s : string) : string := smap lower_char s.
Definition upper (s : string) : string := smap upper_char s.

(** [s.replace(old, new)] for one-character [old] and [new]. *)
Definition replace (old new : ascii) (s : string) : string :=
  smap (fun c => if Ascii.eqb c old then new else c) s.

(** [s.lstrip(chars)], [s.rstrip(chars)] and [s.strip(chars)], with the
    set of characters given as a predicate. *)
Fixpoint lstrip_by (f : ascii -> bool) (s : string) : string :=
  match s with
  | EmptyString => EmptyString
  | String c s' => if f c then lstrip_by f s' else s
  end.

Fixpoint rstrip_by (f : ascii -> bool) (s : string) : string :=
  match s with
  | EmptyString => EmptyString
  | String c s' =>
      match rstrip_by f s' with
      | EmptyString => if f c then EmptyString else String c EmptyString
      | t => String c t
      end
  end.

Definition strip_by (f : ascii -> bool) (s : string) : string :=
  rstrip_by f (lstrip_by f s).

(** [s.strip()]. *)
Definition strip (s : string) : string := strip_by isspace s.

(** [s.split(sep)] for a one-character separator: every separator ends a
    field, empty fields are kept, the result is never empty. *)
Fixpoint split (sep : ascii) (s : string) : list string :=
  match s with
  | EmptyString => [EmptyString]
  | String c s' =>
      if Ascii.eqb c sep then EmptyString :: split sep s'
      else match split sep s' with
           | [] => [String c EmptyString]
           | w :: ws => String c w :: ws
           end
  end.

(** [s.split()]: fields separated by runs of white space, none empty. *)
Fixpoint split_ws_aux (cur : option string) (s : string) : list string :=
  match s with
  | EmptyString => match cur with Some w => [w] | None => [] end
  | String c s' =>
      if isspace c
      then match cur with
           | Some w => w :: split_ws_aux None s'
           | None => split_ws_aux None s'
           end
      else match cur with
           | Some w => split_ws_aux (Some (w +:+ String c EmptyString)) s'
           | None => split_ws_aux (Some (String c EmptyString)) s'
           end
  end.

Definition split_ws (s : string) : list string := split_ws_aux None s.

(** [sep.join(parts)]. *)
Definition join (sep : string) (parts : list string) : string :=
  String.concat sep parts.

Fixpoint zeros (n : nat) : string :=
  match n with
  | O => EmptyString
  | S n' => String "0" (zeros n')
  end.

(** [s.zfill(width)]: zeros are inserted after a leading sign. *)
Definition zfill (width : nat) (s : string) : string :=
  let n := String.length s in
  if (width <=? n)%nat then s
  else match s with
       | String c s' =>
           if Ascii.eqb c "+" || Ascii.eqb c "-"
           then String c (zeros (width - n) +:+ s')
           else zeros (width - n) +:+ s
       | EmptyString => zeros (width - n)
       end.

(** [s.capitalize()]: first character upper case, the rest lower case. *)
Definition capitalize (s : string) : string :=
  match s with
  | EmptyString => EmptyString
  | String c s' => String (upper_char c) (lower s')
  end.

(** The digits of an integer literal: decimal digits, single underscores
    allowed between two digits.  [acc] is the value read so far,
    [prev_digit] tells whether the previous character was a digit. *)
Fixpoint int_digits (acc : Z) (prev_digit : bool) (s : string) : option Z :=
  match s with
  | EmptyString => if prev_digit then Some acc else None
  | String c s' =>
      if isdigit c
      then int_digits (10 * acc + Z.of_N (ord c - 48)) true s'
      else if Ascii.eqb c "_" && prev_digit
           then match s' with
                | String d _ => if isdigit d then int_digits acc false s' else None
                | EmptyString => None
                end
           else None
  end.

(** The white space [int] strips.  CPython parses the literal as ASCII
    text and skips [\t\n\v\f\r] and the blank at both ends; the
    separators [chr(28)] to [chr(31)], white space for [str.strip], are
    not skipped.  A string holding a character above [chr(126)] is first
    rewritten with a blank for each white space character above it:
    [chr(133)] and [chr(160)] in this range. *)
Definition int_space (c : ascii) : bool :=
  let n := ord c in
  ((9 <=? n) && (n <=? 13) || (n =? 32) || (n =? 133) || (n =? 160))%N.

(** [int(s)] in base 10: white space stripped at both ends, an optional
    sign, then the digits; anything else raises [ValueError].  (CPython
    also refuses literals of more than 4300 digits; [int] is only applied
    to two-character strings here.) *)
Definition int (s : string) : result Z :=
  let body := strip_by int_space s in
  let '(neg, ds) :=
    match body with
    | String c s' =>
        if Ascii.eqb c "-" then (true, s')
        else if Ascii.eqb c "+" then (false, s')
        else (false, body)
    | EmptyString => (false, body)
    end in
  match int_digits 0 false ds with
  | Some v => Ok (if neg then (- v)%Z else v)
  | None => Raise ValueError
  end.

End Py.

(** ** Configuration ([config.py], the fields the core reads) *)

Record Settings := {
  name_match_threshold : Q;
  mrn_match_threshold : Q;
  dob_match_threshold : Q;
  phone_match_threshold : Q;
  linker_strict_mode : bool;
  assign_min_confidence : Q;
  assign_name_weight : Q;
  assign_mrn_weight : Q;
  assign_dob_weight : Q;
  assign_phone_weight : Q;
  assign_ambiguity_margin : Q;
  assign_allow_unassigned : bool
}.

(** The defaults of [class Settings]. *)
Definition default_settings : Settings := {|
  name_match_threshold := 85 # 100;
  mrn_match_threshold := 99 # 100;
  dob_match_threshold := 99 # 100;
  phone_match_threshold := 95 # 100;
  linker_strict_mode := false;
  assign_min_confidence := 6 # 10;
  assign_name_weight := 3 # 10;
  assign_mrn_weight := 4 # 10;
  assign_dob_weight := 2 # 10;
  assign_phone_weight := 1 # 10;
  assign_ambiguity_margin := 5 # 100;
  assign_allow_unassigned := true
|}.

(** ** Similarity scorer ([fuzzy_matcher.py]) *)

(** The string metrics of the [fuzz] object ([rapidfuzz.fuzz], or its
    [difflib] stand-in): an external library, taken as given.  They return
    without raising on every pair of strings. *)
Record Fuzz := {
  ratio : string -> string -> Q;
  token_sort_ratio : string -> string -> Q;
  partial_ratio : string -> string -> Q
}.

Module FuzzyMatcher.

(** [max(0.0, min(raw / 100.0, 1.0))] *)
Definition _scale_score (raw : Q) : Q := Qmax 0 (Qmin (raw / 100) 1).

(** [re.sub(r"\s+", " ", value)]: [in_run] holds inside a run of white
    space that has already produced its blank. *)
Fixpoint collapse_ws (in_run : bool) (s : string) : string :=
  match s with
  | EmptyString => EmptyString
  | String c s' =>
      if Py.isspace c
      then if in_run then collapse_ws true s' else String " " (collapse_ws true s')
      else String c (collapse_ws false s')
  end.

Definition _normalize_name (value : string) : string :=
  let value := Py.lower (Py.strip value) in
  let value :=
    Py.sfilter (fun c => Py.is_az c || Py.isdigit c || Py.isspace c) value in
  collapse_ws false value.

Definition _normalize_mrn (value : string) : string :=
  Py.sfilter (fun c => Py.is_az c || Py.isdigit c) (Py.lower value).

Definition _normalize_dob (value : string) : result string :=
  let value := Py.replace "." "/" (Py.replace "-" "/" value) in
  match Py.split "/" value with
  | [month; day; year] =>
      year ← (if (String.length year =? 2)%nat
              then n ← Py.int year;
                   Ok (if (n <? 50)%Z then "20" +:+ year else "19" +:+ year)
              else Ok year);
      Ok (Py.zfill 2 month +:+ "/" +:+ Py.zfill 2 day +:+ "/" +:+ Py.zfill 4 year)
  | _ => Ok value
  end.

(** [digits[-10:]] *)
Definition last10 (digits : string) : string :=
  let n := String.length digits in
  String.substring (n - 10) 10 digits.

Definition _normalize_phone (value : string) : string :=
  let digits := Py.sfilter Py.isdigit value in
  if (10 <=? String.length digits)%nat then last10 digits else digits.

Definition is_empty (s : string) : bool :=
  match s with EmptyString => true | _ => false end.

Section Scores.
Context (fuzz : Fuzz).

Definition score_name (a b : string) : Q :=
    let a_clean := _normalize_name a in
    let b_clean := _normalize_name b in
    _scale_score (token_sort_ratio fuzz a_clean b_clean).

Definition score_mrn (a b : string) : Q :=
    let a_norm := _normalize_mrn a in
    let b_norm := _normalize_mrn b in
    if is_empty a_norm || is_empty b_norm then 0%Q
    else if String.eqb a_norm b_norm then 1%Q
         else _scale_score (ratio fuzz a_norm b_norm).

Definition score_dob (a b : string) : result Q :=
    na ← _normalize_dob a;
    nb ← _normalize_dob b;
    Ok (if String.eqb na nb then 1%Q else 0%Q).

Definition score_phone (a b : string) : Q :=
    let a_norm := _normalize_phone a in
    let b_norm := _normalize_phone b in
    if is_empty a_norm || is_empty b_norm then 0%Q
    else if String.eqb a_norm b_norm then 1%Q
         else _scale_score (partial_ratio fuzz a_norm b_norm).
End Scores.

End FuzzyMatcher.

(** ** Value normalisation of the extractor ([entity_extractor.py]) *)

Module EntityExtractor.

Definition is_comma_colon (c : ascii) : bool :=
  Ascii.eqb c "," || Ascii.eqb c ":".

(** [_truncate_value]: cut at the first line feed if there is one, else at
    the first carriage return. *)
Definition _truncate_value (value : string) : string :=
  if Py.sexists (Ascii.eqb "010") value
  then hd EmptyString (Py.split "010" value)
  else if Py.sexists (Ascii.eqb "013") value
       then hd EmptyString (Py.split "013" value)
       else value.

Definition _normalize_value (kind value : string) : string :=
  let value := Py.strip value in
  if String.eqb kind "mrn"
  then Py.upper (Py.sfilter Py.is_alnum value)
  else if String.eqb kind "dob"
  then Py.replace "." "/" value
  else if String.eqb kind "name"
  then
    let tokens :=
      List.filter (fun t => negb (FuzzyMatcher.is_empty t))
        (List.map (Py.strip_by is_comma_colon) (Py.split_ws value)) in
    Py.join " " (List.map Py.capitalize tokens)
  else value.

End EntityExtractor.

(** ** Data model ([pipeline.py]) *)

Module IdentifierMatch.
Record t := {
    kind : string;
    value : string;
    confidence : Q;
    bbox : Z * Z * Z * Z;
    word_indices : list Z
  }.
End IdentifierMatch.

Module PageEntities.
Record t := {
    page_index : Z;
    identifiers : list IdentifierMatch.t
  }.
End PageEntities.

Module LinkedIdentifier.
Record t := {
    kind : string;
    value : string;
    confidence : Q;
    sources : list (Z * list Z)
  }.
End LinkedIdentifier.

Module LinkedPatient.
Record t := {
    patient_id : string;
    identifiers : list LinkedIdentifier.t;
    pages : list Z;
    score : Q
  }.
End LinkedPatient.

Module AssignmentReason.
Record t := {
    kind : string;
    value : string;
    score : Q
  }.
End AssignmentReason.

Module PageAssignment.
Record t := {
    page_index : Z;
    patient_id : option string;
    confidence : Q;
    reasons : list AssignmentReason.t;
    manual_review : bool
  }.
End PageAssignment.

Module DocumentAssignmentSummary.
Record t := {
    assignments : list PageAssignment.t;
    unassigned_pages : list Z;
    ambiguous_pages : list Z
  }.
End DocumentAssignmentSummary.

(** The linker's working cluster ([entity_linker.py]); [identifiers] is the
    dictionary from kind to the one stored identifier of that kind. *)
Module ClusterCandidate.
Record t := {
    patient_id : string;
    identifiers : gmap string LinkedIdentifier.t;
    pages : list Z;
    score : Q
  }.
End ClusterCandidate.

(** ** Loops and sorting *)

(** A [for] loop over [l] whose body may raise, threading the loop state. *)
Fixpoint rfold {A S} (body : S -> A -> result S) (l : list A) (s : S) : result S :=
  match l with
  | [] => Ok s
  | x :: l' => s' ← body s x; rfold body l' s'
  end.

(** [list(enumerate(l))] *)
Definition enumerate {A} (l : list A) : list (nat * A) :=
  combine (seq 0 (length l)) l.

(** Stable sorting by a key: [insert_by before x l] puts [x] in front of
    the first [y] with [before x y]. *)
Fixpoint insert_by {A} (before : A -> A -> bool) (x : A) (l : list A) : list A :=
  match l with
  | [] => [x]
  | y :: l' => if before x y then x :: l else y :: insert_by before x l'
  end.

Definition sort_by {A} (before : A -> A -> bool) (l : list A) : list A :=
  foldr (insert_by before) [] l.

(** [sorted(l)] on integers. *)
Definition sorted_Z (l : list Z) : list Z := sort_by Z.leb l.

(** ** Entity linker ([entity_linker.py]) *)

Module PatientEntityLinker.

(** [f"{n:03d}"] *)
Definition format_03d (n : nat) : string :=
  let s := NilEmpty.string_of_uint (Nat.to_uint n) in
  Py.zeros (3 - String.length s) +:+ s.

(** The linker object's mutable state: the [clusters] list being built by
    [link] and the next value of the [_next_patient] counter. *)
Record state := {
  clusters : list ClusterCandidate.t;
  next_patient : nat
}.

(** A linker as [__init__] leaves it, entering [link]. *)
Definition fresh : state := {| clusters := []; next_patient := 1 |}.

(** The [return] statement by which [_assign_identifier] is left. *)
Inductive return_site :=
| At_merge        (* line 95 *)
| At_attach       (* line 105 *)
| At_strict       (* line 119 *)
| At_late_merge   (* line 123 *)
| At_create.      (* line 125 *)

Definition anchor_kinds (kind : string) : bool := String.eqb kind "mrn".

Definition supportive_kinds (kind : string) : bool :=
  String.eqb kind "name" || String.eqb kind "dob" || String.eqb kind "phone".

(** [==] of the dataclasses [LinkedIdentifier] and [ClusterCandidate]:
    field by field, dictionaries by content. *)
Definition sources_eqb (a b : list (Z * list Z)) : bool :=
  bool_decide (a = b).

Definition linked_eqb (a b : LinkedIdentifier.t) : bool :=
  String.eqb (LinkedIdentifier.kind a) (LinkedIdentifier.kind b)
  && String.eqb (LinkedIdentifier.value a) (LinkedIdentifier.value b)
  && Qeq_bool (LinkedIdentifier.confidence a) (LinkedIdentifier.confidence b)
  && sources_eqb (LinkedIdentifier.sources a) (LinkedIdentifier.sources b).

Definition identifiers_eqb (a b : gmap string LinkedIdentifier.t) : bool :=
  bool_decide (dom a = dom b)
  && forallb (fun kv => match b !! kv.1 with
                        | Some v => linked_eqb kv.2 v
                        | None => false
                        end) (map_to_list a).

Definition cluster_eqb (a b : ClusterCandidate.t) : bool :=
  String.eqb (ClusterCandidate.patient_id a) (ClusterCandidate.patient_id b)
  && identifiers_eqb (ClusterCandidate.identifiers a) (ClusterCandidate.identifiers b)
  && bool_decide (ClusterCandidate.pages a = ClusterCandidate.pages b)
  && Qeq_bool (ClusterCandidate.score a) (ClusterCandidate.score b).

(** [max(items, key=lambda item: item[0])] and the same with [min]: the
    first extremal element of a non-empty list. *)
Definition max_by_pos (first : nat * nat) (rest : list (nat * nat)) : nat * nat :=
  foldl (fun cur item => if (cur.1 <? item.1)%nat then item else cur) first rest.

Definition min_by_pos (first : nat * nat) (rest : list (nat * nat)) : nat * nat :=
  foldl (fun cur item => if (item.1 <? cur.1)%nat then item else cur) first rest.

(** [anchor_positions] holds pairs (position on the page, cluster). *)
Definition _nearest_anchor (identifier_index : nat)
    (anchor_positions : list (nat * nat)) : result nat :=
  let preceding :=
    List.filter (fun item => (item.1 <=? identifier_index)%nat) anchor_positions in
  match preceding with
  | p :: ps => Ok (max_by_pos p ps).2
  | [] =>
      match anchor_positions with
      | a :: rest => Ok (min_by_pos a rest).2
      | [] => Raise ValueError
      end
  end.

Section Linker.
Context (fuzz : Fuzz) (settings : Settings).

Definition _match_identifier (cluster : ClusterCandidate.t)
      (identifier : IdentifierMatch.t) : result Q :=
    let kind := IdentifierMatch.kind identifier in
    match ClusterCandidate.identifiers cluster !! kind with
    | None => Ok 0%Q
    | Some linked =>
        let a := LinkedIdentifier.value linked in
        let b := IdentifierMatch.value identifier in
        if String.eqb kind "name" then Ok (FuzzyMatcher.score_name fuzz a b)
        else if String.eqb kind "mrn" then Ok (FuzzyMatcher.score_mrn fuzz a b)
        else if String.eqb kind "dob" then FuzzyMatcher.score_dob a b
        else if String.eqb kind "phone" then Ok (FuzzyMatcher.score_phone fuzz a b)
        else Ok 0%Q
    end.

Definition _threshold_for (kind : string) : Q :=
    if String.eqb kind "name" then name_match_threshold settings
    else if String.eqb kind "mrn" then mrn_match_threshold settings
    else if String.eqb kind "dob" then dob_match_threshold settings
    else if String.eqb kind "phone" then phone_match_threshold settings
    else (8 # 10)%Q.

Definition new_linked (identifier : IdentifierMatch.t) (page_index : Z)
      : LinkedIdentifier.t :=
    {| LinkedIdentifier.kind := IdentifierMatch.kind identifier;
       LinkedIdentifier.value := IdentifierMatch.value identifier;
       LinkedIdentifier.confidence := IdentifierMatch.confidence identifier;
       LinkedIdentifier.sources :=
         [(page_index, IdentifierMatch.word_indices identifier)] |}.

(** The cluster after [_merge_identifier(cluster, identifier, page_index,
    score)] has mutated it. *)
Definition _merge_identifier (cluster : ClusterCandidate.t)
      (identifier : IdentifierMatch.t) (page_index : Z) (score : Q)
      : ClusterCandidate.t :=
    let kind := IdentifierMatch.kind identifier in
    let identifiers :=
      match ClusterCandidate.identifiers cluster !! kind with
      | None =>
          <[kind := new_linked identifier page_index]>
            (ClusterCandidate.identifiers cluster)
      | Some existing =>
          let value :=
            if Qgtb score (LinkedIdentifier.confidence existing)
            then IdentifierMatch.value identifier
            else LinkedIdentifier.value existing in
          <[kind := {|
              LinkedIdentifier.kind := LinkedIdentifier.kind existing;
              LinkedIdentifier.value := value;
              LinkedIdentifier.confidence :=
                Qmax (LinkedIdentifier.confidence existing)
                     (IdentifierMatch.confidence identifier);
              LinkedIdentifier.sources :=
                LinkedIdentifier.sources existing
                ++ [(page_index, IdentifierMatch.word_indices identifier)] |}]>
            (ClusterCandidate.identifiers cluster)
      end in
    let pages :=
      if bool_decide (page_index ∈ ClusterCandidate.pages cluster)
      then ClusterCandidate.pages cluster
      else ClusterCandidate.pages cluster ++ [page_index] in
    {| ClusterCandidate.patient_id := ClusterCandidate.patient_id cluster;
       ClusterCandidate.identifiers := identifiers;
       ClusterCandidate.pages := pages;
       ClusterCandidate.score :=
         Qmax (ClusterCandidate.score cluster)
              (IdentifierMatch.confidence identifier) |}.

(** [_merge_identifier] applied to the cluster at position [h]. *)
Definition merge_at (st : state) (h : nat) (identifier : IdentifierMatch.t)
      (page_index : Z) (score : Q) : state :=
    {| clusters :=
         alter (fun c => _merge_identifier c identifier page_index score) h
               (clusters st);
       next_patient := next_patient st |}.

(** The [ClusterCandidate(...)] of lines 140-152: a cluster holding one
  identifier. *)
Definition new_cluster (patient_id : string) (identifier : IdentifierMatch.t)
    (page_index : Z) : ClusterCandidate.t :=
    {| ClusterCandidate.patient_id := patient_id;
       ClusterCandidate.identifiers :=
         {[ IdentifierMatch.kind identifier := new_linked identifier page_index ]};
       ClusterCandidate.pages := [page_index];
       ClusterCandidate.score := IdentifierMatch.confidence identifier |}.

(** Returns the position of the new cluster and the new state. *)
Definition _create_cluster (st : state) (identifier : IdentifierMatch.t)
    (page_index : Z) : nat * state :=
    let patient_id := "patient_" +:+ format_03d (next_patient st) in
    let cluster := new_cluster patient_id identifier page_index in
    (length (clusters st),
     {| clusters := clusters st ++ [cluster];
        next_patient := S (next_patient st) |}).

(** The scan of lines 77-83: [h] is the position of the head of [cs]. *)
Fixpoint best_match (identifier : IdentifierMatch.t)
      (cs : list ClusterCandidate.t) (h : nat)
      (best_cluster : option nat) (best_score : Q) : result (option nat * Q) :=
    match cs with
    | [] => Ok (best_cluster, best_score)
    | cluster :: cs' =>
        score ← _match_identifier cluster identifier;
        if Qgtb score best_score
        then best_match identifier cs' (S h) (Some h) score
        else best_match identifier cs' (S h) best_cluster best_score
    end.

Definition _assign_identifier (st : state) (identifier : IdentifierMatch.t)
      (page_index : Z) (preferred : option nat) (force_attach : bool)
      : result (return_site * nat * state) :=
    best ← best_match identifier (clusters st) 0 None 0%Q;
    let best_cluster := best.1 in
    let best_score := best.2 in
    let kind := IdentifierMatch.kind identifier in
    let threshold := _threshold_for kind in
    match best_cluster, Qgeb best_score threshold with
    | Some b, true =>
        Ok (At_merge, b, merge_at st b identifier page_index best_score)
    | _, _ =>
    match preferred, force_attach with
    | Some p, true =>
        Ok (At_attach, p, merge_at st p identifier page_index best_score)
    | _, _ =>
    if String.eqb kind "name" && bool_decide (is_Some best_cluster)
       && Qgeb best_score (name_match_threshold settings)
       && linker_strict_mode settings
    then
      match best_cluster with
      | Some b => Ok (At_strict, b, st)
      | None =>
          match preferred with
          | Some p => Ok (At_strict, p, st)
          | None =>
              let '(h, st') := _create_cluster st identifier page_index in
              Ok (At_strict, h, st')
          end
      end
    else
    match best_cluster, Qgeb best_score threshold with
    | Some b, true =>
        Ok (At_late_merge, b, merge_at st b identifier page_index best_score)
    | _, _ =>
        let '(h, st') := _create_cluster st identifier page_index in
        Ok (At_create, h, st')
    end
    end
    end.

(** The cascade of [_assign_identifier] once its two dead [return]s are
    taken out: merge into the best cluster, else attach to the preferred
    one, else create. *)
Definition resolution (st : state)
      (identifier : IdentifierMatch.t) (page_index : Z)
      (preferred : option nat) (force_attach : bool)
      (best_cluster : option nat) (best_score : Q)
      : return_site * nat * state :=
    match best_cluster,
          Qgeb best_score (_threshold_for (IdentifierMatch.kind identifier)) with
    | Some b, true =>
        (At_merge, b,
         merge_at st b identifier page_index best_score)
    | _, _ =>
        match preferred, force_attach with
        | Some p, true =>
            (At_attach, p,
             merge_at st p identifier page_index best_score)
        | _, _ =>
            let '(h, st') := _create_cluster st identifier page_index in
            (At_create, h, st')
        end
    end.

(** The same scan over scores already computed. *)
Fixpoint scan (ss : list Q) (h : nat) (best_cluster : option nat)
      (best_score : Q) : option nat * Q :=
    match ss with
    | [] => (best_cluster, best_score)
    | s :: ss' =>
        if Qgtb s best_score
        then scan ss' (S h) (Some h) s
        else scan ss' (S h) best_cluster best_score
    end.

(** A similarity that lets [_assign_identifier] merge: it beat the start
  value 0.0 of the scan and reaches the threshold. *)
Definition meets_threshold (threshold s : Q) : Prop :=
    (0 < s)%Q /\ (threshold <= s)%Q.

(** The counter is one ahead of the number of clusters, and the cluster
    at position [i] carries the identifier made from [i + 1]. *)
Definition numbered (st : state) : Prop :=
    ClusterCandidate.patient_id <$> clusters st
      = (fun i => "patient_" +:+ format_03d (S i)) <$> seq 0 (length (clusters st))
    /\ next_patient st = S (length (clusters st)).

(** [cluster not in [c for _, c in anchor_positions]] *)
Definition cluster_in_anchors (cs : list ClusterCandidate.t) (h : nat)
      (anchor_positions : list (nat * nat)) : bool :=
    existsb (fun item =>
               (item.2 =? h)%nat
               || match cs !! item.2, cs !! h with
                  | Some a, Some b => cluster_eqb a b
                  | _, _ => false
                  end) anchor_positions.

(** The loop state inside one page: linker state, [anchor_positions],
    and the return sites passed so far. *)
Definition page_state : Type := state * list (nat * nat) * list return_site.

(** Lines 44-49: the preferred cluster and the [force_attach] flag. *)
Definition preferred_for (idx : nat) (kind : string)
    (anchor_positions : list (nat * nat)) : result (option nat * bool) :=
    match anchor_positions with
    | _ :: _ =>
        if supportive_kinds kind
        then a ← _nearest_anchor idx anchor_positions; Ok (Some a, true)
        else Ok (None, false)
    | [] => Ok (None, false)
    end.

(** Lines 59-64: [anchor_positions] after the identifier at [idx] went to
    [cluster]; [cs] is the cluster list at that moment. *)
Definition record_anchor (idx : nat) (kind : string) (preferred : option nat)
    (cs : list ClusterCandidate.t) (cluster : nat)
    (anchor_positions : list (nat * nat)) : list (nat * nat) :=
    if anchor_kinds kind
    then anchor_positions ++ [(idx, cluster)]
    else if supportive_kinds kind
         then if bool_decide (preferred = None)
                 && negb (cluster_in_anchors cs cluster anchor_positions)
              then anchor_positions ++ [(idx, cluster)]
              else anchor_positions
         else anchor_positions.

(** Body of the inner loop of [link] (lines 43-64). *)
Definition link_identifier (page_index : Z) (ps : page_state)
    (item : nat * IdentifierMatch.t) : result page_state :=
    let '(st, anchor_positions, sites) := ps in
    let '(idx, identifier) := item in
    let kind := IdentifierMatch.kind identifier in
    pf ← preferred_for idx kind anchor_positions;
    let preferred := pf.1 in
    let force_attach := pf.2 in
    r ← _assign_identifier st identifier page_index preferred force_attach;
    let '(site, cluster, st') := r in
    Ok (st',
        record_anchor idx kind preferred (clusters st') cluster anchor_positions,
        sites ++ [site]).

(** Body of the outer loop of [link] (lines 39-64). *)
Definition link_page (acc : state * list return_site) (page : PageEntities.t)
      : result (state * list return_site) :=
    ps ← rfold (link_identifier (PageEntities.page_index page))
               (enumerate (PageEntities.identifiers page))
               (acc.1, [], acc.2);
    Ok (ps.1.1, ps.2).

Definition link_loop (st : state) (pages : list PageEntities.t)
      : result (state * list return_site) :=
    rfold link_page pages (st, []).

Definition sorted_by_kind (l : list LinkedIdentifier.t) : list LinkedIdentifier.t :=
    sort_by (fun a b => String.leb (LinkedIdentifier.kind a) (LinkedIdentifier.kind b)) l.

(** Every entry of [cluster.identifiers] is keyed by its own kind, so the
    sort by kind meets no two equal keys. *)
Definition _to_linked_patient (cluster : ClusterCandidate.t) : LinkedPatient.t :=
    let identifiers :=
      sorted_by_kind (map_to_list (ClusterCandidate.identifiers cluster)).*2 in
    {| LinkedPatient.patient_id := ClusterCandidate.patient_id cluster;
       LinkedPatient.identifiers :=
         List.map (fun ident => {|
           LinkedIdentifier.kind := LinkedIdentifier.kind ident;
           LinkedIdentifier.value := LinkedIdentifier.value ident;
           LinkedIdentifier.confidence := round3 (LinkedIdentifier.confidence ident);
           LinkedIdentifier.sources := LinkedIdentifier.sources ident |}) identifiers;
       LinkedPatient.pages := sorted_Z (ClusterCandidate.pages cluster);
       LinkedPatient.score := round3 (ClusterCandidate.score cluster) |}.

(** [link] on a linker in state [st]. *)
Definition link_from (st : state) (pages : list PageEntities.t)
      : result (list LinkedPatient.t) :=
    r ← link_loop st pages;
    Ok (List.map _to_linked_patient (clusters r.1)).

(** [PatientEntityLinker(settings).link(pages)] *)
Definition link (pages : list PageEntities.t) : result (list LinkedPatient.t) :=
    link_from fresh pages.

(** The return sites of [_assign_identifier] passed during [link]. *)
Definition link_sites (pages : list PageEntities.t) : result (list return_site) :=
    r ← link_loop fresh pages; Ok r.2.
End Linker.

End PatientEntityLinker.

(** ** Page assigner ([page_assigner.py]) *)

Module AssignmentScore.
Record t := {
    patient_id : string;
    score : Q;
    reasons : list AssignmentReason.t
  }.
End AssignmentScore.

Module PageAssigner.

(** [d.get(key, default)] on a dictionary written as its item list. *)
Fixpoint dict_get (d : list (string * Q)) (key : string) (default : Q) : Q :=
  match d with
  | [] => default
  | (k, v) :: d' => if String.eqb k key then v else dict_get d' key default
  end.

Section Assigner.
Context (arith : Binary64) (fuzz : Fuzz) (settings : Settings).

(** [sum(values)]: the additions start from the integer 0. *)
Definition fsum (l : list Q) : Q := foldl (fadd arith) 0%Q l.

Definition _weights : list (string * Q) :=
    let weights := [
      ("mrn", assign_mrn_weight settings);
      ("dob", assign_dob_weight settings);
      ("phone", assign_phone_weight settings);
      ("name", assign_name_weight settings)
    ] in
    let total := fsum weights.*2 in
    if Qeq_bool total 0 then weights
    else List.map (fun kv => (kv.1, fdiv arith kv.2 total)) weights.

Definition _compare (kind a b : string) : result Q :=
    if String.eqb kind "mrn" then Ok (FuzzyMatcher.score_mrn fuzz a b)
    else if String.eqb kind "dob" then FuzzyMatcher.score_dob a b
    else if String.eqb kind "phone" then Ok (FuzzyMatcher.score_phone fuzz a b)
    else if String.eqb kind "name" then Ok (FuzzyMatcher.score_name fuzz a b)
    else Ok 0%Q.

(** [patient_lookup.get(kind, [])]: the patient's identifiers of that
    kind, in their order in [patient.identifiers]. *)
Definition patient_lookup (patient : LinkedPatient.t) (kind : string)
      : list LinkedIdentifier.t :=
    List.filter (fun li => String.eqb (LinkedIdentifier.kind li) kind)
                (LinkedPatient.identifiers patient).

(** Lines 121-127: the loop state is [(best, best_value)]. *)
Definition best_candidate (identifier : IdentifierMatch.t)
      (matches : list LinkedIdentifier.t) : result (Q * option string) :=
    rfold (fun (acc : Q * option string) candidate =>
             current ← _compare (IdentifierMatch.kind identifier)
                                (IdentifierMatch.value identifier)
                                (LinkedIdentifier.value candidate);
             Ok (if Qgtb current acc.1
                 then (current, Some (LinkedIdentifier.value candidate))
                 else acc))
          matches (0%Q, None).

(** [best_value or identifier.value] *)
Definition value_or (best_value : option string) (fallback : string) : string :=
    match best_value with
    | Some v => if FuzzyMatcher.is_empty v then fallback else v
    | None => fallback
    end.

Definition _score_page (page : PageEntities.t) (patient : LinkedPatient.t)
      : result AssignmentScore.t :=
    let weights := _weights in
    acc ← rfold (fun (acc : Q * list AssignmentReason.t) identifier =>
                   let kind := IdentifierMatch.kind identifier in
                   bb ← best_candidate identifier (patient_lookup patient kind);
                   let best := bb.1 in
                   if Qgtb best 0
                   then
                     let weight := dict_get weights kind 0 in
                     let contribution := fmul arith best weight in
                     Ok (fadd arith acc.1 contribution,
                         acc.2 ++ [{|
                           AssignmentReason.kind := kind;
                           AssignmentReason.value :=
                             value_or bb.2 (IdentifierMatch.value identifier);
                           AssignmentReason.score := round3 contribution |}])
                   else Ok acc)
                (PageEntities.identifiers page) (0%Q, []);
    let score := Qmin acc.1 1 in
    Ok {| AssignmentScore.patient_id := LinkedPatient.patient_id patient;
          AssignmentScore.score := round3 score;
          AssignmentScore.reasons := acc.2 |}.

(** [scores.sort(key=lambda s: s.score, reverse=True)]: descending and
    stable. *)
Definition sort_scores (scores : list AssignmentScore.t) : list AssignmentScore.t :=
    sort_by (fun a b => Qle_bool (AssignmentScore.score b) (AssignmentScore.score a))
            scores.

(** Lines 72-73 and 83: the candidates with a positive score, ranked. *)
Definition ranked_scores (page : PageEntities.t) (patients : list LinkedPatient.t)
      : result (list AssignmentScore.t) :=
    scores ← rmap (_score_page page) patients;
    Ok (sort_scores
          (List.filter (fun s => Qgtb (AssignmentScore.score s) 0) scores)).

Definition _assign_single_page (page : PageEntities.t)
      (patients : list LinkedPatient.t) : result PageAssignment.t :=
    scores ← ranked_scores page patients;
    match scores with
    | [] =>
        Ok {| PageAssignment.page_index := PageEntities.page_index page;
              PageAssignment.patient_id := None;
              PageAssignment.confidence := 0;
              PageAssignment.reasons := [];
              PageAssignment.manual_review := true |}
    | top :: others =>
        let confidence := AssignmentScore.score top in
        let manual_review :=
          match others with
          | second :: _ =>
              sub_le arith (AssignmentScore.score top)
                     (AssignmentScore.score second)
                     (assign_ambiguity_margin settings)
          | [] => false
          end in
        if Qltb confidence (assign_min_confidence settings)
        then
          Ok {| PageAssignment.page_index := PageEntities.page_index page;
                PageAssignment.patient_id :=
                  if assign_allow_unassigned settings then None
                  else Some (AssignmentScore.patient_id top);
                PageAssignment.confidence := confidence;
                PageAssignment.reasons :=
                  if negb (assign_allow_unassigned settings)
                  then AssignmentScore.reasons top else [];
                PageAssignment.manual_review := true |}
        else
          Ok {| PageAssignment.page_index := PageEntities.page_index page;
                PageAssignment.patient_id := Some (AssignmentScore.patient_id top);
                PageAssignment.confidence := confidence;
                PageAssignment.reasons := AssignmentScore.reasons top;
                PageAssignment.manual_review := manual_review |}
    end.

(** Body of the loop of [assign_pages] (lines 46-52). *)
Definition assign_page (patients : list LinkedPatient.t)
      (acc : DocumentAssignmentSummary.t) (page : PageEntities.t)
      : result DocumentAssignmentSummary.t :=
    result ← _assign_single_page page patients;
    let assignments := DocumentAssignmentSummary.assignments acc ++ [result] in
    let unassigned := DocumentAssignmentSummary.unassigned_pages acc in
    let ambiguous := DocumentAssignmentSummary.ambiguous_pages acc in
    Ok (match PageAssignment.patient_id result with
        | None =>
            {| DocumentAssignmentSummary.assignments := assignments;
               DocumentAssignmentSummary.unassigned_pages :=
                 unassigned ++ [PageEntities.page_index page];
               DocumentAssignmentSummary.ambiguous_pages := ambiguous |}
        | Some _ =>
            if PageAssignment.manual_review result
            then {| DocumentAssignmentSummary.assignments := assignments;
                    DocumentAssignmentSummary.unassigned_pages := unassigned;
                    DocumentAssignmentSummary.ambiguous_pages :=
                      ambiguous ++ [PageEntities.page_index page] |}
            else {| DocumentAssignmentSummary.assignments := assignments;
                    DocumentAssignmentSummary.unassigned_pages := unassigned;
                    DocumentAssignmentSummary.ambiguous_pages := ambiguous |}
        end).

Definition empty_summary : DocumentAssignmentSummary.t :=
    {| DocumentAssignmentSummary.assignments := [];
       DocumentAssignmentSummary.unassigned_pages := [];
       DocumentAssignmentSummary.ambiguous_pages := [] |}.

Definition assign_pages (pages : list PageEntities.t)
      (patients : list LinkedPatient.t) : result DocumentAssignmentSummary.t :=
    rfold (assign_page patients) pages empty_summary.
End Assigner.

End PageAssigner.

(** ** Fixtures for closed examples *)

(** A stand-in for the external metrics: 100 on equal strings, as every
    one of the real metrics gives, and 0 on others.  The closed examples
    below compare [dob] values, which never consult the metrics, or equal
    strings. *)
Definition fuzz_exact : Fuzz :=
  let m := fun a b : string => if String.eqb a b then 100%Q else 0%Q in
  {| ratio := m; token_sort_ratio := m; partial_ratio := m |}.

Definition identifier_match (kind value : string) (confidence : Q)
    : IdentifierMatch.t :=
  {| IdentifierMatch.kind := kind;
     IdentifierMatch.value := value;
     IdentifierMatch.confidence := confidence;
     IdentifierMatch.bbox := (0, 0, 1, 1)%Z;
     IdentifierMatch.word_indices := [] |}.

Definition page_of (page_index : Z) (identifiers : list IdentifierMatch.t)
    : PageEntities.t :=
  {| PageEntities.page_index := page_index;
     PageEntities.identifiers := identifiers |}.

(** [Settings()] with [linker_strict_mode] switched on. *)
Definition strict_settings : Settings := {|
  name_match_threshold := name_match_threshold default_settings;
  mrn_match_threshold := mrn_match_threshold default_settings;
  dob_match_threshold := dob_match_threshold default_settings;
  phone_match_threshold := phone_match_threshold default_settings;
  linker_strict_mode := true;
  assign_min_confidence := assign_min_confidence default_settings;
  assign_name_weight := assign_name_weight default_settings;
  assign_mrn_weight := assign_mrn_weight default_settings;
  assign_dob_weight := assign_dob_weight default_settings;
  assign_phone_weight := assign_phone_weight default_settings;
  assign_ambiguity_margin := assign_ambiguity_margin default_settings;
  assign_allow_unassigned := assign_allow_unassigned default_settings
|}.

(** [Settings()] with [dob_match_threshold] set to 0. *)
Definition zero_dob_threshold_settings : Settings := {|
  name_match_threshold := name_match_threshold default_settings;
  mrn_match_threshold := mrn_match_threshold default_settings;
  dob_match_threshold := 0;
  phone_match_threshold := phone_match_threshold default_settings;
  linker_strict_mode := linker_strict_mode default_settings;
  assign_min_confidence := assign_min_confidence default_settings;
  assign_name_weight := assign_name_weight default_settings;
  assign_mrn_weight := assign_mrn_weight default_settings;
  assign_dob_weight := assign_dob_weight default_settings;
  assign_phone_weight := assign_phone_weight default_settings;
  assign_ambiguity_margin := assign_ambiguity_margin default_settings;
  assign_allow_unassigned := assign_allow_unassigned default_settings
|}.

(** [Settings()] with [assign_allow_unassigned] switched off. *)
Definition keep_assigned_settings : Settings := {|
  name_match_threshold := name_match_threshold default_settings;
  mrn_match_threshold := mrn_match_threshold default_settings;
  dob_match_threshold := dob_match_threshold default_settings;
  phone_match_threshold := phone_match_threshold default_settings;
  linker_strict_mode := linker_strict_mode default_settings;
  assign_min_confidence := assign_min_confidence default_settings;
  assign_name_weight := assign_name_weight default_settings;
  assign_mrn_weight := assign_mrn_weight default_settings;
  assign_dob_weight := assign_dob_weight default_settings;
  assign_phone_weight := assign_phone_weight default_settings;
  assign_ambiguity_margin := assign_ambiguity_margin default_settings;
  assign_allow_unassigned := false
|}.

(** A linked patient known by a date of birth alone. *)
Definition dob_patient (patient_id value : string) : LinkedPatient.t :=
  {| LinkedPatient.patient_id := patient_id;
     LinkedPatient.identifiers :=
       [{| LinkedIdentifier.kind := "dob";
           LinkedIdentifier.value := value;
           LinkedIdentifier.confidence := 9 # 10;
           LinkedIdentifier.sources := [(0%Z, [])] |}];
     LinkedPatient.pages := [0%Z];
     LinkedPatient.score := 9 # 10 |}.

(** The linker state holding one cluster, created from [identifier] on
    page 0. *)
Definition one_cluster_state (identifier : IdentifierMatch.t)
    : PatientEntityLinker.state :=
  {| PatientEntityLinker.clusters :=
       [PatientEntityLinker.new_cluster "patient_001" identifier 0];
     PatientEntityLinker.next_patient := 2 |}.

(** The tests of lines 49 and 51 of [assign_pages] on one assignment. *)
Definition is_unassigned (a : PageAssignment.t) : bool :=
  match PageAssignment.patient_id a with None => true | Some _ => false end.

Definition is_ambiguous (a : PageAssignment.t) : bool :=
  negb (is_unassigned a) && PageAssignment.manual_review a.

(** Values on which [_normalize_dob] returns, identifiers and clusters
    whose date of birth is such a value. *)
Definition dob_normalises (value : string) : Prop :=
  exists n, FuzzyMatcher._normalize_dob value = Ok n.

Definition identifier_safe (identifier : IdentifierMatch.t) : Prop :=
  IdentifierMatch.kind identifier = "dob" ->
  dob_normalises (IdentifierMatch.value identifier).

Definition cluster_safe (cluster : ClusterCandidate.t) : Prop :=
  forall linked,
    ClusterCandidate.identifiers cluster !! "dob" = Some linked ->
    dob_normalises (LinkedIdentifier.value linked).

Definition state_safe (st : PatientEntityLinker.state) : Prop :=
  Forall cluster_safe (PatientEntityLinker.clusters st).

Definition page_safe (page : PageEntities.t) : Prop :=
  Forall identifier_safe (PageEntities.identifiers page).


(** ** Predicates used in the properties *)

(** Every character of [s] satisfies [f]. *)
Fixpoint all_chars (f : ascii -> bool) (s : string) : bool :=
  match s with
  | EmptyString => true
  | String c s' => f c && all_chars f s'
  end.

(** [s] holds two blanks in a row. *)
Fixpoint double_blank (s : string) : bool :=
  match s with
  | String c ((String d _) as s') =>
      (Ascii.eqb c " " && Ascii.eqb d " ") || double_blank s'
  | _ => false
  end.

Definition is_az09 (c : ascii) : bool := Py.is_az c || Py.isdigit c.

(** No character of [s] is [c]. *)
Definition lacks (c : ascii) (s : string) : bool :=
  all_chars (fun x => negb (Ascii.eqb x c)) s.

Definition starts_blank (s : string) : bool :=
  match s with
  | String c _ => Ascii.eqb c " "
  | EmptyString => false
  end.

(** ** The rest of the extractor ([entity_extractor.py]) *)

Module OCRWord.
Record t := {
  text : string;
  bbox : Z * Z * Z * Z;
  confidence : Q
}.
End OCRWord.

Module OCRResult.
Record t := {
  page_index : Z;
  text : string;
  words : list OCRWord.t;
  average_confidence : option Q
}.
End OCRResult.

Module MatchCandidate.
Record t := {
  kind : string;
  value : string;
  confidence : Q;
  word_indices : list Z
}.
End MatchCandidate.

(** What the extractor reads off one match object of the [re] library:
    [match.start()], [match.group(0)] and [match.groupdict()], a named
    group that took no part in the match being [None]. *)
Module RegexMatch.
Record t := {
  start : nat;
  group0 : string;
  groupdict : list (string * option string)
}.
End RegexMatch.

(** [l[i]] on a list: a negative index counts from the end, an index out
    of range raises [IndexError], here [None]. *)
Definition py_index {A} (l : list A) (i : Z) : option A :=
  if (0 <=? i)%Z then l !! Z.to_nat i
  else if (0 <=? Z.of_nat (length l) + i)%Z
       then l !! Z.to_nat (Z.of_nat (length l) + i)
       else None.

(** The first position of [sub] in [s], if any. *)
Fixpoint find (sub s : string) : option nat :=
  if String.prefix sub s then Some 0%nat
  else match s with
       | EmptyString => None
       | String _ s' => S <$> find sub s'
       end.

Fixpoint string_drop (n : nat) (s : string) : string :=
  match n, s with
  | S n', String _ s' => string_drop n' s'
  | _, _ => s
  end.

(** [s.index(sub, start)], [None] standing for its [ValueError]. *)
Definition index_from (sub s : string) (start : nat) : option nat :=
  if (start <=? String.length s)%nat
  then (fun i => (start + i)%nat) <$> find sub (string_drop start s)
  else None.

Module Extractor.

(** Body of the loop of [_map_to_words] (lines 88-101); the loop state is
    [(indices, cursor)]. *)
Definition map_word (start end_ : nat) (full_text : string)
    (acc : list Z * nat) (item : nat * OCRWord.t) : list Z * nat :=
  let '(indices, cursor) := acc in
  let '(idx, word) := item in
  let word_text := OCRWord.text word in
  if FuzzyMatcher.is_empty word_text then acc
  else
    let lower_text := Py.lower full_text in
    match index_from (Py.lower word_text) lower_text cursor with
    | None => acc
    | Some word_start =>
        let word_end := (word_start + String.length word_text)%nat in
        if (word_end <? start)%nat || (end_ <? word_start)%nat
        then (indices, word_end)
        else (indices ++ [Z.of_nat idx], word_end)
    end.

Definition _map_to_words (words : list OCRWord.t) (start end_ : nat)
    (full_text : string) : list Z :=
  (foldl (map_word start end_ full_text) ([], 0%nat) (enumerate words)).1.

Definition sum_Q (l : list Q) : Q := foldl Qplus 0%Q l.

(** [[f(words[i]) for i in word_indices]] *)
Fixpoint words_at (words : list OCRWord.t) (word_indices : list Z)
    : option (list OCRWord.t) :=
  match word_indices with
  | [] => Some []
  | i :: rest =>
      w ← py_index words i; ws ← words_at words rest; Some (w :: ws)
  end.

Definition _confidence (kind value : string) (word_indices : list Z)
    (words : list OCRWord.t) : option Q :=
  let base := (6 # 10)%Q in
  let base := if String.eqb kind "name" then (base + (1 # 10))%Q else base in
  let base :=
    if String.eqb kind "mrn"
    then (base + Qmin (inject_Z (Z.of_nat (String.length value)) / 12) (2 # 10))%Q
    else base in
  let base := if String.eqb kind "dob" then (base + (1 # 10))%Q else base in
  match word_indices with
  | [] => Some base
  | _ :: _ =>
      ws ← words_at words word_indices;
      let avg_word_conf :=
        (sum_Q (OCRWord.confidence <$> ws)
         / inject_Z (Z.of_nat (length word_indices)))%Q in
      Some (Qmin 1 (base + avg_word_conf * (2 # 10)))
  end.

(** [min(l)] and [max(l)] on a non-empty list of integers. *)
Definition min_Z (first : Z) (rest : list Z) : Z := foldl Z.min first rest.
Definition max_Z (first : Z) (rest : list Z) : Z := foldl Z.max first rest.

Definition _aggregate_bbox (words : list OCRWord.t) (kind : string)
    : Z * Z * Z * Z :=
  let xs := (fun w => (OCRWord.bbox w).1.1.1) <$> words in
  let ys := (fun w => (OCRWord.bbox w).1.1.2) <$> words in
  let xe := (fun w => ((OCRWord.bbox w).1.1.1 + (OCRWord.bbox w).1.2)%Z) <$> words in
  let ye := (fun w => ((OCRWord.bbox w).1.1.2 + (OCRWord.bbox w).2)%Z) <$> words in
  match xs, ys, xe, ye with
  | x :: xs', y :: ys', x' :: xe', y' :: ye' =>
      (min_Z x xs', min_Z y ys',
       (max_Z x' xe' - min_Z x xs')%Z, (max_Z y' ye' - min_Z y ys')%Z)
  | _, _, _, _ => (0, 0, 0, 0)%Z
  end.

Definition key_eqb (a b : string * string) : bool :=
  String.eqb a.1 b.1 && String.eqb a.2 b.2.

(** The dictionary [unique] of [_deduplicate], as its items in insertion
    order: [get] and item assignment, which keeps the place of a key
    already present. *)
Fixpoint unique_get (unique : list ((string * string) * MatchCandidate.t))
    (key : string * string) : option MatchCandidate.t :=
  match unique with
  | [] => None
  | (k, v) :: rest => if key_eqb k key then Some v else unique_get rest key
  end.

Fixpoint unique_set (unique : list ((string * string) * MatchCandidate.t))
    (key : string * string) (candidate : MatchCandidate.t)
    : list ((string * string) * MatchCandidate.t) :=
  match unique with
  | [] => [(key, candidate)]
  | (k, v) :: rest =>
      if key_eqb k key then (k, candidate) :: rest
      else (k, v) :: unique_set rest key candidate
  end.

Definition dedup_step (unique : list ((string * string) * MatchCandidate.t))
    (candidate : MatchCandidate.t) : list ((string * string) * MatchCandidate.t) :=
  let key := (MatchCandidate.kind candidate, MatchCandidate.value candidate) in
  match unique_get unique key with
  | None => unique_set unique key candidate
  | Some existing =>
      if Qltb (MatchCandidate.confidence existing)
              (MatchCandidate.confidence candidate)
      then unique_set unique key candidate
      else unique
  end.

Definition _deduplicate (candidates : list MatchCandidate.t)
    : list MatchCandidate.t :=
  (foldl dedup_step [] candidates).*2.

Section Extract.
Context (entity_min_confidence : Q).
(** [finditer kind text]: the matches of the compiled pattern of [kind]
    in [text], in the order [pattern.finditer(text)] yields them. *)
Context (finditer : string -> string -> list RegexMatch.t).

(** [match.group(kind) if kind in match.groupdict() else match.group(0)] *)
Fixpoint group_of (groupdict : list (string * option string)) (kind : string)
    (group0 : string) : option string :=
  match groupdict with
  | [] => Some group0
  | (name, v) :: rest =>
      if String.eqb name kind then v else group_of rest kind group0
  end.

(** Body of the loop of [_match_pattern] (lines 62-76). *)
Definition match_step (kind : string) (ocr_result : OCRResult.t)
    (candidates : list MatchCandidate.t) (m : RegexMatch.t)
    : option (list MatchCandidate.t) :=
  match group_of (RegexMatch.groupdict m) kind (RegexMatch.group0 m) with
  | None => Some candidates
  | Some group_value =>
      if FuzzyMatcher.is_empty group_value then Some candidates
      else
        let truncated_value := EntityExtractor._truncate_value group_value in
        let normalized_value :=
          EntityExtractor._normalize_value kind truncated_value in
        let span_end :=
          (RegexMatch.start m + String.length truncated_value)%nat in
        let word_indices :=
          _map_to_words (OCRResult.words ocr_result) (RegexMatch.start m)
                        span_end (OCRResult.text ocr_result) in
        confidence ← _confidence kind normalized_value word_indices
                                 (OCRResult.words ocr_result);
        if Qltb confidence entity_min_confidence then Some candidates
        else Some (candidates
                   ++ [{| MatchCandidate.kind := kind;
                          MatchCandidate.value := normalized_value;
                          MatchCandidate.confidence := confidence;
                          MatchCandidate.word_indices := word_indices |}])
  end.

Fixpoint ofold {A S} (body : S -> A -> option S) (l : list A) (s : S) : option S :=
  match l with
  | [] => Some s
  | x :: l' => s' ← body s x; ofold body l' s'
  end.

Definition _match_pattern (kind : string) (ocr_result : OCRResult.t)
    : option (list MatchCandidate.t) :=
  ofold (match_step kind ocr_result)
        (finditer kind (OCRResult.text ocr_result)) [].

Definition _collect_matches (ocr_result : OCRResult.t)
    : option (list MatchCandidate.t) :=
  names ← _match_pattern "name" ocr_result;
  mrns ← _match_pattern "mrn" ocr_result;
  dobs ← _match_pattern "dob" ocr_result;
  phones ← _match_pattern "phone" ocr_result;
  Some (_deduplicate (names ++ mrns ++ dobs ++ phones)).

Definition _build_identifier (ocr_result : OCRResult.t)
    (candidate : MatchCandidate.t) : option IdentifierMatch.t :=
  ws ← words_at (OCRResult.words ocr_result)
                (MatchCandidate.word_indices candidate);
  Some {| IdentifierMatch.kind := MatchCandidate.kind candidate;
          IdentifierMatch.value := MatchCandidate.value candidate;
          IdentifierMatch.confidence := round3 (MatchCandidate.confidence candidate);
          IdentifierMatch.bbox := _aggregate_bbox ws (MatchCandidate.kind candidate);
          IdentifierMatch.word_indices := MatchCandidate.word_indices candidate |}.

Fixpoint omap {A B} (f : A -> option B) (l : list A) : option (list B) :=
  match l with
  | [] => Some []
  | x :: l' => y ← f x; ys ← omap f l'; Some (y :: ys)
  end.

Definition extract_page (ocr_result : OCRResult.t) : option PageEntities.t :=
  matches ← _collect_matches ocr_result;
  identifiers ← omap (_build_identifier ocr_result) matches;
  Some {| PageEntities.page_index := OCRResult.page_index ocr_result;
          PageEntities.identifiers := identifiers |}.

Definition extract_document (results : list OCRResult.t)
    : option (list PageEntities.t) :=
  omap extract_page results.
End Extract.

End Extractor.

(** ** Average confidence of a page ([ocr_processor.py]) *)

Module OCRProcessor.

(** One row of the table [pytesseract.image_to_data] returns: the word,
    its box, and [conf], the value of [float(confidence)], [None] where
    [float] raises [ValueError]. *)
Record row := {
    text : string;
    left : Z;
    top : Z;
    width : Z;
    height : Z;
    conf : option Q
  }.

(** Body of the loop of [_run_tesseract] (lines 83-106): the word made
    from a row, [None] where the loop goes on without one. *)
Definition word_of (r : row) : option OCRWord.t :=
  if FuzzyMatcher.is_empty (Py.strip (text r)) then None
  else
    let conf_value := match conf r with Some v => v | None => (-1)%Q end in
    if Qltb conf_value 0 then None
    else
      let normalized_conf := Qmin (Qmax (conf_value / 100) 0) 1 in
      Some {| OCRWord.text := text r;
              OCRWord.bbox := (left r, top r, width r, height r);
              OCRWord.confidence := normalized_conf |}.

(** The words [_run_tesseract] returns for the zipped rows. *)
Definition tesseract_words (rows : list row) : list OCRWord.t :=
  omap word_of rows.

(** Every word carries a confidence: [OCRWord.confidence] is a [float]. *)
Definition _calculate_average_confidence (words : list OCRWord.t) : option Q :=
  let confidences := OCRWord.confidence <$> words in
  match confidences with
  | [] => None
  | _ :: _ =>
      Some (Extractor.sum_Q confidences
            / inject_Z (Z.of_nat (length confidences)))%Q
  end.

End OCRProcessor.

(** Word confidences as the OCR stage produces them: within [0, 1]. *)
Definition confidences_in_range (words : list OCRWord.t) : Prop :=
  Forall (fun w => (0 <= OCRWord.confidence w <= 1)%Q) words.

(** The key under which [_deduplicate] files a candidate. *)
Definition candidate_key (c : MatchCandidate.t) : string * string :=
  (MatchCandidate.kind c, MatchCandidate.value c).

(** What the dictionary of [_deduplicate] holds once the candidates
    [seen] have gone through the loop. *)
Definition dedup_inv (unique : list ((string * string) * MatchCandidate.t))
    (seen : list MatchCandidate.t) : Prop :=
  (forall k v, (k, v) ∈ unique -> k = candidate_key v /\ v ∈ seen)
  /\ NoDup unique.*1
  /\ (forall c, c ∈ seen ->
        exists v, Extractor.unique_get unique (candidate_key c) = Some v
                  /\ (MatchCandidate.confidence c
                      <= MatchCandidate.confidence v)%Q).

(** The box [(x, y, w, h)] of a word lies inside the box [outer]. *)
Definition box_inside (inner outer : Z * Z * Z * Z) : Prop :=
  let '(x, y, w, h) := inner in
  let '(bx, by_, bw, bh) := outer in
  (bx <= x /\ by_ <= y /\ x + w <= bx + bw /\ y + h <= by_ + bh)%Z.

(** A candidate as [_match_pattern] builds them for [kind] on a page with
    the given words. *)
Definition candidate_of (words : list OCRWord.t) (kind : string)
    (c : MatchCandidate.t) : Prop :=
  MatchCandidate.kind c = kind
  /\ Forall (fun i => (0 <= i < Z.of_nat (length words))%Z)
            (MatchCandidate.word_indices c)
  /\ Extractor._confidence kind (MatchCandidate.value c)
       (MatchCandidate.word_indices c) words
     = Some (MatchCandidate.confidence c).

Definition four_kinds : list string := ["name"; "mrn"; "dob"; "phone"].

Definition identifier_key (i : IdentifierMatch.t) : string * string :=
  (IdentifierMatch.kind i, IdentifierMatch.value i).

(** ** Predicates on the linker's clusters *)

(** The cluster holds [identifier], met on page [page_index], among the
    sources of its identifier of that kind, and holds the page. *)
Definition records (cluster : ClusterCandidate.t) (page_index : Z)
    (identifier : IdentifierMatch.t) : Prop :=
  exists linked,
    ClusterCandidate.identifiers cluster !! IdentifierMatch.kind identifier
      = Some linked
    /\ (page_index, IdentifierMatch.word_indices identifier)
         ∈ LinkedIdentifier.sources linked
    /\ page_index ∈ ClusterCandidate.pages cluster.

Definition recorded (st : PatientEntityLinker.state) (item : Z * IdentifierMatch.t)
    : Prop :=
  exists cluster,
    cluster ∈ PatientEntityLinker.clusters st /\ records cluster item.1 item.2.

(** What every cluster built by [link] satisfies. *)
Definition cluster_shape (cluster : ClusterCandidate.t) : Prop :=
  NoDup (ClusterCandidate.pages cluster)
  /\ (exists kind linked,
         ClusterCandidate.identifiers cluster !! kind = Some linked
         /\ LinkedIdentifier.confidence linked = ClusterCandidate.score cluster)
  /\ (forall kind linked,
         ClusterCandidate.identifiers cluster !! kind = Some linked ->
         LinkedIdentifier.kind linked = kind
         /\ LinkedIdentifier.sources linked <> []
         /\ (LinkedIdentifier.confidence linked <= ClusterCandidate.score cluster)%Q
         /\ forall src, src ∈ LinkedIdentifier.sources linked ->
                        src.1 ∈ ClusterCandidate.pages cluster).

(** Every anchor refers to a cluster of the list. *)
Definition anchors_valid (ps : PatientEntityLinker.page_state) : Prop :=
  Forall (fun a : nat * nat =>
            (a.2 < length (PatientEntityLinker.clusters ps.1.1))%nat) ps.1.2.
(** The identifiers of a document, each with the index of its page. *)
Definition page_items (pages : list PageEntities.t)
    : list (Z * IdentifierMatch.t) :=
  pages ≫= (fun page => (fun identifier => (PageEntities.page_index page, identifier))
                          <$> PageEntities.identifiers page).

(** Everything the cluster holds comes from the identifiers [items]. *)
Definition cluster_from (items : list (Z * IdentifierMatch.t))
    (cluster : ClusterCandidate.t) : Prop :=
  (forall p, p ∈ ClusterCandidate.pages cluster -> exists i, (p, i) ∈ items)
  /\ forall kind linked,
       ClusterCandidate.identifiers cluster !! kind = Some linked ->
       (exists p i, (p, i) ∈ items /\ IdentifierMatch.kind i = kind
                    /\ IdentifierMatch.value i = LinkedIdentifier.value linked)
       /\ (exists p i, (p, i) ∈ items /\ IdentifierMatch.kind i = kind
                       /\ IdentifierMatch.confidence i
                          = LinkedIdentifier.confidence linked)
       /\ forall src, src ∈ LinkedIdentifier.sources linked ->
            exists i, (src.1, i) ∈ items /\ IdentifierMatch.kind i = kind
                      /\ IdentifierMatch.word_indices i = src.2.
(** Two pages of one patient: a record number with a name, then the same
    record number with a date of birth. *)
Definition two_page_document : list PageEntities.t :=
  [page_of 0 [identifier_match "mrn" "12345" (9 # 10);
              identifier_match "name" "John Doe" (8 # 10)];
   page_of 1 [identifier_match "mrn" "12345" (7 # 10);
              identifier_match "dob" "01/02/1990" (9 # 10)]].

(** ** Predicates on the assigner's inputs and results *)

(** A patient whose dates of birth all normalise. *)
Definition patient_safe (patient : LinkedPatient.t) : Prop :=
  Forall (fun linked =>
            LinkedIdentifier.kind linked = "dob" ->
            dob_normalises (LinkedIdentifier.value linked))
         (LinkedPatient.identifiers patient).

(** The assignment of a page for which no patient scores above zero. *)
Definition no_candidate (page : PageEntities.t) : PageAssignment.t :=
  {| PageAssignment.page_index := PageEntities.page_index page;
     PageAssignment.patient_id := None;
     PageAssignment.confidence := 0;
     PageAssignment.reasons := [];
     PageAssignment.manual_review := true |}.

(** ** Document splitter ([document_splitter.py])

    The grouping of the assignments into one document per patient.  The
    files written and their paths are left out: a [PdfWriter] is the list
    of the pages added to it. *)

Module SplitArtifact.
Record t := {
    patient_id : string;
    pages : list Z;
    average_confidence : Q
  }.
End SplitArtifact.

Module DocumentSplitResult.
Record t := {
    artifacts : list SplitArtifact.t;
    unassigned_pages : list Z;
    ambiguous_pages : list Z;
    total_pages : Z;
    assigned_pages : Z
  }.
End DocumentSplitResult.

Module DocumentSplitter.

(** [if assignment.patient_id:] holds for a patient id that is present
    and not the empty string. *)
Definition truthy (patient_id : option string) : option string :=
  match patient_id with
  | Some id => if FuzzyMatcher.is_empty id then None else Some id
  | None => None
  end.

Section Split.
Context {Page : Type}.
Context (split_include_unassigned : bool).

(** The source PDF as the [PdfReader] shows it: [len(reader.pages)] and
    [reader.pages[i]], [None] where the access raises. *)
Context (num_pages : Z) (page_at : Z -> option Page).

(** The entries of [patient_writers] and [patient_assignments] for one
    patient id; the two dictionaries gain their keys together. *)
Definition group : Type := list Page * list PageAssignment.t.

(** [patient_writers.setdefault(id, PdfWriter()).add_page(page)] and
    [patient_assignments.setdefault(id, []).append(assignment)], the
    dictionaries written as their item list in insertion order. *)
Fixpoint add_to_patient (groups : list (string * group)) (patient_id : string)
    (page : Page) (assignment : PageAssignment.t) : list (string * group) :=
  match groups with
  | [] => [(patient_id, ([page], [assignment]))]
  | (k, g) :: rest =>
      if String.eqb k patient_id
      then (k, (g.1 ++ [page], g.2 ++ [assignment])) :: rest
      else (k, g) :: add_to_patient rest patient_id page assignment
  end.

(** Body of the loop of [split] (lines 49-59); the second component is
    [unassigned_writer]. *)
Definition split_step (acc : list (string * group) * option (list Page))
    (assignment : PageAssignment.t)
    : option (list (string * group) * option (list Page)) :=
  let page_index := PageAssignment.page_index assignment in
  if (num_pages <=? page_index)%Z then Some acc
  else
    match truthy (PageAssignment.patient_id assignment) with
    | Some patient_id =>
        page ← page_at page_index;
        Some (add_to_patient acc.1 patient_id page assignment, acc.2)
    | None =>
        match acc.2 with
        | Some unassigned_writer =>
            page ← page_at page_index;
            Some (acc.1, Some (unassigned_writer ++ [page]))
        | None => Some acc
        end
    end.

(** Lines 110-145 of [_write_patient_artifact]: the artifact returned. *)
Definition _write_patient_artifact (patient_id : string)
    (assignments : list PageAssignment.t) : SplitArtifact.t :=
  let pages := PageAssignment.page_index <$> assignments in
  let avg_confidence :=
    match assignments with
    | [] => 0%Q
    | _ :: _ =>
        (Extractor.sum_Q (PageAssignment.confidence <$> assignments)
         / inject_Z (Z.of_nat (length assignments)))%Q
    end in
  {| SplitArtifact.patient_id := patient_id;
     SplitArtifact.pages := pages;
     SplitArtifact.average_confidence := avg_confidence |}.

(** [split] from the loop on, for a source PDF that exists. *)
Definition split (assignments : DocumentAssignmentSummary.t)
    : option DocumentSplitResult.t :=
  acc ← Extractor.ofold split_step
         (DocumentAssignmentSummary.assignments assignments)
         ([], if split_include_unassigned then Some [] else None);
  let artifacts :=
    (fun kv : string * group => _write_patient_artifact kv.1 kv.2.2) <$> acc.1 in
  let total := Z.of_nat (length (DocumentAssignmentSummary.assignments assignments)) in
  Some {| DocumentSplitResult.artifacts := artifacts;
          DocumentSplitResult.unassigned_pages :=
            DocumentAssignmentSummary.unassigned_pages assignments;
          DocumentSplitResult.ambiguous_pages :=
            DocumentAssignmentSummary.ambiguous_pages assignments;
          DocumentSplitResult.total_pages := total;
          DocumentSplitResult.assigned_pages :=
            (total - Z.of_nat (length (DocumentAssignmentSummary.unassigned_pages
                                         assignments)))%Z |}.
End Split.

End DocumentSplitter.

(** The assignment goes to the document of [patient_id]: its page is
    below the number of pages and it names that patient. *)
Definition belongs (num_pages : Z) (patient_id : string)
    (a : PageAssignment.t) : bool :=
  (PageAssignment.page_index a <? num_pages)%Z
  && bool_decide (DocumentSplitter.truthy (PageAssignment.patient_id a)
                  = Some patient_id).

(** The assignment goes to the document of some patient. *)
Definition routed (num_pages : Z) (a : PageAssignment.t) : bool :=
  (PageAssignment.page_index a <? num_pages)%Z
  && bool_decide (is_Some (DocumentSplitter.truthy (PageAssignment.patient_id a))).

(** What the dictionaries of [split] hold once the assignments [seen]
    have gone through the loop. *)
Definition groups_of {Page} (num_pages : Z)
    (groups : list (string * (list Page * list PageAssignment.t)))
    (seen : list PageAssignment.t) : Prop :=
  NoDup groups.*1
  /\ (forall k g, (k, g) ∈ groups ->
        g.2 = List.filter (belongs num_pages k) seen /\ g.2 <> []
        /\ length g.1 = length g.2)
  /\ (forall a k, a ∈ seen -> belongs num_pages k a = true -> k ∈ groups.*1)
  /\ length (concat ((fun kv => kv.2.2) <$> groups))
     = length (List.filter (routed num_pages) seen).

(** * Properties *)

(** ** Sanity checks of the primitives *)

Example split_date : Py.split "/" "01/02/1990" = ["01"; "02"; "1990"].
Proof. reflexivity. Qed.

Example split_keeps_empty_fields : Py.split "/" "a//" = ["a"; ""; ""].
Proof. reflexivity. Qed.

Example int_accepts_sign_and_blank : Py.int " +7" = Ok 7%Z.
Proof. reflexivity. Qed.

Example int_refuses_letters : Py.int "ab" = Raise ValueError.
Proof. reflexivity. Qed.

(** [int] does not skip the separator [chr(28)], which [str.strip] and
    [\s] take for white space; it skips the no-break space [chr(160)]. *)
Example int_refuses_separator :
  Py.isspace (ascii_of_nat 28) = true
  /\ Py.int (String (ascii_of_nat 28) "5") = Raise ValueError
  /\ Py.int (String (ascii_of_nat 160) "5") = Ok 5%Z.
Proof. repeat split. Qed.

Example zfill_after_sign : Py.zfill 4 "+5" = "+005".
Proof. reflexivity. Qed.

Example round3_half_even : round3 (15 # 10000) = (2 # 1000)%Q.
Proof. reflexivity. Qed.

Example normalize_dob_short_year :
  FuzzyMatcher._normalize_dob "1-2-90" = Ok "01/02/1990".
Proof. reflexivity. Qed.

Example normalize_dob_pivot :
  FuzzyMatcher._normalize_dob "1.2.05" = Ok "01/02/2005".
Proof. reflexivity. Qed.

Example normalize_dob_two_fields :
  FuzzyMatcher._normalize_dob "1.2" = Ok "1/2".
Proof. reflexivity. Qed.

Example normalize_phone_country_code :
  FuzzyMatcher._normalize_phone "+1 (555) 111-2222" = "5551112222".
Proof. reflexivity. Qed.

Example normalize_name_punctuation :
  FuzzyMatcher._normalize_name "  Doe,   John " = "doe john".
Proof. reflexivity. Qed.

Example extractor_name : EntityExtractor._normalize_value "name" " doe,  JOHN: " = "Doe John".
Proof. reflexivity. Qed.

Example extractor_mrn : EntityExtractor._normalize_value "mrn" "ab-12" = "AB12".
Proof. reflexivity. Qed.

(** ** Comparisons on [Q] *)

Lemma Qgtb_true (a b : Q) : Qgtb a b = true <-> (b < a)%Q.
Proof.
  unfold Qgtb, Qltb. rewrite negb_true_iff.
  split.
  - intros H. apply Qnot_le_lt. intros Hle.
    apply Qle_bool_iff in Hle. congruence.
  - intros H. destruct (Qle_bool a b) eqn:E; [|reflexivity].
    apply Qle_bool_iff in E. exfalso. eapply Qlt_not_le; eassumption.
Qed.

Lemma Qgtb_false (a b : Q) : Qgtb a b = false <-> (a <= b)%Q.
Proof.
  unfold Qgtb, Qltb. rewrite negb_false_iff. apply Qle_bool_iff.
Qed.

Lemma Qltb_true (a b : Q) : Qltb a b = true <-> (a < b)%Q.
Proof. apply (Qgtb_true b a). Qed.

Lemma Qgeb_true (a b : Q) : Qgeb a b = true <-> (b <= a)%Q.
Proof. unfold Qgeb. apply Qle_bool_iff. Qed.

(** ** Similarity scorer *)




(** Wherever [score_dob] returns, it returns 1 on equal normal forms and 0
    on different ones, and it returns whenever both values normalise. *)
Lemma score_dob_categorical (a b na nb : string) :
  FuzzyMatcher._normalize_dob a = Ok na ->
  FuzzyMatcher._normalize_dob b = Ok nb ->
  FuzzyMatcher.score_dob a b = Ok (if bool_decide (na = nb) then 1%Q else 0%Q).
Proof.
  intros Ha Hb. unfold FuzzyMatcher.score_dob.
  rewrite Ha, Hb. cbn.
  destruct (String.eqb_spec na nb) as [->|Hne].
  - rewrite bool_decide_eq_true_2; reflexivity.
  - rewrite bool_decide_eq_false_2; [reflexivity | exact Hne].
Qed.

Lemma score_dob_returns_inv (a b : string) (s : Q) :
  FuzzyMatcher.score_dob a b = Ok s ->
  exists na nb,
    FuzzyMatcher._normalize_dob a = Ok na /\
    FuzzyMatcher._normalize_dob b = Ok nb /\
    s = (if bool_decide (na = nb) then 1%Q else 0%Q).
Proof.
  intros H.
  destruct (FuzzyMatcher._normalize_dob a) as [na|e] eqn:Ha.
  2:{ unfold FuzzyMatcher.score_dob in H. rewrite Ha in H. discriminate. }
  destruct (FuzzyMatcher._normalize_dob b) as [nb|e] eqn:Hb.
  2:{ unfold FuzzyMatcher.score_dob in H. rewrite Ha, Hb in H. discriminate. }
  exists na, nb. repeat split.
  rewrite (score_dob_categorical a b na nb Ha Hb) in H. congruence.
Qed.

(** C5.  [score_dob] of a date whose year field is two letters against
    itself: the two values are equal, before and after any normalisation,
    yet no score is returned; [int(year)] raises [ValueError]. *)
Theorem score_dob_equal_values_raise :
  FuzzyMatcher.score_dob "01/02/ab" "01/02/ab" = Raise ValueError.
Proof. reflexivity. Qed.

(** C6.  [score_dob] raises on a malformed date whose year field is a
    two-character non-numeric string, and the exception leaves both
    [link] and [assign_pages], whatever the string metrics are. *)
Theorem score_dob_raises_on_letter_year (arith : Binary64) (fuzz : Fuzz) :
  FuzzyMatcher.score_dob "01/02/ab" "01/02/1990" = Raise ValueError
  /\ PatientEntityLinker.link fuzz default_settings
       [page_of 0 [identifier_match "dob" "01/02/1990" (9 # 10)];
        page_of 1 [identifier_match "dob" "01/02/ab" (9 # 10)]]
     = Raise ValueError
  /\ PageAssigner.assign_pages arith fuzz default_settings
       [page_of 0 [identifier_match "dob" "01/02/ab" (9 # 10)]]
       [{| LinkedPatient.patient_id := "patient_001";
           LinkedPatient.identifiers :=
             [{| LinkedIdentifier.kind := "dob";
                 LinkedIdentifier.value := "01/02/1990";
                 LinkedIdentifier.confidence := 9 # 10;
                 LinkedIdentifier.sources := [(0%Z, [])] |}];
           LinkedPatient.pages := [0%Z];
           LinkedPatient.score := 9 # 10 |}]
     = Raise ValueError.
Proof. repeat split; vm_compute; reflexivity. Qed.

(** ** Extractor *)

(** C8.  At the extraction stage only full stops become slashes: a dash
    stays, so the two spellings of one date keep different values. *)
Theorem extractor_dob_keeps_dash :
  EntityExtractor._normalize_value "dob" "01-02-1990" = "01-02-1990"
  /\ EntityExtractor._normalize_value "dob" "01/02/1990" = "01/02/1990"
  /\ EntityExtractor._normalize_value "dob" "01-02-1990"
     <> EntityExtractor._normalize_value "dob" "01/02/1990".
Proof. repeat split; vm_compute; congruence. Qed.

(** The scorer's own normalisation does unify them. *)
Example scorer_unifies_dash_and_slash :
  FuzzyMatcher.score_dob "01-02-1990" "01/02/1990" = Ok 1%Q.
Proof. reflexivity. Qed.

(** ** Loops *)

Lemma rbind_ok {A B} (r : result A) (k : A -> result B) (b : B) :
  r ≫= k = Ok b -> exists a, r = Ok a /\ k a = Ok b.
Proof. destruct r as [a|e]; cbn; [eauto | discriminate]. Qed.

Lemma rfold_inv {A S} (P : S -> Prop) (body : S -> A -> result S) :
  (forall s x s', P s -> body s x = Ok s' -> P s') ->
  forall l s s', P s -> rfold body l s = Ok s' -> P s'.
Proof.
  intros Hstep l. induction l as [|x l IH]; intros s s' Hs H; cbn in H.
  - congruence.
  - apply rbind_ok in H as (s1 & H1 & H2). eauto.
Qed.

Lemma rfold_app {A S} (body : S -> A -> result S) (l1 l2 : list A) (s : S) :
  rfold body (l1 ++ l2) s = rfold body l1 s ≫= rfold body l2.
Proof.
  revert s. induction l1 as [|x l1 IH]; intros s; cbn; [reflexivity|].
  destruct (body s x) as [s1|e]; cbn; [apply IH | reflexivity].
Qed.

(** ** Entity linker: how [_assign_identifier] resolves *)

Section LinkerResolution.
Context (fuzz : Fuzz) (settings : Settings).

Abbreviation _match_identifier := (PatientEntityLinker._match_identifier fuzz).
Abbreviation _threshold_for := (PatientEntityLinker._threshold_for settings).
Abbreviation best_match := (PatientEntityLinker.best_match fuzz).
Abbreviation _assign_identifier :=
    (PatientEntityLinker._assign_identifier fuzz settings).
Abbreviation merge_at := PatientEntityLinker.merge_at.
Abbreviation _create_cluster := PatientEntityLinker._create_cluster.
Abbreviation resolution := (PatientEntityLinker.resolution settings).

Lemma threshold_for_name (kind : string) :
    String.eqb kind "name" = true ->
    _threshold_for kind = name_match_threshold settings.
Proof.
    intros H. unfold PatientEntityLinker._threshold_for. rewrite H. reflexivity.
Qed.

Lemma assign_identifier_resolution st identifier page_index preferred
      force_attach best_cluster best_score :
    best_match identifier (PatientEntityLinker.clusters st) 0 None 0%Q
      = Ok (best_cluster, best_score) ->
    _assign_identifier st identifier page_index preferred force_attach
      = Ok (resolution st identifier page_index preferred force_attach
              best_cluster best_score).
Proof.
    intros Hbest.
    unfold PatientEntityLinker._assign_identifier, PatientEntityLinker.resolution.
    rewrite Hbest. cbn [mbind result_bind rbind fst snd].
    destruct best_cluster as [b|].
    - destruct (Qgeb best_score
                  (_threshold_for (IdentifierMatch.kind identifier))) eqn:Hge;
        [reflexivity|].
      destruct (String.eqb (IdentifierMatch.kind identifier) "name") eqn:Hname.
      + rewrite (threshold_for_name _ Hname) in Hge. rewrite Hge.
        rewrite !andb_false_r, ?andb_false_l.
        destruct preferred as [p|]; [destruct force_attach|]; reflexivity.
      + rewrite !andb_false_l.
        destruct preferred as [p|]; [destruct force_attach|]; reflexivity.
    - rewrite bool_decide_eq_false_2 by (intros [? ?]; discriminate).
      rewrite andb_false_r, !andb_false_l.
      destruct preferred as [p|]; [destruct force_attach|];
        destruct (_create_cluster st identifier page_index); reflexivity.
Qed.

Lemma assign_identifier_inv st identifier page_index preferred force_attach r :
    _assign_identifier st identifier page_index preferred force_attach = Ok r ->
    exists best_cluster best_score,
      best_match identifier (PatientEntityLinker.clusters st) 0 None 0%Q
        = Ok (best_cluster, best_score)
      /\ r = resolution st identifier page_index preferred force_attach
               best_cluster best_score.
Proof.
    intros H.
    destruct (best_match identifier (PatientEntityLinker.clusters st) 0 None 0%Q)
      as [[bc bs]|e] eqn:Hbest.
    - exists bc, bs. split; [reflexivity|].
      rewrite (assign_identifier_resolution _ _ _ _ _ _ _ Hbest) in H.
      congruence.
    - unfold PatientEntityLinker._assign_identifier in H.
      rewrite Hbest in H. discriminate.
Qed.

Lemma resolution_site st identifier page_index preferred force_attach bc bs :
    (resolution st identifier page_index preferred force_attach bc bs).1.1
      <> PatientEntityLinker.At_strict.
Proof.
    unfold PatientEntityLinker.resolution.
    destruct bc; [destruct (Qgeb _ _)|];
      (destruct preferred; [destruct force_attach|]);
      try destruct (_create_cluster _ _ _); cbn; discriminate.
Qed.
End LinkerResolution.

(** ** The scan for the best cluster *)

Section BestMatch.
Context (fuzz : Fuzz).

Abbreviation scores_of identifier cs :=
  (rmap (fun c => PatientEntityLinker._match_identifier fuzz c identifier) cs).

Lemma best_match_scan identifier cs ss h bc bs :
  scores_of identifier cs = Ok ss ->
  PatientEntityLinker.best_match fuzz identifier cs h bc bs
    = Ok (PatientEntityLinker.scan ss h bc bs).
Proof.
  revert ss h bc bs.
  induction cs as [|c cs IH]; intros ss h bc bs H; cbn in H.
  - injection H as <-. reflexivity.
  - apply rbind_ok in H as (s & Hs & H).
    apply rbind_ok in H as (ss' & Hss & H).
    injection H as <-.
    cbn. rewrite Hs. cbn.
    destruct (Qgtb s bs); apply IH; exact Hss.
Qed.

Lemma best_match_returns_inv identifier cs h bc bs r :
  PatientEntityLinker.best_match fuzz identifier cs h bc bs = Ok r ->
  exists ss, scores_of identifier cs = Ok ss.
Proof.
  revert h bc bs.
  induction cs as [|c cs IH]; intros h bc bs H; cbn in *.
  - eauto.
  - apply rbind_ok in H as (s & Hs & H). rewrite Hs. cbn.
    destruct (Qgtb s bs); apply IH in H as (ss & ->); cbn; eauto.
Qed.

(** What the scan returns: an upper bound of the start value and of all
    scores; either nothing beat the start value, or the winner is the
    first position holding the greatest score. *)
Lemma scan_spec (ss : list Q) (h : nat) (bc : option nat) (bs : Q) :
  let r := PatientEntityLinker.scan ss h bc bs in
  (bs <= r.2)%Q
  /\ (forall j s, ss !! j = Some s -> (s <= r.2)%Q)
  /\ (r = (bc, bs)
      \/ exists j, r.1 = Some (h + j)%nat /\ ss !! j = Some r.2
                   /\ (bs < r.2)%Q
                   /\ forall j' s', (j' < j)%nat -> ss !! j' = Some s' ->
                                    (s' < r.2)%Q).
Proof.
  revert h bc bs.
  induction ss as [|s ss IH]; intros h bc bs; cbn.
  - split; [apply Qle_refl|]. split; [intros j s' H; discriminate|].
    left; reflexivity.
  - destruct (Qgtb s bs) eqn:Hgt.
    + apply Qgtb_true in Hgt.
      destruct (IH (S h) (Some h) s) as (Hle & Hall & Hcase).
      split; [eapply Qle_trans; [apply Qlt_le_weak, Hgt | exact Hle]|].
      split.
      * intros [|j] s' Hj; cbn in Hj; [injection Hj as <-; exact Hle | eauto].
      * right. destruct Hcase as [Heq | (j & H1 & H2 & H3 & H4)].
        -- exists 0%nat. rewrite Heq. cbn. rewrite Nat.add_0_r.
           repeat split; try reflexivity; [exact Hgt|].
           intros j' s' Hlt. lia.
        -- exists (S j). rewrite H1. replace (h + S j)%nat with (S h + j)%nat by lia.
           repeat split; [exact H2 | eapply Qlt_trans; eassumption |].
           intros [|j'] s' Hlt Hj'; cbn in Hj'.
           ++ injection Hj' as <-. exact H3.
           ++ apply (H4 j'); [lia | exact Hj'].
    + apply Qgtb_false in Hgt.
      destruct (IH (S h) bc bs) as (Hle & Hall & Hcase).
      split; [exact Hle|]. split.
      * intros [|j] s' Hj; cbn in Hj; [|eauto].
        injection Hj as <-. eapply Qle_trans; eassumption.
      * destruct Hcase as [Heq | (j & H1 & H2 & H3 & H4)]; [left; exact Heq|].
        right. exists (S j). rewrite H1.
        replace (h + S j)%nat with (S h + j)%nat by lia.
        repeat split; [exact H2 | exact H3 |].
        intros [|j'] s' Hlt Hj'; cbn in Hj'.
        -- injection Hj' as <-. eapply Qle_lt_trans; eassumption.
        -- apply (H4 j'); [lia | exact Hj'].
Qed.
End BestMatch.

(** ** The strict-mode branch *)

Section StrictMode.
Context (fuzz : Fuzz) (settings : Settings).

Lemma assign_identifier_never_strict st identifier page_index preferred
    force_attach site h st' :
  PatientEntityLinker._assign_identifier fuzz settings st identifier page_index
    preferred force_attach = Ok (site, h, st') ->
  site <> PatientEntityLinker.At_strict.
Proof.
  intros H. apply assign_identifier_inv in H as (bc & bs & _ & Hr).
  pose proof (resolution_site settings st identifier page_index preferred
                force_attach bc bs) as Hs.
  rewrite <- Hr in Hs. exact Hs.
Qed.

Lemma link_identifier_sites page_index ps item ps' :
  Forall (fun site => site <> PatientEntityLinker.At_strict) ps.2 ->
  PatientEntityLinker.link_identifier fuzz settings page_index ps item = Ok ps' ->
  Forall (fun site => site <> PatientEntityLinker.At_strict) ps'.2.
Proof.
  destruct ps as [[st anchors] sites], item as [idx identifier].
  intros Hsites H. unfold PatientEntityLinker.link_identifier in H.
  apply rbind_ok in H as (pf & _ & H).
  apply rbind_ok in H as ([[site h] st'] & Hassign & H).
  injection H as <-. cbn.
  apply Forall_app. split; [exact Hsites|].
  constructor; [|constructor].
  eapply assign_identifier_never_strict; exact Hassign.
Qed.

Lemma link_loop_sites st pages r :
  PatientEntityLinker.link_loop fuzz settings st pages = Ok r ->
  Forall (fun site => site <> PatientEntityLinker.At_strict) r.2.
Proof.
  unfold PatientEntityLinker.link_loop.
  apply (rfold_inv
           (fun acc : PatientEntityLinker.state * list PatientEntityLinker.return_site =>
              Forall (fun site => site <> PatientEntityLinker.At_strict) acc.2)).
  - intros acc page acc' Hacc H.
    unfold PatientEntityLinker.link_page in H.
    apply rbind_ok in H as (ps & Hps & H). injection H as <-. cbn.
    revert Hps.
    apply (rfold_inv
             (fun ps : PatientEntityLinker.page_state =>
                Forall (fun site => site <> PatientEntityLinker.At_strict) ps.2)).
    + intros s x s'. apply link_identifier_sites.
    + exact Hacc.
  - constructor.
Qed.

(** C7.  No call of [_assign_identifier] leaves by the [return] of the
    strict-mode branch, whatever the settings, and so no run of [link]
    passes it: when its guard holds the identifier is a name and the best
    score reaches the name threshold with a best cluster, which the first
    check of the function has already answered. *)
Theorem strict_mode_branch_unreachable :
  (forall st identifier page_index preferred force_attach site h st',
      PatientEntityLinker._assign_identifier fuzz settings st identifier
        page_index preferred force_attach = Ok (site, h, st') ->
      site <> PatientEntityLinker.At_strict)
  /\ (forall pages sites,
         PatientEntityLinker.link_sites fuzz settings pages = Ok sites ->
         PatientEntityLinker.At_strict ∉ sites).
Proof.
  split.
  - apply assign_identifier_never_strict.
  - intros pages sites H. unfold PatientEntityLinker.link_sites in H.
    apply rbind_ok in H as (r & Hr & H). injection H as <-.
    apply link_loop_sites in Hr.
    intros Hin. rewrite Forall_forall in Hr.
    apply (Hr _ Hin). reflexivity.
Qed.
End StrictMode.

(** Strict mode on, a name that matches the stored name exactly: the
    guard of the strict-mode branch holds in all its parts, and the call
    leaves by the merge of line 95. *)
Lemma strict_mode_branch_unreachable_witness :
  PatientEntityLinker.link_sites fuzz_exact strict_settings
    [page_of 0 [identifier_match "name" "John Doe" (9 # 10)];
     page_of 1 [identifier_match "name" "John Doe" (9 # 10)]]
  = Ok [PatientEntityLinker.At_create; PatientEntityLinker.At_merge]
  /\ PatientEntityLinker.At_strict
       ∉ [PatientEntityLinker.At_create; PatientEntityLinker.At_merge].
Proof.
  split; [vm_compute; reflexivity|].
  apply (proj2 (strict_mode_branch_unreachable fuzz_exact strict_settings)
           [page_of 0 [identifier_match "name" "John Doe" (9 # 10)];
            page_of 1 [identifier_match "name" "John Doe" (9 # 10)]]).
  vm_compute; reflexivity.
Defined.

(** ** Patient identifiers *)

(** Zeros in front of a decimal numeral are digits [D0] in front of it. *)
Lemma zeros_string_of_uint (k : nat) (d : Decimal.uint) :
  Py.zeros k +:+ NilEmpty.string_of_uint d
  = NilEmpty.string_of_uint (Nat.iter k Decimal.D0 d).
Proof.
  induction k as [|k IH]; [reflexivity|].
  change (String "0" (Py.zeros k +:+ NilEmpty.string_of_uint d)
          = String "0" (NilEmpty.string_of_uint (Nat.iter k Decimal.D0 d))).
  rewrite IH. reflexivity.
Qed.

Lemma of_uint_leading_zeros (k : nat) (d : Decimal.uint) :
  Nat.of_uint (Nat.iter k Decimal.D0 d) = Nat.of_uint d.
Proof. induction k as [|k IH]; cbn; [reflexivity | exact IH]. Qed.

Lemma format_03d_value (n : nat) :
  exists k, PatientEntityLinker.format_03d n
            = NilEmpty.string_of_uint (Nat.iter k Decimal.D0 (Nat.to_uint n)).
Proof.
  unfold PatientEntityLinker.format_03d. eexists. apply zeros_string_of_uint.
Qed.

Lemma format_03d_inj (n m : nat) :
  PatientEntityLinker.format_03d n = PatientEntityLinker.format_03d m -> n = m.
Proof.
  destruct (format_03d_value n) as (k & ->).
  destruct (format_03d_value m) as (k' & ->).
  intros H.
  apply (f_equal NilEmpty.uint_of_string) in H.
  rewrite !NilEmpty.usu in H. injection H as H.
  apply (f_equal Nat.of_uint) in H.
  rewrite !of_uint_leading_zeros, !DecimalNat.Unsigned.of_to in H. exact H.
Qed.

(** The identifier given to the [n]-th cluster created, counting from 0. *)
Abbreviation token i := ("patient_" +:+ PatientEntityLinker.format_03d (S i)).

#[local] Instance token_inj : Inj (=) (=) (fun i => token i).
Proof.
  intros i j H. cbn in H.
  repeat (injection H as H). apply format_03d_inj in H. lia.
Qed.

Section PatientIds.
Context (fuzz : Fuzz) (settings : Settings).

Abbreviation cluster_ids st :=
  (ClusterCandidate.patient_id <$> PatientEntityLinker.clusters st).

Abbreviation numbered := PatientEntityLinker.numbered.

Lemma numbered_fresh : numbered PatientEntityLinker.fresh.
Proof. split; reflexivity. Qed.

Lemma merge_at_ids st h identifier page_index score :
  cluster_ids (PatientEntityLinker.merge_at st h identifier page_index score)
  = cluster_ids st.
Proof.
  unfold PatientEntityLinker.merge_at; cbn.
  generalize (PatientEntityLinker.clusters st) as cs.
  revert h. intros h cs. revert h.
  induction cs as [|c cs IH]; intros [|h]; cbn; try reflexivity.
  f_equal. apply IH.
Qed.

Lemma merge_at_length st h identifier page_index score :
  length (PatientEntityLinker.clusters
            (PatientEntityLinker.merge_at st h identifier page_index score))
  = length (PatientEntityLinker.clusters st).
Proof. unfold PatientEntityLinker.merge_at; cbn. apply length_alter. Qed.

Lemma merge_at_numbered st h identifier page_index score :
  numbered st ->
  numbered (PatientEntityLinker.merge_at st h identifier page_index score).
Proof.
  intros [Hids Hnext]. split.
  - rewrite merge_at_ids, merge_at_length. exact Hids.
  - rewrite merge_at_length. exact Hnext.
Qed.

Lemma create_cluster_numbered st identifier page_index :
  numbered st ->
  numbered (PatientEntityLinker._create_cluster st identifier page_index).2.
Proof.
  intros [Hids Hnext]. unfold PatientEntityLinker._create_cluster; cbn.
  split; cbn.
  - rewrite fmap_app, length_app, seq_app, fmap_app, Hids, Hnext. cbn.
    reflexivity.
  - rewrite length_app. cbn. lia.
Qed.

Lemma resolution_numbered st identifier page_index preferred force_attach bc bs :
  numbered st ->
  numbered (PatientEntityLinker.resolution settings st identifier page_index
              preferred force_attach bc bs).2.
Proof.
  intros Hst. unfold PatientEntityLinker.resolution.
  pose proof (create_cluster_numbered st identifier page_index Hst) as Hc.
  destruct bc; [destruct (Qgeb _ _)|];
    (destruct preferred; [destruct force_attach|]);
    try (destruct (PatientEntityLinker._create_cluster _ _ _); exact Hc);
    apply merge_at_numbered; exact Hst.
Qed.

Lemma resolution_length st identifier page_index preferred force_attach bc bs :
  (length (PatientEntityLinker.clusters st)
   <= length (PatientEntityLinker.clusters
                (PatientEntityLinker.resolution settings st identifier
                   page_index preferred force_attach bc bs).2))%nat.
Proof.
  unfold PatientEntityLinker.resolution.
  destruct bc; [destruct (Qgeb _ _)|];
    (destruct preferred; [destruct force_attach|]);
    cbn; rewrite ?length_alter, ?length_app; lia.
Qed.

(** A property of the linker state kept by every resolution is kept by
    the whole of [link_loop]. *)
Lemma link_loop_state_inv (P : PatientEntityLinker.state -> Prop) :
  (forall st identifier page_index preferred force_attach bc bs,
      P st ->
      P (PatientEntityLinker.resolution settings st identifier page_index
           preferred force_attach bc bs).2) ->
  forall pages acc acc',
    P acc.1 ->
    rfold (PatientEntityLinker.link_page fuzz settings) pages acc = Ok acc' ->
    P acc'.1.
Proof.
  intros Hres pages.
  apply (rfold_inv
           (fun acc : PatientEntityLinker.state * list PatientEntityLinker.return_site =>
              P acc.1)).
  intros acc page acc' Hacc H.
  unfold PatientEntityLinker.link_page in H.
  apply rbind_ok in H as (ps & Hps & H). injection H as <-. cbn.
  revert Hps.
  apply (rfold_inv (fun ps : PatientEntityLinker.page_state => P ps.1.1));
    [|exact Hacc].
  intros [[st anchors] sites] [idx identifier] ps' Hst H.
  unfold PatientEntityLinker.link_identifier in H.
  apply rbind_ok in H as (pf & _ & H).
  apply rbind_ok in H as ([[site h] st'] & Hassign & H).
  injection H as <-. cbn in *.
  apply assign_identifier_inv in Hassign as (bc & bs & _ & Hr).
  apply (f_equal snd) in Hr. cbn in Hr. subst st'.
  apply Hres. exact Hst.
Qed.

Lemma to_linked_patient_ids (cs : list ClusterCandidate.t) :
  LinkedPatient.patient_id <$> (List.map PatientEntityLinker._to_linked_patient cs)
  = ClusterCandidate.patient_id <$> cs.
Proof. induction cs as [|c cs IH]; cbn; [reflexivity | f_equal; exact IH]. Qed.

(** C9.  On a fresh linker the clusters returned by [link] carry, in list
    order, the identifiers [patient_001], [patient_002], ...: the counter
    value written with at least three digits.  They are pairwise
    distinct, and the clusters present after a prefix of the pages keep
    their place and identifier when the remaining pages are linked: list
    order is creation order. *)
Theorem link_patient_ids (pages : list PageEntities.t) (out : list LinkedPatient.t) :
  PatientEntityLinker.link fuzz settings pages = Ok out ->
  LinkedPatient.patient_id <$> out
    = (fun i => "patient_" +:+ PatientEntityLinker.format_03d (S i))
        <$> seq 0 (length out)
  /\ NoDup (LinkedPatient.patient_id <$> out)
  /\ forall n before,
       PatientEntityLinker.link fuzz settings (take n pages) = Ok before ->
       (LinkedPatient.patient_id <$> before)
         `prefix_of` (LinkedPatient.patient_id <$> out).
Proof.
  assert (Hrun : forall ps o,
             PatientEntityLinker.link fuzz settings ps = Ok o ->
             exists r,
               PatientEntityLinker.link_loop fuzz settings
                 PatientEntityLinker.fresh ps = Ok r
               /\ numbered r.1
               /\ LinkedPatient.patient_id <$> o = cluster_ids r.1
               /\ length o = length (PatientEntityLinker.clusters r.1)).
  { intros ps o H.
    unfold PatientEntityLinker.link, PatientEntityLinker.link_from in H.
    apply rbind_ok in H as (r & Hr & H). injection H as <-.
    exists r. split; [exact Hr|]. split.
    - apply (link_loop_state_inv numbered
               (fun st i p pr fa bc bs => resolution_numbered st i p pr fa bc bs)
               ps (PatientEntityLinker.fresh, []) r numbered_fresh Hr).
    - split; [apply to_linked_patient_ids | apply length_map]. }
  intros H.
  destruct (Hrun _ _ H) as (r & Hr & [Hids _] & Hout & Hlen).
  assert (Heq : LinkedPatient.patient_id <$> out
                = (fun i => token i) <$> seq 0 (length out)).
  { rewrite Hout, Hlen. exact Hids. }
  split; [exact Heq|]. split.
  - rewrite Heq. apply NoDup_fmap_2; [apply token_inj | apply NoDup_seq].
  - intros n before Hb.
    destruct (Hrun _ _ Hb) as (r1 & Hr1 & [Hids1 _] & Hout1 & Hlen1).
    rewrite Hout1, Hout, Hids1, Hids.
    unfold PatientEntityLinker.link_loop in Hr, Hr1.
    rewrite <- (take_drop n pages), rfold_app, Hr1 in Hr. cbn in Hr.
    assert (Hle : (length (PatientEntityLinker.clusters r1.1)
                   <= length (PatientEntityLinker.clusters r.1))%nat).
    { apply (link_loop_state_inv
               (fun st => (length (PatientEntityLinker.clusters r1.1)
                           <= length (PatientEntityLinker.clusters st))%nat)
               (fun st i p pr fa bc bs Hst =>
                  Nat.le_trans _ _ _ Hst
                    (resolution_length st i p pr fa bc bs))
               (drop n pages) r1 r (Nat.le_refl _) Hr). }
    replace (length (PatientEntityLinker.clusters r.1))
      with (length (PatientEntityLinker.clusters r1.1)
            + (length (PatientEntityLinker.clusters r.1)
               - length (PatientEntityLinker.clusters r1.1)))%nat by lia.
    rewrite seq_app, fmap_app. apply prefix_app_r. reflexivity.
Qed.
End PatientIds.

(** ** The merge rule *)

Lemma Qmax_spec (a b : Q) :
  (a <= Qmax a b)%Q /\ (b <= Qmax a b)%Q /\ (Qmax a b = a \/ Qmax a b = b).
Proof.
  unfold Qmax. destruct (Qltb a b) eqn:E.
  - apply Qltb_true in E. repeat split;
      [apply Qlt_le_weak, E | apply Qle_refl | right; reflexivity].
  - apply (Qgtb_false b a) in E. repeat split;
      [apply Qle_refl | exact E | left; reflexivity].
Qed.

(** Both merging [return]s of [_assign_identifier] pass the best score of
    its scan to [_merge_identifier], whichever cluster is merged into. *)
Lemma assign_identifier_merge_score fuzz settings st identifier page_index
    preferred force_attach site h st' :
  PatientEntityLinker._assign_identifier fuzz settings st identifier page_index
    preferred force_attach = Ok (site, h, st') ->
  site = PatientEntityLinker.At_merge \/ site = PatientEntityLinker.At_attach ->
  exists bc bs,
    PatientEntityLinker.best_match fuzz identifier
      (PatientEntityLinker.clusters st) 0 None 0%Q = Ok (bc, bs)
    /\ st' = PatientEntityLinker.merge_at st h identifier page_index bs.
Proof.
  intros H Hsite. apply assign_identifier_inv in H as (bc & bs & Hbest & Hr).
  exists bc, bs. split; [exact Hbest|].
  unfold PatientEntityLinker.resolution in Hr.
  destruct bc; [destruct (Qgeb _ _)|];
    (destruct preferred; [destruct force_attach|]);
    try destruct (PatientEntityLinker._create_cluster _ _ _);
    injection Hr as -> -> ->; try reflexivity;
    destruct Hsite; discriminate.
Qed.

(** C1, as the code has it.  Merging an identifier into a cluster that
    holds an identifier of the same kind: the stored value becomes the new
    value exactly when the score handed to the merge is greater than the
    stored confidence (not a stored match score), and stays otherwise; the
    stored confidence becomes the greater of the old confidence and the
    new identifier's; the new source is appended; the page is in the
    cluster's pages, which lose nothing; the cluster's score becomes the
    greater of its score and the new identifier's confidence. *)
Theorem merge_identifier_same_kind (cluster : ClusterCandidate.t)
    (identifier : IdentifierMatch.t) (page_index : Z) (score : Q)
    (existing : LinkedIdentifier.t) :
  ClusterCandidate.identifiers cluster !! IdentifierMatch.kind identifier
    = Some existing ->
  let merged :=
    PatientEntityLinker._merge_identifier cluster identifier page_index score in
  exists stored,
    ClusterCandidate.identifiers merged !! IdentifierMatch.kind identifier
      = Some stored
    /\ ((LinkedIdentifier.confidence existing < score)%Q ->
        LinkedIdentifier.value stored = IdentifierMatch.value identifier)
    /\ ((score <= LinkedIdentifier.confidence existing)%Q ->
        LinkedIdentifier.value stored = LinkedIdentifier.value existing)
    /\ LinkedIdentifier.confidence stored
       = Qmax (LinkedIdentifier.confidence existing)
              (IdentifierMatch.confidence identifier)
    /\ LinkedIdentifier.sources stored
       = LinkedIdentifier.sources existing
         ++ [(page_index, IdentifierMatch.word_indices identifier)]
    /\ (forall p, p ∈ ClusterCandidate.pages merged
                  <-> p ∈ ClusterCandidate.pages cluster \/ p = page_index)
    /\ ClusterCandidate.score merged
       = Qmax (ClusterCandidate.score cluster)
              (IdentifierMatch.confidence identifier)
    /\ ClusterCandidate.patient_id merged = ClusterCandidate.patient_id cluster
    /\ (forall k, k <> IdentifierMatch.kind identifier ->
                  ClusterCandidate.identifiers merged !! k
                  = ClusterCandidate.identifiers cluster !! k).
Proof.
  intros Hex merged. subst merged.
  unfold PatientEntityLinker._merge_identifier. rewrite Hex. cbn.
  eexists. split; [apply lookup_insert_eq|]. cbn.
  split.
  { intros Hlt. apply Qgtb_true in Hlt. rewrite Hlt. reflexivity. }
  split.
  { intros Hle. apply Qgtb_false in Hle. rewrite Hle. reflexivity. }
  do 2 (split; [reflexivity|]).
  split.
  { intros p. case_bool_decide as Hin.
    - split; [intros H; left; exact H | intros [H | ->]; assumption].
    - rewrite elem_of_app, list_elem_of_singleton. reflexivity. }
  do 2 (split; [reflexivity|]).
  intros k Hk. apply lookup_insert_ne. congruence.
Qed.

Lemma merge_identifier_same_kind_witness :
  let first := identifier_match "dob" "01/02/1990" (9 # 10) in
  let second := identifier_match "dob" "1/2/1990" (7 # 10) in
  let merged :=
    PatientEntityLinker._merge_identifier
      (PatientEntityLinker.new_cluster "patient_001" first 0) second 1 1%Q in
  exists stored,
    ClusterCandidate.identifiers merged !! "dob" = Some stored
    /\ LinkedIdentifier.value stored = "1/2/1990"
    /\ LinkedIdentifier.confidence stored = Qmax (9 # 10) (7 # 10)
    /\ LinkedIdentifier.sources stored = [(0%Z, []); (1%Z, [])]
    /\ ClusterCandidate.score merged = Qmax (9 # 10) (7 # 10).
Proof.
  intros first second merged.
  destruct (merge_identifier_same_kind
              (PatientEntityLinker.new_cluster "patient_001" first 0)
              second 1 1%Q
              (PatientEntityLinker.new_linked first 0))
    as (stored & H1 & H2 & _ & H4 & H5 & _ & H7 & _).
  - vm_compute; reflexivity.
  - exists stored. split; [exact H1|].
    split; [apply H2; vm_compute; reflexivity|].
    split; [exact H4|]. split; [exact H5 | exact H7].
Defined.

(** C1 as stated fails.  Three spellings of one date arrive on three
    pages.  The second is merged with match score 1 and becomes the stored
    value; the third arrives with match score 1 as well, a tie between the
    match scores of the stored and of the new value, and still replaces the
    stored value: the code compares the new match score with the stored
    confidence, 0.9. *)
Lemma merge_replaces_value_at_equal_match_scores :
  let first := identifier_match "dob" "01/02/1990" (9 # 10) in
  let second := identifier_match "dob" "1/2/1990" (7 # 10) in
  let third := identifier_match "dob" "01/2/1990" (7 # 10) in
  let c0 := PatientEntityLinker.new_cluster "patient_001" first 0 in
  let c1 := PatientEntityLinker._merge_identifier c0 second 1 1%Q in
  let c2 := PatientEntityLinker._merge_identifier c1 third 2 1%Q in
  PatientEntityLinker._match_identifier fuzz_exact c0 second = Ok 1%Q
  /\ PatientEntityLinker._match_identifier fuzz_exact c1 third = Ok 1%Q
  /\ LinkedIdentifier.value <$> ClusterCandidate.identifiers c1 !! "dob"
     = Some "1/2/1990"
  /\ LinkedIdentifier.value <$> ClusterCandidate.identifiers c2 !! "dob"
     = Some "01/2/1990"
  /\ PatientEntityLinker.link fuzz_exact default_settings
       [page_of 0 [first]; page_of 1 [second]; page_of 2 [third]]
     = Ok [{| LinkedPatient.patient_id := "patient_001";
              LinkedPatient.identifiers :=
                [{| LinkedIdentifier.kind := "dob";
                    LinkedIdentifier.value := "01/2/1990";
                    LinkedIdentifier.confidence := 900 # 1000;
                    LinkedIdentifier.sources :=
                      [(0%Z, []); (1%Z, []); (2%Z, [])] |}];
              LinkedPatient.pages := [0%Z; 1%Z; 2%Z];
              LinkedPatient.score := 900 # 1000 |}].
Proof. repeat split; vm_compute; reflexivity. Qed.

Lemma link_patient_ids_witness :
  exists out,
    PatientEntityLinker.link fuzz_exact default_settings
      [page_of 0 [identifier_match "dob" "01/02/1990" (9 # 10)];
       page_of 1 [identifier_match "dob" "03/04/1985" (9 # 10)];
       page_of 2 [identifier_match "dob" "01/01/1970" (9 # 10)]] = Ok out
    /\ LinkedPatient.patient_id <$> out
       = ["patient_001"; "patient_002"; "patient_003"]
    /\ NoDup (LinkedPatient.patient_id <$> out).
Proof.
  eexists. split; [vm_compute; reflexivity|].
  split; [vm_compute; reflexivity|].
  apply (link_patient_ids fuzz_exact default_settings
           [page_of 0 [identifier_match "dob" "01/02/1990" (9 # 10)];
            page_of 1 [identifier_match "dob" "03/04/1985" (9 # 10)];
            page_of 2 [identifier_match "dob" "01/01/1970" (9 # 10)]]).
  vm_compute; reflexivity.
Defined.

(** ** Resolution precedence *)

Lemma max_by_pos_cons (a y : nat * nat) (rest : list (nat * nat)) :
  PatientEntityLinker.max_by_pos a (y :: rest)
  = PatientEntityLinker.max_by_pos (if (a.1 <? y.1)%nat then y else a) rest.
Proof. reflexivity. Qed.

Lemma max_by_pos_spec (rest : list (nat * nat)) (a : nat * nat) :
  let m := PatientEntityLinker.max_by_pos a rest in
  m ∈ a :: rest /\ forall x, x ∈ a :: rest -> (x.1 <= m.1)%nat.
Proof.
  revert a. induction rest as [|y rest IH]; intros a m; subst m.
  - split; [left|]. intros x Hx. apply list_elem_of_singleton in Hx as ->.
    apply Nat.le_refl.
  - rewrite max_by_pos_cons.
    destruct (IH (if (a.1 <? y.1)%nat then y else a)) as [Hin Hmax].
    destruct (Nat.ltb_spec a.1 y.1) as [Hlt|Hge].
    + split.
      * right. exact Hin.
      * intros x Hx. apply elem_of_cons in Hx as [->|Hx]; [|apply Hmax, Hx].
        specialize (Hmax y (list_elem_of_here _ _)). lia.
    + split.
      * apply elem_of_cons in Hin as [Hin|Hin];
          [rewrite Hin; left | right; right; exact Hin].
      * intros x Hx. apply elem_of_cons in Hx as [->|Hx];
          [apply Hmax; left|].
        apply elem_of_cons in Hx as [->|Hx].
        -- specialize (Hmax a (list_elem_of_here _ _)). lia.
        -- apply Hmax. right. exact Hx.
Qed.

Lemma filter_all {A} (f : A -> bool) (l : list A) :
  Forall (fun x => f x = true) l -> List.filter f l = l.
Proof.
  induction 1 as [|x l Hx _ IH]; cbn; [reflexivity|].
  rewrite Hx, IH. reflexivity.
Qed.

(** With every anchor recorded at an earlier position, the preferred
    cluster is that of the anchor at the greatest position. *)
Lemma nearest_anchor_spec (idx : nat) (anchors : list (nat * nat)) :
  anchors <> [] ->
  Forall (fun a => (a.1 < idx)%nat) anchors ->
  exists pos p,
    PatientEntityLinker._nearest_anchor idx anchors = Ok p
    /\ (pos, p) ∈ anchors
    /\ forall a, a ∈ anchors -> (a.1 <= pos)%nat.
Proof.
  intros Hne Hall. unfold PatientEntityLinker._nearest_anchor.
  rewrite filter_all.
  2:{ eapply Forall_impl; [exact Hall|]. cbn. intros a Ha.
      apply Nat.leb_le. lia. }
  destruct anchors as [|a rest]; [congruence|].
  destruct (max_by_pos_spec rest a) as [Hin Hmax].
  exists (PatientEntityLinker.max_by_pos a rest).1,
         (PatientEntityLinker.max_by_pos a rest).2.
  split; [reflexivity|]. split; [|exact Hmax].
  destruct (PatientEntityLinker.max_by_pos a rest); exact Hin.
Qed.

Lemma preferred_for_returns (idx : nat) (kind : string) (anchors : list (nat * nat)) :
  exists pf, PatientEntityLinker.preferred_for idx kind anchors = Ok pf.
Proof.
  unfold PatientEntityLinker.preferred_for, PatientEntityLinker._nearest_anchor.
  destruct anchors as [|a rest]; [eauto|].
  destruct (PatientEntityLinker.supportive_kinds kind); [|eauto].
  destruct (List.filter _ (a :: rest)); cbn; eauto.
Qed.

Lemma supportive_not_anchor (kind : string) :
  PatientEntityLinker.supportive_kinds kind = true ->
  PatientEntityLinker.anchor_kinds kind = false.
Proof.
  unfold PatientEntityLinker.supportive_kinds, PatientEntityLinker.anchor_kinds.
  intros H. destruct (String.eqb_spec kind "mrn") as [->|]; [|reflexivity].
  discriminate.
Qed.

Section Precedence.
Context (fuzz : Fuzz) (settings : Settings).

Abbreviation meets := PatientEntityLinker.meets_threshold.

Lemma scan_some_meets (ss : list Q) (threshold : Q) :
  (exists j s, ss !! j = Some s /\ meets threshold s) ->
  exists h s,
    PatientEntityLinker.scan ss 0 None 0%Q = (Some h, s)
    /\ ss !! h = Some s /\ meets threshold s
    /\ (forall j s', ss !! j = Some s' -> (s' <= s)%Q)
    /\ (forall j s', (j < h)%nat -> ss !! j = Some s' -> (s' < s)%Q).
Proof.
  intros (j0 & s0 & Hj0 & Hpos & Hthr).
  destruct (scan_spec ss 0 None 0%Q) as (_ & Hall & Hcase).
  destruct (PatientEntityLinker.scan ss 0 None 0%Q) as [bc bs]; cbn in *.
  pose proof (Hall _ _ Hj0) as Hle.
  destruct Hcase as [Heq | (j & H1 & H2 & H3 & H4)].
  - injection Heq as _ ->. exfalso.
    eapply Qlt_not_le; [exact Hpos | exact Hle].
  - subst bc. exists j, bs. repeat split; try assumption.
    eapply Qle_trans; eassumption.
Qed.

Lemma scan_none_meets (ss : list Q) (threshold : Q) :
  (forall j s, ss !! j = Some s -> ~ meets threshold s) ->
  (PatientEntityLinker.scan ss 0 None 0%Q).1 = None
  \/ Qgeb (PatientEntityLinker.scan ss 0 None 0%Q).2 threshold = false.
Proof.
  intros Hnone.
  destruct (scan_spec ss 0 None 0%Q) as (_ & _ & Hcase).
  destruct (PatientEntityLinker.scan ss 0 None 0%Q) as [bc bs]; cbn in *.
  destruct Hcase as [Heq | (j & H1 & H2 & H3 & H4)].
  - injection Heq as -> _. left; reflexivity.
  - right. destruct (Qgeb bs threshold) eqn:E; [|reflexivity].
    apply Qgeb_true in E. exfalso. apply (Hnone _ _ H2). split; assumption.
Qed.

Lemma resolution_without_merge st identifier page_index preferred force_attach
    bc bs :
  bc = None
  \/ Qgeb bs (PatientEntityLinker._threshold_for settings
                (IdentifierMatch.kind identifier)) = false ->
  PatientEntityLinker.resolution settings st identifier page_index preferred
    force_attach bc bs
  = match preferred, force_attach with
    | Some p, true =>
        (PatientEntityLinker.At_attach, p,
         PatientEntityLinker.merge_at st p identifier page_index bs)
    | _, _ =>
        (PatientEntityLinker.At_create,
         (PatientEntityLinker._create_cluster st identifier page_index).1,
         (PatientEntityLinker._create_cluster st identifier page_index).2)
    end.
Proof.
  unfold PatientEntityLinker.resolution.
  intros [-> | ->]; [|destruct bc];
    (destruct preferred; [destruct force_attach|]); reflexivity.
Qed.
End Precedence.

Section PrecedenceTheorem.
Context (fuzz : Fuzz) (settings : Settings).

Lemma link_identifier_eq page_index st anchors sites idx identifier pf bc bs :
  PatientEntityLinker.preferred_for idx (IdentifierMatch.kind identifier) anchors
    = Ok pf ->
  PatientEntityLinker.best_match fuzz identifier
    (PatientEntityLinker.clusters st) 0 None 0%Q = Ok (bc, bs) ->
  PatientEntityLinker.link_identifier fuzz settings page_index
    (st, anchors, sites) (idx, identifier)
  = Ok (let r := PatientEntityLinker.resolution settings st identifier
                   page_index pf.1 pf.2 bc bs in
        (r.2,
         PatientEntityLinker.record_anchor idx (IdentifierMatch.kind identifier)
           pf.1 (PatientEntityLinker.clusters r.2) r.1.2 anchors,
         sites ++ [r.1.1])).
Proof.
  intros Hpf Hbest. unfold PatientEntityLinker.link_identifier.
  rewrite Hpf. cbn [mbind result_bind rbind].
  rewrite (assign_identifier_resolution fuzz settings _ _ _ _ _ _ _ Hbest).
  cbn [mbind result_bind rbind].
  destruct (PatientEntityLinker.resolution settings st identifier page_index
              pf.1 pf.2 bc bs) as [[site h] st'].
  reflexivity.
Qed.

(** C3, as the code has it.  One step of the inner loop of [link], the
    similarities [ss] of the identifier to the clusters being computed.
    - If some similarity is positive and reaches the threshold of the
      kind, the identifier is merged into the first cluster holding the
      greatest similarity, whatever the anchors are.
    - Otherwise, for a supportive kind with anchors recorded earlier on
      the page, it is attached to the cluster of the anchor at the
      greatest position, and [anchor_positions] is unchanged.
    - Otherwise a cluster holding this identifier alone is appended. *)
Theorem link_identifier_precedence (page_index : Z)
    (st : PatientEntityLinker.state) (anchors : list (nat * nat))
    (sites : list PatientEntityLinker.return_site) (idx : nat)
    (identifier : IdentifierMatch.t) (ss : list Q) :
  let kind := IdentifierMatch.kind identifier in
  let threshold := PatientEntityLinker._threshold_for settings kind in
  let step :=
    PatientEntityLinker.link_identifier fuzz settings page_index
      (st, anchors, sites) (idx, identifier) in
  rmap (fun c => PatientEntityLinker._match_identifier fuzz c identifier)
       (PatientEntityLinker.clusters st) = Ok ss ->
  ((exists j s, ss !! j = Some s
                /\ PatientEntityLinker.meets_threshold threshold s) ->
   exists h s anchors',
     ss !! h = Some s
     /\ PatientEntityLinker.meets_threshold threshold s
     /\ (forall j s', ss !! j = Some s' -> (s' <= s)%Q)
     /\ (forall j s', (j < h)%nat -> ss !! j = Some s' -> (s' < s)%Q)
     /\ step = Ok (PatientEntityLinker.merge_at st h identifier page_index s,
                   anchors', sites ++ [PatientEntityLinker.At_merge]))
  /\ ((forall j s, ss !! j = Some s ->
                   ~ PatientEntityLinker.meets_threshold threshold s) ->
      PatientEntityLinker.supportive_kinds kind = true ->
      anchors <> [] ->
      Forall (fun a => (a.1 < idx)%nat) anchors ->
      exists pos p,
        (pos, p) ∈ anchors
        /\ (forall a, a ∈ anchors -> (a.1 <= pos)%nat)
        /\ step = Ok (PatientEntityLinker.merge_at st p identifier page_index
                        (PatientEntityLinker.scan ss 0 None 0%Q).2,
                      anchors, sites ++ [PatientEntityLinker.At_attach]))
  /\ ((forall j s, ss !! j = Some s ->
                   ~ PatientEntityLinker.meets_threshold threshold s) ->
      PatientEntityLinker.supportive_kinds kind = false \/ anchors = [] ->
      exists anchors',
        step = Ok ({| PatientEntityLinker.clusters :=
                        PatientEntityLinker.clusters st
                        ++ [PatientEntityLinker.new_cluster
                              ("patient_" +:+ PatientEntityLinker.format_03d
                                 (PatientEntityLinker.next_patient st))
                              identifier page_index];
                      PatientEntityLinker.next_patient :=
                        S (PatientEntityLinker.next_patient st) |},
                   anchors', sites ++ [PatientEntityLinker.At_create])).
Proof.
  intros kind threshold step Hss. subst step.
  pose proof (best_match_scan fuzz identifier _ ss 0%nat None 0%Q Hss) as Hbest.
  destruct (PatientEntityLinker.scan ss 0 None 0%Q) as [bc bs] eqn:Hscan.
  split; [|split].
  - intros Hsome.
    destruct (scan_some_meets ss threshold Hsome)
      as (h & s & Hr & Hh & Hmeets & Hmax & Hfirst).
    rewrite Hscan in Hr. injection Hr as -> ->.
    destruct (preferred_for_returns idx kind anchors) as (pf & Hpf).
    rewrite (link_identifier_eq _ _ _ _ _ _ _ _ _ Hpf Hbest).
    unfold PatientEntityLinker.resolution.
    fold kind. fold threshold.
    destruct Hmeets as [Hpos Hthr].
    rewrite (proj2 (Qgeb_true s threshold) Hthr). cbn.
    exists h, s. eexists.
    split; [exact Hh|]. split; [split; assumption|].
    split; [exact Hmax|]. split; [exact Hfirst | reflexivity].
  - intros Hnone Hsup Hne Hearlier.
    destruct (nearest_anchor_spec idx anchors Hne Hearlier)
      as (pos & p & Hnear & Hin & Hmax).
    assert (Hpf : PatientEntityLinker.preferred_for idx kind anchors
                  = Ok (Some p, true)).
    { unfold PatientEntityLinker.preferred_for.
      destruct anchors; [congruence|]. rewrite Hsup, Hnear. reflexivity. }
    rewrite (link_identifier_eq _ _ _ _ _ _ _ _ _ Hpf Hbest).
    rewrite resolution_without_merge.
    2:{ pose proof (scan_none_meets ss threshold Hnone) as Hn.
        rewrite Hscan in Hn. exact Hn. }
    cbn. exists pos, p. split; [exact Hin|]. split; [exact Hmax|].
    unfold PatientEntityLinker.record_anchor. fold kind.
    rewrite (supportive_not_anchor kind Hsup), Hsup. cbn. reflexivity.
  - intros Hnone Hcase.
    assert (Hpf : PatientEntityLinker.preferred_for idx kind anchors
                  = Ok (None, false)).
    { unfold PatientEntityLinker.preferred_for.
      destruct Hcase as [Hsup | ->]; [|reflexivity].
      rewrite Hsup. destruct anchors; reflexivity. }
    rewrite (link_identifier_eq _ _ _ _ _ _ _ _ _ Hpf Hbest).
    rewrite resolution_without_merge.
    2:{ pose proof (scan_none_meets ss threshold Hnone) as Hn.
        rewrite Hscan in Hn. exact Hn. }
    cbn. eexists. reflexivity.
Qed.
End PrecedenceTheorem.

Lemma link_identifier_precedence_witness :
  let first := identifier_match "dob" "01/02/1990" (9 # 10) in
  let same := identifier_match "dob" "1/2/1990" (7 # 10) in
  let other := identifier_match "dob" "03/04/1985" (8 # 10) in
  let st := one_cluster_state first in
  let step := PatientEntityLinker.link_identifier fuzz_exact default_settings 1 in
  (exists h s anchors',
      step (st, [], []) (0%nat, same)
      = Ok (PatientEntityLinker.merge_at st h same 1 s, anchors',
            [PatientEntityLinker.At_merge]))
  /\ (exists pos p,
         (pos, p) ∈ [(0%nat, 0%nat)]
         /\ step (st, [(0%nat, 0%nat)], []) (1%nat, other)
            = Ok (PatientEntityLinker.merge_at st p other 1
                    (PatientEntityLinker.scan [0%Q] 0 None 0%Q).2,
                  [(0%nat, 0%nat)], [PatientEntityLinker.At_attach]))
  /\ (exists anchors',
         step (st, [], []) (0%nat, other)
         = Ok ({| PatientEntityLinker.clusters :=
                    PatientEntityLinker.clusters st
                    ++ [PatientEntityLinker.new_cluster "patient_002" other 1];
                  PatientEntityLinker.next_patient := 3 |},
               anchors', [PatientEntityLinker.At_create])).
Proof.
  intros first same other st step.
  assert (Hsame : rmap (fun c => PatientEntityLinker._match_identifier
                                   fuzz_exact c same)
                       (PatientEntityLinker.clusters st) = Ok [1%Q])
    by (vm_compute; reflexivity).
  assert (Hother : rmap (fun c => PatientEntityLinker._match_identifier
                                    fuzz_exact c other)
                        (PatientEntityLinker.clusters st) = Ok [0%Q])
    by (vm_compute; reflexivity).
  assert (Hnone : forall (j : nat) (s : Q),
             [0%Q] !! j = Some s ->
             ~ PatientEntityLinker.meets_threshold
                 (PatientEntityLinker._threshold_for default_settings "dob") s).
  { intros [|j] s H; [|destruct j; discriminate].
    injection H as <-. intros [Hpos _]. vm_compute in Hpos. discriminate. }
  split; [|split].
  - destruct (proj1 (link_identifier_precedence fuzz_exact default_settings
                       1 st [] [] 0%nat same [1%Q] Hsame))
      as (h & s & anchors' & _ & _ & _ & _ & Hstep).
    + exists 0%nat, 1%Q. split; [reflexivity|].
      split; vm_compute; [reflexivity | discriminate].
    + exists h, s, anchors'. exact Hstep.
  - destruct (proj1 (proj2 (link_identifier_precedence fuzz_exact
                              default_settings 1 st [(0%nat, 0%nat)] []
                              1%nat other [0%Q] Hother)))
      as (pos & p & Hin & _ & Hstep).
    + exact Hnone.
    + reflexivity.
    + discriminate.
    + repeat constructor.
    + exists pos, p. split; [exact Hin | exact Hstep].
  - apply (proj2 (proj2 (link_identifier_precedence fuzz_exact default_settings
                           1 st [] [] 0%nat other [0%Q] Hother))).
    + exact Hnone.
    + right; reflexivity.
Defined.

(** C3 as stated fails when a threshold is zero.  The stored date and the
    new one differ, so their similarity is 0.0, which meets a threshold of
    0.0; the scan keeps no cluster for a similarity that does not exceed
    0.0, and the new date opens a second cluster. *)
Lemma zero_similarity_meets_zero_threshold_without_merge :
  let first := identifier_match "dob" "01/02/1990" (9 # 10) in
  let other := identifier_match "dob" "03/04/1985" (8 # 10) in
  let st := one_cluster_state first in
  PatientEntityLinker._match_identifier fuzz_exact
    (PatientEntityLinker.new_cluster "patient_001" first 0) other = Ok 0%Q
  /\ (PatientEntityLinker._threshold_for zero_dob_threshold_settings "dob" <= 0)%Q
  /\ PatientEntityLinker.link_identifier fuzz_exact zero_dob_threshold_settings 1
       (st, [], []) (0%nat, other)
     = Ok ({| PatientEntityLinker.clusters :=
                PatientEntityLinker.clusters st
                ++ [PatientEntityLinker.new_cluster "patient_002" other 1];
              PatientEntityLinker.next_patient := 3 |},
           [(0%nat, 1%nat)], [PatientEntityLinker.At_create])
  /\ PatientEntityLinker.link_sites fuzz_exact zero_dob_threshold_settings
       [page_of 0 [first]; page_of 1 [other]]
     = Ok [PatientEntityLinker.At_create; PatientEntityLinker.At_create].
Proof.
  repeat split; vm_compute; try reflexivity. discriminate.
Qed.

(** ** Sorting and mapping *)

Lemma elem_of_insert_by {A} (before : A -> A -> bool) (x : A) (l : list A) (y : A) :
  y ∈ insert_by before x l <-> y = x \/ y ∈ l.
Proof.
  induction l as [|z l IH]; cbn.
  - rewrite list_elem_of_singleton, elem_of_nil. tauto.
  - destruct (before x z).
    + rewrite elem_of_cons. tauto.
    + rewrite !elem_of_cons, IH. tauto.
Qed.

Lemma elem_of_sort_by {A} (before : A -> A -> bool) (l : list A) (y : A) :
  y ∈ sort_by before l <-> y ∈ l.
Proof.
  unfold sort_by. induction l as [|x l IH]; cbn; [reflexivity|].
  rewrite elem_of_insert_by, elem_of_cons, IH. reflexivity.
Qed.


Lemma rmap_elem_of {A B} (f : A -> result B) (l : list A) (r : list B) (y : B) :
  rmap f l = Ok r -> y ∈ r -> exists x, x ∈ l /\ f x = Ok y.
Proof.
  revert r. induction l as [|a l IH]; intros r H Hy; cbn in H.
  - injection H as <-. apply elem_of_nil in Hy as [].
  - apply rbind_ok in H as (b & Hb & H).
    apply rbind_ok in H as (bs & Hbs & H). injection H as <-.
    apply elem_of_cons in Hy as [->|Hy].
    + exists a. split; [left | exact Hb].
    + destruct (IH _ Hbs Hy) as (x & Hx & Hfx).
      exists x. split; [right; exact Hx | exact Hfx].
Qed.

(** ** Page assigner *)

Section AssignerFacts.
Context (arith : Binary64) (fuzz : Fuzz) (settings : Settings).

Abbreviation score_le_of top :=
  (fun s => (AssignmentScore.score s <= AssignmentScore.score top)%Q).

Lemma insert_score_sorted (x : AssignmentScore.t) (l : list AssignmentScore.t) :
  StronglySorted (fun a b => score_le_of a b) l ->
  StronglySorted (fun a b => score_le_of a b)
    (insert_by (fun a b => Qle_bool (AssignmentScore.score b)
                                    (AssignmentScore.score a)) x l).
Proof.
  induction 1 as [|y l Hl IH Hy]; cbn.
  - repeat constructor.
  - destruct (Qle_bool (AssignmentScore.score y) (AssignmentScore.score x)) eqn:E.
    + apply Qle_bool_iff in E.
      constructor; [constructor; assumption|].
      constructor; [exact E|].
      eapply Forall_impl; [exact Hy|]. cbn. intros z Hz.
      eapply Qle_trans; eassumption.
    + constructor; [exact IH|].
      apply Forall_forall. intros z Hz.
      apply elem_of_insert_by in Hz as [->|Hz].
      * destruct (Qlt_le_dec (AssignmentScore.score x) (AssignmentScore.score y))
          as [Hlt|Hle]; [apply Qlt_le_weak, Hlt|].
        apply Qle_bool_iff in Hle. congruence.
      * rewrite Forall_forall in Hy. apply Hy, Hz.
Qed.

Lemma sort_scores_sorted (l : list AssignmentScore.t) :
  StronglySorted (fun a b => score_le_of a b) (PageAssigner.sort_scores l).
Proof.
  unfold PageAssigner.sort_scores, sort_by.
  induction l as [|x l IH]; cbn; [constructor|].
  apply insert_score_sorted, IH.
Qed.

(** A score without reasons is the score of no contribution at all. *)
Lemma score_page_reasons page patient s :
  PageAssigner._score_page arith fuzz settings page patient = Ok s ->
  AssignmentScore.reasons s = [] ->
  Qgtb (AssignmentScore.score s) 0 = false.
Proof.
  intros H Hnil. unfold PageAssigner._score_page in H.
  apply rbind_ok in H as (acc & Hacc & H). injection H as <-. cbn in *.
  assert (Hinv : acc.2 = [] -> acc = (0%Q, [])).
  { revert Hacc.
    apply (rfold_inv (fun acc : Q * list AssignmentReason.t =>
                        acc.2 = [] -> acc = (0%Q, []))); [|reflexivity].
    intros a identifier a' Ha Hbody.
    apply rbind_ok in Hbody as (bb & _ & Hbody).
    destruct (Qgtb bb.1 0); injection Hbody as <-; [|exact Ha].
    cbn. intros Happ. apply app_eq_nil in Happ as [_ Happ]. discriminate. }
  rewrite (Hinv Hnil). reflexivity.
Qed.

(** The ranked candidates: all positive, the first the greatest, each
    with a reason. *)
Lemma ranked_scores_spec page patients top others :
  PageAssigner.ranked_scores arith fuzz settings page patients = Ok (top :: others) ->
  (0 < AssignmentScore.score top)%Q
  /\ Forall (fun s => score_le_of top s) others
  /\ AssignmentScore.reasons top <> [].
Proof.
  intros H. unfold PageAssigner.ranked_scores in H.
  apply rbind_ok in H as (scores & Hscores & H). injection H as H.
  assert (Hin : top ∈ List.filter
                        (fun s => Qgtb (AssignmentScore.score s) 0) scores).
  { apply (elem_of_sort_by
             (fun a b => Qle_bool (AssignmentScore.score b)
                                  (AssignmentScore.score a))).
    fold (PageAssigner.sort_scores
            (List.filter (fun s => Qgtb (AssignmentScore.score s) 0) scores)).
    rewrite H. left. }
  apply list_elem_of_In, filter_In in Hin as [Hin Hpos].
  apply list_elem_of_In in Hin.
  split; [apply Qgtb_true, Hpos|]. split.
  - pose proof (sort_scores_sorted
                  (List.filter (fun s => Qgtb (AssignmentScore.score s) 0) scores))
      as Hsorted.
    rewrite H in Hsorted. inversion Hsorted; assumption.
  - destruct (rmap_elem_of _ _ _ _ Hscores Hin) as (patient & _ & Hp).
    intros Hnil. rewrite (score_page_reasons _ _ _ Hp Hnil) in Hpos.
    discriminate.
Qed.

Lemma assign_single_page_ranked page patients top others :
  PageAssigner.ranked_scores arith fuzz settings page patients = Ok (top :: others) ->
  PageAssigner._assign_single_page arith fuzz settings page patients
  = Ok (if Qltb (AssignmentScore.score top) (assign_min_confidence settings)
        then {| PageAssignment.page_index := PageEntities.page_index page;
                PageAssignment.patient_id :=
                  if assign_allow_unassigned settings then None
                  else Some (AssignmentScore.patient_id top);
                PageAssignment.confidence := AssignmentScore.score top;
                PageAssignment.reasons :=
                  if assign_allow_unassigned settings then []
                  else AssignmentScore.reasons top;
                PageAssignment.manual_review := true |}
        else {| PageAssignment.page_index := PageEntities.page_index page;
                PageAssignment.patient_id := Some (AssignmentScore.patient_id top);
                PageAssignment.confidence := AssignmentScore.score top;
                PageAssignment.reasons := AssignmentScore.reasons top;
                PageAssignment.manual_review :=
                  match others with
                  | second :: _ =>
                      sub_le arith (AssignmentScore.score top)
                             (AssignmentScore.score second)
                             (assign_ambiguity_margin settings)
                  | [] => false
                  end |}).
Proof.
  intros H. unfold PageAssigner._assign_single_page. rewrite H.
  cbn [mbind result_bind rbind].
  destruct (Qltb _ _); [|reflexivity].
  destruct (assign_allow_unassigned settings); reflexivity.
Qed.

Lemma assign_single_page_index page patients a :
  PageAssigner._assign_single_page arith fuzz settings page patients = Ok a ->
  PageAssignment.page_index a = PageEntities.page_index page.
Proof.
  intros H. unfold PageAssigner._assign_single_page in H.
  apply rbind_ok in H as (scores & _ & H).
  destruct scores as [|top others]; [injection H as <-; reflexivity|].
  destruct (Qltb _ _); injection H as <-; reflexivity.
Qed.

(** C2, as the code has it.  When the best candidate of a page scores
    above zero and below the minimum confidence, the page is marked for
    manual review with that score as confidence.  With allow-unassigned
    on, the patient id is absent and the reasons are empty; with it off,
    the best candidate's patient id is kept together with its reasons,
    which are never empty. *)
Theorem assign_single_page_below_minimum (page : PageEntities.t)
    (patients : list LinkedPatient.t) (top : AssignmentScore.t)
    (others : list AssignmentScore.t) :
  PageAssigner.ranked_scores arith fuzz settings page patients = Ok (top :: others) ->
  (AssignmentScore.score top < assign_min_confidence settings)%Q ->
  (0 < AssignmentScore.score top)%Q
  /\ Forall (fun s => (AssignmentScore.score s <= AssignmentScore.score top)%Q)
            others
  /\ AssignmentScore.reasons top <> []
  /\ PageAssigner._assign_single_page arith fuzz settings page patients
     = Ok {| PageAssignment.page_index := PageEntities.page_index page;
             PageAssignment.patient_id :=
               if assign_allow_unassigned settings then None
               else Some (AssignmentScore.patient_id top);
             PageAssignment.confidence := AssignmentScore.score top;
             PageAssignment.reasons :=
               if assign_allow_unassigned settings then []
               else AssignmentScore.reasons top;
             PageAssignment.manual_review := true |}.
Proof.
  intros Hranked Hlow.
  destruct (ranked_scores_spec _ _ _ _ Hranked) as (Hpos & Htop & Hreasons).
  repeat (split; [assumption|]).
  rewrite (assign_single_page_ranked _ _ _ _ Hranked).
  rewrite (proj2 (Qltb_true _ _) Hlow). reflexivity.
Qed.
End AssignerFacts.

Lemma assign_single_page_below_minimum_witness :
  let page := page_of 0 [identifier_match "dob" "01/02/1990" (9 # 10)] in
  let patients := [dob_patient "patient_001" "1-2-90"] in
  exists top,
    PageAssigner.ranked_scores binary64 fuzz_exact default_settings page patients = Ok [top]
    /\ (AssignmentScore.score top < assign_min_confidence default_settings)%Q
    /\ (0 < AssignmentScore.score top)%Q
    /\ PageAssigner._assign_single_page binary64 fuzz_exact default_settings page patients
       = Ok {| PageAssignment.page_index := 0;
               PageAssignment.patient_id := None;
               PageAssignment.confidence := AssignmentScore.score top;
               PageAssignment.reasons := [];
               PageAssignment.manual_review := true |}.
Proof.
  intros page patients. eexists.
  split; [vm_compute; reflexivity|].
  split; [vm_compute; reflexivity|].
  match goal with
  | |- context [AssignmentScore.score ?t] =>
      assert (Hranked : PageAssigner.ranked_scores binary64 fuzz_exact
                          default_settings page patients = Ok [t])
        by (vm_compute; reflexivity);
      assert (Hlow : (AssignmentScore.score t
                      < assign_min_confidence default_settings)%Q)
        by (vm_compute; reflexivity);
      destruct (assign_single_page_below_minimum binary64 fuzz_exact
                  default_settings page patients t [] Hranked Hlow)
        as (Hpos & _ & _ & Hassign)
  end.
  split; [exact Hpos | exact Hassign].
Defined.

(** C2 as stated fails with allow-unassigned off: the patient id is kept
    and so is its reason, the list of reasons is not empty. *)
Lemma reasons_kept_when_unassigned_disallowed :
  PageAssigner._assign_single_page binary64 fuzz_exact keep_assigned_settings
    (page_of 0 [identifier_match "dob" "01/02/1990" (9 # 10)])
    [dob_patient "patient_001" "1-2-90"]
  = Ok {| PageAssignment.page_index := 0;
          PageAssignment.patient_id := Some "patient_001";
          PageAssignment.confidence := 200 # 1000;
          PageAssignment.reasons :=
            [{| AssignmentReason.kind := "dob";
                AssignmentReason.value := "1-2-90";
                AssignmentReason.score := 200 # 1000 |}];
          PageAssignment.manual_review := true |}
  /\ (200 # 1000 < assign_min_confidence keep_assigned_settings)%Q
  /\ assign_allow_unassigned keep_assigned_settings = false.
Proof. repeat split; vm_compute; reflexivity. Qed.

(** ** The summary lists *)

Section Summary.
Context (arith : Binary64) (fuzz : Fuzz) (settings : Settings).

Lemma assign_pages_from pages patients acc summary :
  rfold (PageAssigner.assign_page arith fuzz settings patients) pages acc = Ok summary ->
  exists results,
    rmap (fun page => PageAssigner._assign_single_page arith fuzz settings page patients)
         pages = Ok results
    /\ DocumentAssignmentSummary.assignments summary
       = DocumentAssignmentSummary.assignments acc ++ results
    /\ DocumentAssignmentSummary.unassigned_pages summary
       = DocumentAssignmentSummary.unassigned_pages acc
         ++ (PageAssignment.page_index <$> List.filter is_unassigned results)
    /\ DocumentAssignmentSummary.ambiguous_pages summary
       = DocumentAssignmentSummary.ambiguous_pages acc
         ++ (PageAssignment.page_index <$> List.filter is_ambiguous results).
Proof.
  revert acc. induction pages as [|page pages IH]; intros acc H; cbn in H.
  - injection H as <-. exists []. cbn. rewrite !app_nil_r. auto.
  - apply rbind_ok in H as (acc1 & Hstep & H).
    unfold PageAssigner.assign_page in Hstep.
    apply rbind_ok in Hstep as (a & Ha & Hstep). injection Hstep as <-.
    pose proof (assign_single_page_index arith fuzz settings _ _ _ Ha) as Hidx.
    destruct (IH _ H) as (results & Hres & Hass & Hun & Hamb).
    exists (a :: results). cbn. rewrite Ha, Hres. cbn.
    split; [reflexivity|].
    unfold is_ambiguous, is_unassigned in *.
    destruct (PageAssignment.patient_id a) as [pid|];
      [destruct (PageAssignment.manual_review a)|];
      cbn in *; rewrite Hass, Hun, Hamb, <- ?app_assoc, ?Hidx; auto.
Qed.

End Summary.



(** ** When [_normalize_dob] raises *)

Lemma normalize_dob_raises (value : string) :
  FuzzyMatcher._normalize_dob value = Raise ValueError
  <-> exists month day year,
        Py.split "/" (Py.replace "." "/" (Py.replace "-" "/" value))
          = [month; day; year]
        /\ String.length year = 2%nat
        /\ Py.int year = Raise ValueError.
Proof.
  unfold FuzzyMatcher._normalize_dob.
  destruct (Py.split "/" (Py.replace "." "/" (Py.replace "-" "/" value)))
    as [|month [|day [|year [|extra rest]]]] eqn:Hsplit;
    try (split; [discriminate | intros (m & d & y & H & _); discriminate]).
  destruct (String.length year =? 2)%nat eqn:Hlen.
  - apply Nat.eqb_eq in Hlen.
    destruct (Py.int year) as [n|[]] eqn:Hint; cbn.
    + split; [discriminate|].
      intros (m & d & y & H & _ & Hy). injection H as _ _ <-. congruence.
    + split; [|reflexivity]. intros _. exists month, day, year. auto.
  - cbn. split; [discriminate|].
    intros (m & d & y & H & Hy & _). injection H as _ _ <-.
    apply Nat.eqb_neq in Hlen. contradiction.
Qed.

Lemma digit_is_plain (c : ascii) :
  Py.isdigit c = true ->
  Py.int_space c = false /\ Ascii.eqb c "-" = false /\ Ascii.eqb c "+" = false.
Proof.
  destruct c as [[] [] [] [] [] [] [] []]; vm_compute;
    intros H; try discriminate H; repeat split.
Qed.

Lemma int_two_digits (c d : ascii) :
  Py.isdigit c = true -> Py.isdigit d = true ->
  exists n, Py.int (String c (String d EmptyString)) = Ok n.
Proof.
  intros Hc Hd.
  destruct (digit_is_plain c Hc) as (Hsc & Hmc & Hpc).
  destruct (digit_is_plain d Hd) as (Hsd & _ & _).
  unfold Py.int, Py.strip_by. cbn [Py.lstrip_by Py.rstrip_by].
  rewrite Hsc. cbn [Py.rstrip_by]. rewrite Hsd, Hmc, Hpc.
  cbn [Py.int_digits]. rewrite Hc, Hd. eauto.
Qed.

(** A date with a year field of two decimal digits, or of another length,
    normalises; so does every value without exactly three fields. *)
Lemma normalize_dob_returns (value : string) :
  (forall month day year,
      Py.split "/" (Py.replace "." "/" (Py.replace "-" "/" value))
        = [month; day; year] ->
      String.length year <> 2%nat
      \/ exists c d, year = String c (String d EmptyString)
                     /\ Py.isdigit c = true /\ Py.isdigit d = true) ->
  dob_normalises value.
Proof.
  intros H. unfold dob_normalises.
  destruct (FuzzyMatcher._normalize_dob value) as [n|[]] eqn:E; [eauto|].
  apply normalize_dob_raises in E as (m & d & y & Hsplit & Hlen & Hint).
  destruct (H _ _ _ Hsplit) as [Hne | (c & c' & -> & Hc & Hc')];
    [contradiction|].
  destruct (int_two_digits c c' Hc Hc') as (n & Hn). congruence.
Qed.

Example default_pattern_date_normalises : dob_normalises "01-02-90".
Proof. eexists. reflexivity. Qed.

(** ** [link] returns on pages whose dates normalise *)

Lemma rfold_returns {A S} (P : S -> Prop) (Q : A -> Prop)
    (body : S -> A -> result S) :
  (forall s x, P s -> Q x -> exists s', body s x = Ok s' /\ P s') ->
  forall l s, Forall Q l -> P s -> exists s', rfold body l s = Ok s' /\ P s'.
Proof.
  intros Hstep l. induction l as [|x l IH]; intros s Hl Hs; cbn.
  - eauto.
  - inversion Hl as [|? ? Hx Hl']; subst.
    destruct (Hstep s x Hs Hx) as (s1 & -> & Hs1). cbn. apply IH; assumption.
Qed.

Lemma rfold_inv_in {A S} (P : S -> Prop) (body : S -> A -> result S) (l : list A) :
  (forall s x s', x ∈ l -> P s -> body s x = Ok s' -> P s') ->
  forall s s', P s -> rfold body l s = Ok s' -> P s'.
Proof.
  induction l as [|x l IH]; intros Hstep s s' Hs H; cbn in H.
  - congruence.
  - apply rbind_ok in H as (s1 & H1 & H2).
    apply (IH (fun s x' s' Hin => Hstep s x' s' (list_elem_of_further _ _ _ Hin))
              s1 s'); [|exact H2].
    apply (Hstep s x s1); [left | exact Hs | exact H1].
Qed.

Lemma enumerate_from_safe (ids : list IdentifierMatch.t) (k : nat) :
  Forall identifier_safe ids ->
  Forall (fun item : nat * IdentifierMatch.t => identifier_safe item.2)
         (combine (seq k (length ids)) ids).
Proof.
  intros H. revert k. induction H as [|x ids Hx _ IH]; intros k; cbn;
    constructor; [exact Hx | apply IH].
Qed.

Lemma enumerate_from_split {A} (l : list A) (k : nat)
    (l1 : list (nat * A)) (idx : nat) (x : A) (l2 : list (nat * A)) :
  combine (seq k (length l)) l = l1 ++ (idx, x) :: l2 ->
  idx = (k + length l1)%nat /\ Forall (fun item => (item.1 < idx)%nat) l1.
Proof.
  revert l k. induction l1 as [|y l1 IH]; intros l k H.
  - destruct l as [|a l]; [discriminate|]. cbn in H. injection H as <- _ _.
    split; [cbn; lia | constructor].
  - destruct l as [|a l]; [discriminate|]. cbn in H. injection H as <- H.
    destruct (IH _ _ H) as [-> Hall].
    split; [cbn; lia|]. constructor; [cbn; lia | exact Hall].
Qed.

Section LinkReturns.
Context (fuzz : Fuzz) (settings : Settings).

Lemma match_identifier_returns cluster identifier :
  cluster_safe cluster -> identifier_safe identifier ->
  exists s, PatientEntityLinker._match_identifier fuzz cluster identifier = Ok s.
Proof.
  intros Hc Hi. unfold PatientEntityLinker._match_identifier.
  destruct (ClusterCandidate.identifiers cluster !! IdentifierMatch.kind identifier)
    as [linked|] eqn:Hl; [|eauto].
  destruct (String.eqb _ "name"); [eauto|].
  destruct (String.eqb _ "mrn"); [eauto|].
  destruct (String.eqb_spec (IdentifierMatch.kind identifier) "dob") as [Hk|_].
  - rewrite Hk in Hl.
    destruct (Hc _ Hl) as (na & Ha). destruct (Hi Hk) as (nb & Hb).
    rewrite (score_dob_categorical _ _ _ _ Ha Hb). eauto.
  - destruct (String.eqb _ "phone"); eauto.
Qed.

Lemma scores_return cs identifier :
  Forall cluster_safe cs -> identifier_safe identifier ->
  exists ss,
    rmap (fun c => PatientEntityLinker._match_identifier fuzz c identifier) cs
    = Ok ss.
Proof.
  intros Hcs Hi. induction Hcs as [|c cs Hc _ (ss & IH)]; cbn; [eauto|].
  destruct (match_identifier_returns c identifier Hc Hi) as (s & ->).
  cbn. rewrite IH. cbn. eauto.
Qed.

Lemma merge_identifier_safe cluster identifier page_index score :
  cluster_safe cluster -> identifier_safe identifier ->
  cluster_safe (PatientEntityLinker._merge_identifier cluster identifier
                  page_index score).
Proof.
  intros Hc Hi linked. unfold PatientEntityLinker._merge_identifier. cbn.
  destruct (decide (IdentifierMatch.kind identifier = "dob")) as [Hk|Hk].
  - destruct (ClusterCandidate.identifiers cluster
                !! IdentifierMatch.kind identifier) as [existing|] eqn:Hl;
      rewrite Hk, lookup_insert_eq; intros H; injection H as <-; cbn.
    + rewrite Hk in Hl. destruct (Qgtb _ _); [apply Hi, Hk | apply (Hc _ Hl)].
    + apply Hi, Hk.
  - destruct (ClusterCandidate.identifiers cluster
                !! IdentifierMatch.kind identifier);
      rewrite lookup_insert_ne by exact Hk; apply Hc.
Qed.

Lemma new_cluster_safe patient_id identifier page_index :
  identifier_safe identifier ->
  cluster_safe (PatientEntityLinker.new_cluster patient_id identifier page_index).
Proof.
  intros Hi linked. unfold PatientEntityLinker.new_cluster. cbn.
  intros H. apply lookup_singleton_Some in H as [Hk <-]. cbn. apply Hi, Hk.
Qed.

Lemma resolution_safe st identifier page_index preferred force_attach bc bs :
  state_safe st -> identifier_safe identifier ->
  state_safe (PatientEntityLinker.resolution settings st identifier page_index
                preferred force_attach bc bs).2.
Proof.
  intros Hst Hi. unfold state_safe in *.
  assert (Hmerge : forall h s,
             Forall cluster_safe
               (PatientEntityLinker.clusters
                  (PatientEntityLinker.merge_at st h identifier page_index s))).
  { intros h s. cbn. apply Forall_alter; [exact Hst|].
    intros c _ Hc. apply merge_identifier_safe; assumption. }
  unfold PatientEntityLinker.resolution.
  destruct bc; [destruct (Qgeb _ _)|];
    (destruct preferred; [destruct force_attach|]);
    try apply Hmerge; cbn;
    (apply Forall_app; split; [exact Hst|]);
    (constructor; [apply new_cluster_safe, Hi | constructor]).
Qed.

Lemma link_identifier_returns page_index ps item :
  state_safe ps.1.1 -> identifier_safe item.2 ->
  exists ps',
    PatientEntityLinker.link_identifier fuzz settings page_index ps item = Ok ps'
    /\ state_safe ps'.1.1.
Proof.
  destruct ps as [[st anchors] sites], item as [idx identifier].
  cbn [fst snd]. intros Hst Hi.
  destruct (scores_return _ _ Hst Hi) as (ss & Hss).
  pose proof (best_match_scan fuzz identifier _ ss 0%nat None 0%Q Hss) as Hbest.
  destruct (PatientEntityLinker.scan ss 0 None 0%Q) as [bc bs].
  destruct (preferred_for_returns idx (IdentifierMatch.kind identifier) anchors)
    as (pf & Hpf).
  rewrite (link_identifier_eq fuzz settings _ _ _ _ _ _ _ _ _ Hpf Hbest).
  eexists. split; [reflexivity|]. cbn.
  apply resolution_safe; assumption.
Qed.

(** Where no date of birth on the pages makes [_normalize_dob] raise,
    [link] returns its clusters. *)
Lemma link_returns (pages : list PageEntities.t) :
  Forall page_safe pages ->
  exists out, PatientEntityLinker.link fuzz settings pages = Ok out.
Proof.
  intros Hpages.
  destruct (rfold_returns
              (fun acc : PatientEntityLinker.state
                         * list PatientEntityLinker.return_site =>
                 state_safe acc.1)
              page_safe
              (PatientEntityLinker.link_page fuzz settings)) with
      (l := pages) (s := (PatientEntityLinker.fresh, @nil PatientEntityLinker.return_site))
    as (r & Hr & _).
  - intros acc page Hacc Hpage. unfold PatientEntityLinker.link_page.
    destruct (rfold_returns
                (fun ps : PatientEntityLinker.page_state => state_safe ps.1.1)
                (fun item : nat * IdentifierMatch.t => identifier_safe item.2)
                (PatientEntityLinker.link_identifier fuzz settings
                   (PageEntities.page_index page)))
      with (l := enumerate (PageEntities.identifiers page))
           (s := (acc.1, @nil (nat * nat), acc.2))
      as (ps & Hps & Hsafe).
    + intros ps item. apply link_identifier_returns.
    + apply enumerate_from_safe, Hpage.
    + exact Hacc.
    + rewrite Hps. cbn. eauto.
  - exact Hpages.
  - constructor.
  - unfold PatientEntityLinker.link, PatientEntityLinker.link_from,
      PatientEntityLinker.link_loop.
    rewrite Hr. cbn. eauto.
Qed.

(** Inside a page, every anchor met by an identifier was recorded at an
    earlier position. *)
Lemma anchors_recorded_earlier page_index
    (ids : list IdentifierMatch.t) st sites l1 idx identifier l2 ps :
  enumerate ids = l1 ++ (idx, identifier) :: l2 ->
  rfold (PatientEntityLinker.link_identifier fuzz settings page_index) l1
        (st, [], sites) = Ok ps ->
  Forall (fun a => (a.1 < idx)%nat) ps.1.2.
Proof.
  intros Hsplit.
  destruct (enumerate_from_split _ _ _ _ _ _ Hsplit) as [_ Hearlier].
  apply (rfold_inv_in
           (fun ps : PatientEntityLinker.page_state =>
              Forall (fun a => (a.1 < idx)%nat) ps.1.2));
    [|constructor].
  intros [[st0 anchors] sites0] [i ident] ps' Hin Hanchors H.
  rewrite Forall_forall in Hearlier. specialize (Hearlier _ Hin). cbn in *.
  unfold PatientEntityLinker.link_identifier in H.
  apply rbind_ok in H as (pf & _ & H).
  apply rbind_ok in H as ([[site h] st'] & _ & H).
  injection H as <-. cbn.
  unfold PatientEntityLinker.record_anchor.
  assert (Happ : Forall (fun a : nat * nat => (a.1 < idx)%nat)
                        (anchors ++ [(i, h)])).
  { apply Forall_app. split; [exact Hanchors|].
    constructor; [exact Hearlier | constructor]. }
  destruct (PatientEntityLinker.anchor_kinds _); [exact Happ|].
  destruct (PatientEntityLinker.supportive_kinds _); [|exact Hanchors].
  destruct (_ && _); [exact Happ | exact Hanchors].
Qed.
End LinkReturns.

(** * Further properties of the code *)

(** ** Scores lie between 0 and 1 *)

Lemma Qmin_spec (a b : Q) :
  (Qmin a b <= a)%Q /\ (Qmin a b <= b)%Q /\ (Qmin a b = a \/ Qmin a b = b).
Proof.
  unfold Qmin. destruct (Qltb b a) eqn:E.
  - apply Qltb_true in E. repeat split;
      [apply Qlt_le_weak, E | apply Qle_refl | right; reflexivity].
  - apply (Qgtb_false a b) in E. repeat split;
      [apply Qle_refl | exact E | left; reflexivity].
Qed.

Lemma scale_score_range (raw : Q) :
  (0 <= FuzzyMatcher._scale_score raw <= 1)%Q.
Proof.
  unfold FuzzyMatcher._scale_score.
  destruct (Qmax_spec 0 (Qmin (raw / 100) 1)) as (H0 & _ & [E|E]).
  - split; [exact H0|]. rewrite E. discriminate.
  - split; [exact H0|]. rewrite E.
    apply (Qmin_spec (raw / 100) 1).
Qed.

(** X1.  Whatever the string metrics return, the name, MRN and phone
    scores lie in [0, 1]; the date score, when there is one, is 0 or 1. *)
Theorem scores_in_unit_interval (fuzz : Fuzz) (a b : string) :
  (0 <= FuzzyMatcher.score_name fuzz a b <= 1)%Q
  /\ (0 <= FuzzyMatcher.score_mrn fuzz a b <= 1)%Q
  /\ (0 <= FuzzyMatcher.score_phone fuzz a b <= 1)%Q
  /\ match FuzzyMatcher.score_dob a b with
     | Ok s => s = 0%Q \/ s = 1%Q
     | Raise _ => True
     end.
Proof.
  assert (H01 : (0 <= 0 <= 1)%Q) by (split; discriminate).
  assert (H11 : (0 <= 1 <= 1)%Q) by (split; discriminate).
  split; [apply scale_score_range|].
  split; [unfold FuzzyMatcher.score_mrn;
          destruct (_ || _); [exact H01|];
          destruct (String.eqb _ _); [exact H11 | apply scale_score_range]|].
  split; [unfold FuzzyMatcher.score_phone;
          destruct (_ || _); [exact H01|];
          destruct (String.eqb _ _); [exact H11 | apply scale_score_range]|].
  unfold FuzzyMatcher.score_dob.
  destruct (FuzzyMatcher._normalize_dob a); cbn; [|exact I].
  destruct (FuzzyMatcher._normalize_dob b); cbn; [|exact I].
  destruct (String.eqb _ _); auto.
Qed.

(** ** Normal forms of the scorer *)

Lemma sfilter_all (f : ascii -> bool) (s : string) :
  all_chars f s = true -> Py.sfilter f s = s.
Proof.
  induction s as [|c s IH]; cbn; [reflexivity|].
  intros H. apply andb_true_iff in H as [Hc Hs]. rewrite Hc, (IH Hs). reflexivity.
Qed.

Lemma all_chars_sfilter (f : ascii -> bool) (s : string) :
  all_chars f (Py.sfilter f s) = true.
Proof.
  induction s as [|c s IH]; cbn; [reflexivity|].
  destruct (f c) eqn:E; cbn; [rewrite E|]; exact IH.
Qed.

Lemma smap_fixed (P : ascii -> bool) (f : ascii -> ascii) (s : string) :
  (forall c, P c = true -> f c = c) -> all_chars P s = true -> Py.smap f s = s.
Proof.
  intros Hf. induction s as [|c s IH]; cbn; [reflexivity|].
  intros H. apply andb_true_iff in H as [Hc Hs]. rewrite (Hf c Hc), (IH Hs).
  reflexivity.
Qed.

Lemma all_chars_impl (f g : ascii -> bool) (s : string) :
  (forall c, f c = true -> g c = true) -> all_chars f s = true ->
  all_chars g s = true.
Proof.
  intros Hfg. induction s as [|c s IH]; cbn; [reflexivity|].
  intros H. apply andb_true_iff in H as [Hc Hs].
  rewrite (Hfg c Hc), (IH Hs). reflexivity.
Qed.

Lemma lower_char_az09 (c : ascii) : is_az09 c = true -> Py.lower_char c = c.
Proof.
  destruct c as [[] [] [] [] [] [] [] []]; vm_compute;
    intros H; try discriminate H; reflexivity.
Qed.

Lemma normalize_mrn_idempotent (a : string) :
  FuzzyMatcher._normalize_mrn (FuzzyMatcher._normalize_mrn a)
  = FuzzyMatcher._normalize_mrn a.
Proof.
  unfold FuzzyMatcher._normalize_mrn at 1.
  assert (H : all_chars is_az09 (FuzzyMatcher._normalize_mrn a) = true)
    by apply all_chars_sfilter.
  unfold Py.lower. rewrite (smap_fixed is_az09 _ _ lower_char_az09 H).
  apply (sfilter_all is_az09), H.
Qed.

(** X2.  The MRN normal form holds only characters of [[a-z0-9]] and is
    its own normal form; the MRN score depends on its arguments through
    their normal forms only, so case and punctuation never change it. *)
Theorem score_mrn_normal_forms (fuzz : Fuzz) (a b : string) :
  all_chars is_az09 (FuzzyMatcher._normalize_mrn a) = true
  /\ FuzzyMatcher._normalize_mrn (FuzzyMatcher._normalize_mrn a)
     = FuzzyMatcher._normalize_mrn a
  /\ FuzzyMatcher.score_mrn fuzz (FuzzyMatcher._normalize_mrn a)
                            (FuzzyMatcher._normalize_mrn b)
     = FuzzyMatcher.score_mrn fuzz a b.
Proof.
  split; [apply all_chars_sfilter|].
  split; [apply normalize_mrn_idempotent|].
  unfold FuzzyMatcher.score_mrn. rewrite !normalize_mrn_idempotent. reflexivity.
Qed.

Lemma all_chars_substring (f : ascii -> bool) (s : string) (n m : nat) :
  all_chars f s = true -> all_chars f (String.substring n m s) = true.
Proof.
  revert n m. induction s as [|c s IH]; intros n m H.
  - destruct n, m; reflexivity.
  - cbn in H. apply andb_true_iff in H as [Hc Hs].
    destruct n as [|n]; cbn.
    + destruct m as [|m]; cbn; [reflexivity|]. rewrite Hc. apply IH, Hs.
    + apply IH, Hs.
Qed.

Lemma length_substring (s : string) (n m : nat) :
  (n + m <= String.length s)%nat ->
  String.length (String.substring n m s) = m.
Proof.
  revert n m. induction s as [|c s IH]; intros n m H; cbn in H.
  - destruct n, m; cbn; lia.
  - destruct n as [|n]; cbn.
    + destruct m as [|m]; cbn; [reflexivity|]. rewrite (IH 0%nat m); lia.
    + apply IH. lia.
Qed.

Lemma substring_whole (s : string) :
  String.substring 0 (String.length s) s = s.
Proof. induction s as [|c s IH]; cbn; [reflexivity | rewrite IH; reflexivity]. Qed.

Lemma normalize_phone_digits (v : string) :
  all_chars Py.isdigit (FuzzyMatcher._normalize_phone v) = true
  /\ (String.length (FuzzyMatcher._normalize_phone v) <= 10)%nat.
Proof.
  unfold FuzzyMatcher._normalize_phone, FuzzyMatcher.last10.
  pose proof (all_chars_sfilter Py.isdigit v) as Hd.
  destruct (Nat.leb_spec 10 (String.length (Py.sfilter Py.isdigit v))) as [H|H].
  - split; [apply all_chars_substring, Hd|].
    rewrite length_substring; lia.
  - split; [exact Hd | lia].
Qed.

Lemma normalize_phone_idempotent (v : string) :
  FuzzyMatcher._normalize_phone (FuzzyMatcher._normalize_phone v)
  = FuzzyMatcher._normalize_phone v.
Proof.
  destruct (normalize_phone_digits v) as [Hd Hlen].
  unfold FuzzyMatcher._normalize_phone at 1.
  rewrite (sfilter_all _ _ Hd).
  destruct (Nat.leb_spec 10 (String.length (FuzzyMatcher._normalize_phone v)))
    as [H|H]; [|reflexivity].
  unfold FuzzyMatcher.last10.
  assert (E : String.length (FuzzyMatcher._normalize_phone v) = 10%nat) by lia.
  rewrite E. change (10 - 10)%nat with 0%nat. rewrite <- E.
  apply substring_whole.
Qed.

(** X3.  The phone normal form holds decimal digits only, at most ten of
    them, and is its own normal form; the phone score depends on its
    arguments through their normal forms only. *)
Theorem score_phone_normal_forms (fuzz : Fuzz) (a b : string) :
  all_chars Py.isdigit (FuzzyMatcher._normalize_phone a) = true
  /\ (String.length (FuzzyMatcher._normalize_phone a) <= 10)%nat
  /\ FuzzyMatcher._normalize_phone (FuzzyMatcher._normalize_phone a)
     = FuzzyMatcher._normalize_phone a
  /\ FuzzyMatcher.score_phone fuzz (FuzzyMatcher._normalize_phone a)
                              (FuzzyMatcher._normalize_phone b)
     = FuzzyMatcher.score_phone fuzz a b.
Proof.
  destruct (normalize_phone_digits a) as [Hd Hlen].
  repeat (split; [assumption|]).
  split; [apply normalize_phone_idempotent|].
  unfold FuzzyMatcher.score_phone. rewrite !normalize_phone_idempotent.
  reflexivity.
Qed.

(** ** The date normal form *)

Lemma sappend_cons (c : ascii) (a b : string) :
  String c a +:+ b = String c (a +:+ b).
Proof. reflexivity. Qed.

Lemma all_chars_append (f : ascii -> bool) (a b : string) :
  all_chars f (a +:+ b) = all_chars f a && all_chars f b.
Proof.
  induction a as [|c a IH]; [reflexivity|].
  rewrite sappend_cons. cbn [all_chars]. rewrite IH, andb_assoc. reflexivity.
Qed.

Lemma all_chars_zeros (f : ascii -> bool) (k : nat) :
  f "0"%char = true -> all_chars f (Py.zeros k) = true.
Proof. intros H. induction k as [|k IH]; cbn; [reflexivity | rewrite H; exact IH]. Qed.

Lemma length_zeros (k : nat) : String.length (Py.zeros k) = k.
Proof. induction k as [|k IH]; cbn; [reflexivity | rewrite IH; reflexivity]. Qed.

Lemma length_sappend (a b : string) :
  String.length (a +:+ b) = (String.length a + String.length b)%nat.
Proof.
  induction a as [|c a IH]; [reflexivity|].
  rewrite sappend_cons. cbn [String.length]. rewrite IH. reflexivity.
Qed.

Lemma replace_lacks (old new : ascii) (s : string) :
  Ascii.eqb new old = false -> lacks old (Py.replace old new s) = true.
Proof.
  intros Hne. unfold lacks, Py.replace.
  induction s as [|c s IH]; cbn; [reflexivity|].
  rewrite IH, andb_true_r.
  destruct (Ascii.eqb c old) eqn:E; [rewrite Hne | rewrite E]; reflexivity.
Qed.

Lemma replace_keeps_lacks (c old new : ascii) (s : string) :
  Ascii.eqb new c = false -> lacks c s = true ->
  lacks c (Py.replace old new s) = true.
Proof.
  intros Hne. unfold lacks, Py.replace.
  induction s as [|x s IH]; cbn; [reflexivity|].
  intros H. apply andb_true_iff in H as [Hx Hs]. rewrite (IH Hs), andb_true_r.
  destruct (Ascii.eqb x old); [rewrite Hne; reflexivity | exact Hx].
Qed.

Lemma replace_absent (old new : ascii) (s : string) :
  lacks old s = true -> Py.replace old new s = s.
Proof.
  unfold lacks, Py.replace. induction s as [|c s IH]; cbn; [reflexivity|].
  intros H. apply andb_true_iff in H as [Hc Hs].
  apply negb_true_iff in Hc. rewrite Hc, (IH Hs). reflexivity.
Qed.

Lemma split_cons (sep c : ascii) (s : string) :
  Py.split sep (String c s)
  = if Ascii.eqb c sep then EmptyString :: Py.split sep s
    else match Py.split sep s with
         | [] => [String c EmptyString]
         | w :: ws => String c w :: ws
         end.
Proof. reflexivity. Qed.

Lemma split_nonempty (sep : ascii) (s : string) : Py.split sep s <> [].
Proof.
  destruct s as [|c s]; [discriminate|]. rewrite split_cons.
  destruct (Ascii.eqb c sep); [discriminate|].
  destruct (Py.split sep s); discriminate.
Qed.

Lemma split_fields (f : ascii -> bool) (sep : ascii) (s : string) :
  all_chars f s = true ->
  Forall (fun p => all_chars f p = true /\ lacks sep p = true) (Py.split sep s).
Proof.
  induction s as [|c s IH].
  - intros _. repeat constructor.
  - intros H. cbn [all_chars] in H. apply andb_true_iff in H as [Hc Hs].
    specialize (IH Hs). rewrite split_cons.
    destruct (Ascii.eqb c sep) eqn:E.
    + constructor; [split; reflexivity | exact IH].
    + destruct (Py.split sep s) as [|w ws].
      * repeat constructor; unfold lacks; cbn [all_chars].
        -- rewrite Hc. reflexivity.
        -- rewrite E. reflexivity.
      * inversion IH as [|? ? [Hw Hl] Hws]; subst.
        constructor; [|exact Hws]. split; unfold lacks in *; cbn [all_chars].
        -- rewrite Hc. exact Hw.
        -- rewrite E. exact Hl.
Qed.

Lemma split_absent (sep : ascii) (s : string) :
  lacks sep s = true -> Py.split sep s = [s].
Proof.
  unfold lacks. induction s as [|c s IH]; [reflexivity|].
  cbn [all_chars]. intros H. apply andb_true_iff in H as [Hc Hs].
  apply negb_true_iff in Hc. rewrite split_cons, Hc, (IH Hs). reflexivity.
Qed.

Lemma split_first_field (sep : ascii) (a b : string) :
  lacks sep a = true ->
  Py.split sep (a +:+ String sep b) = a :: Py.split sep b.
Proof.
  unfold lacks. induction a as [|c a IH].
  - intros _. change (EmptyString +:+ String sep b) with (String sep b).
    rewrite split_cons, Ascii.eqb_refl. reflexivity.
  - cbn [all_chars]. intros H. apply andb_true_iff in H as [Hc Hs].
    apply negb_true_iff in Hc.
    rewrite sappend_cons, split_cons, Hc, (IH Hs). reflexivity.
Qed.

Lemma zfill_long (w : nat) (s : string) :
  (w <= String.length s)%nat -> Py.zfill w s = s.
Proof.
  intros H. unfold Py.zfill. apply Nat.leb_le in H. rewrite H. reflexivity.
Qed.

Lemma length_zfill (w : nat) (s : string) :
  (w <= String.length (Py.zfill w s))%nat.
Proof.
  unfold Py.zfill. destruct (Nat.leb_spec w (String.length s)) as [H|H]; [exact H|].
  destruct s as [|c s]; cbn in *; [rewrite length_zeros; lia|].
  destruct (_ || _); cbn; rewrite length_sappend, length_zeros; cbn; lia.
Qed.

Lemma all_chars_zfill (f : ascii -> bool) (w : nat) (s : string) :
  f "0"%char = true -> all_chars f s = true -> all_chars f (Py.zfill w s) = true.
Proof.
  intros H0 Hs. unfold Py.zfill.
  destruct (_ <=? _)%nat; [exact Hs|].
  destruct s as [|c s]; [apply all_chars_zeros, H0|].
  cbn in Hs. apply andb_true_iff in Hs as [Hc Hs'].
  destruct (_ || _); cbn.
  - rewrite Hc, all_chars_append, (all_chars_zeros f _ H0), Hs'. reflexivity.
  - rewrite all_chars_append, (all_chars_zeros f _ H0). cbn. rewrite Hc, Hs'.
    reflexivity.
Qed.

(** Characters that are none of the three date separators. *)
Abbreviation plain c :=
  (negb (Ascii.eqb c "/") && negb (Ascii.eqb c "-") && negb (Ascii.eqb c ".")).

Lemma plain_lacks (s : string) :
  all_chars (fun c => plain c) s = true ->
  lacks "/" s = true /\ lacks "-" s = true /\ lacks "." s = true.
Proof.
  intros H. unfold lacks.
  repeat split; (eapply all_chars_impl; [|exact H]); cbn; intros c Hc;
    apply andb_true_iff in Hc as [Hc H3]; apply andb_true_iff in Hc as [H1 H2];
    assumption.
Qed.

Lemma normalize_dob_idempotent (v n : string) :
  FuzzyMatcher._normalize_dob v = Ok n -> FuzzyMatcher._normalize_dob n = Ok n.
Proof.
  unfold FuzzyMatcher._normalize_dob at 1.
  set (v' := Py.replace "." "/" (Py.replace "-" "/" v)).
  assert (Hdot : lacks "." v' = true) by (apply replace_lacks; reflexivity).
  assert (Hdash : lacks "-" v' = true).
  { apply replace_keeps_lacks; [reflexivity|]. apply replace_lacks. reflexivity. }
  assert (Hsame : Py.replace "." "/" (Py.replace "-" "/" v') = v').
  { rewrite (replace_absent "-" "/" v' Hdash). apply replace_absent, Hdot. }
  assert (Hother : FuzzyMatcher._normalize_dob v'
                   = match Py.split "/" v' with
                     | [m; d; y] => FuzzyMatcher._normalize_dob v'
                     | _ => Ok v'
                     end).
  { unfold FuzzyMatcher._normalize_dob at 1. rewrite Hsame.
    destruct (Py.split "/" v') as [|m [|d [|y [|x r]]]] eqn:E; try reflexivity.
    unfold FuzzyMatcher._normalize_dob. rewrite Hsame, E. reflexivity. }
  assert (Hfields :
            Forall (fun p => all_chars (fun c => negb (Ascii.eqb c "-")
                                                 && negb (Ascii.eqb c ".")) p = true
                             /\ lacks "/" p = true) (Py.split "/" v')).
  { apply split_fields. unfold lacks in Hdot, Hdash.
    revert Hdot Hdash. generalize v'. intros s.
    induction s as [|c s IH]; cbn; [reflexivity|].
    intros H1 H2. apply andb_true_iff in H1 as [H1 H1'].
    apply andb_true_iff in H2 as [H2 H2'].
    rewrite H1, H2, (IH H1' H2'). reflexivity. }
  destruct (Py.split "/" v') as [|m [|d [|y [|x r]]]] eqn:E;
    try (intros H; injection H as <-; rewrite Hother; reflexivity).
  assert (Hplain : forall p, all_chars (fun c => negb (Ascii.eqb c "-")
                                          && negb (Ascii.eqb c ".")) p = true ->
                             lacks "/" p = true ->
                             all_chars (fun c => plain c) p = true).
  { intros p. unfold lacks. induction p as [|c p IH]; cbn; [reflexivity|].
    intros H1 H2. apply andb_true_iff in H1 as [H1 H1'].
    apply andb_true_iff in H2 as [H2 H2'].
    apply andb_true_iff in H1 as [Ha Hb].
    rewrite H2, Ha, Hb, (IH H1' H2'). reflexivity. }
  inversion Hfields as [|? ? [Hm1 Hm2] Hf1]; subst.
  inversion Hf1 as [|? ? [Hd1 Hd2] Hf2]; subst.
  inversion Hf2 as [|? ? [Hy1 Hy2] _]; subst.
  pose proof (Hplain _ Hm1 Hm2) as Pm.
  pose proof (Hplain _ Hd1 Hd2) as Pd.
  pose proof (Hplain _ Hy1 Hy2) as Py.
  intros H. apply rbind_ok in H as (y' & Hy' & H). injection H as <-.
  assert (Py' : all_chars (fun c => plain c) y' = true
                /\ (String.length y' = 2%nat -> False)).
  { destruct (Nat.eqb_spec (String.length y) 2) as [Hl|Hl].
    - apply rbind_ok in Hy' as (k & _ & Hy'). injection Hy' as <-.
      destruct (k <? 50)%Z;
        (split; [rewrite all_chars_append, Py; reflexivity
                | rewrite length_sappend, Hl; cbn; lia]).
    - injection Hy' as <-. split; [exact Py | exact Hl]. }
  destruct Py' as [Py' Hlen'].
  set (M := Py.zfill 2 m). set (D := Py.zfill 2 d). set (Y := Py.zfill 4 y').
  assert (PM : all_chars (fun c => plain c) M = true)
    by (apply all_chars_zfill; [reflexivity | exact Pm]).
  assert (PD : all_chars (fun c => plain c) D = true)
    by (apply all_chars_zfill; [reflexivity | exact Pd]).
  assert (PY : all_chars (fun c => plain c) Y = true)
    by (apply all_chars_zfill; [reflexivity | exact Py']).
  destruct (plain_lacks _ PM) as (M1 & M2 & M3).
  destruct (plain_lacks _ PD) as (D1 & D2 & D3).
  destruct (plain_lacks _ PY) as (Y1 & Y2 & Y3).
  unfold FuzzyMatcher._normalize_dob.
  assert (Hrep : Py.replace "." "/" (Py.replace "-" "/" (M +:+ "/" +:+ D +:+ "/" +:+ Y))
                 = M +:+ "/" +:+ D +:+ "/" +:+ Y).
  { rewrite (replace_absent "-").
    - apply replace_absent. unfold lacks in *.
      rewrite !all_chars_append. cbn. rewrite M3, D3, Y3. reflexivity.
    - unfold lacks in *.
      rewrite !all_chars_append. cbn. rewrite M2, D2, Y2. reflexivity. }
  rewrite Hrep.
  change (M +:+ "/" +:+ D +:+ "/" +:+ Y)
    with (M +:+ String "/" (D +:+ String "/" Y)).
  rewrite (split_first_field "/" M _ M1), (split_first_field "/" D _ D1),
    (split_absent "/" Y Y1).
  pose proof (length_zfill 4 y') as L4. fold Y in L4.
  destruct (Nat.eqb_spec (String.length Y) 2) as [Hl|_]; [lia|].
  cbn [mbind result_bind rbind].
  rewrite (zfill_long 2 M) by apply length_zfill.
  rewrite (zfill_long 2 D) by apply length_zfill.
  rewrite (zfill_long 4 Y) by exact L4.
  reflexivity.
Qed.

(** X4.  The date score does not depend on the order of its arguments,
    also when it raises. *)
Theorem score_dob_symmetric (a b : string) :
  FuzzyMatcher.score_dob a b = FuzzyMatcher.score_dob b a.
Proof.
  unfold FuzzyMatcher.score_dob.
  destruct (FuzzyMatcher._normalize_dob a) as [na|[]],
           (FuzzyMatcher._normalize_dob b) as [nb|[]]; cbn; try reflexivity.
  rewrite String.eqb_sym. reflexivity.
Qed.

(** X5.  A date normal form is its own normal form, so a date that
    normalises scores 1.0 against its normal form and against itself. *)
Theorem normalize_dob_fixed_point (v n : string) :
  FuzzyMatcher._normalize_dob v = Ok n ->
  FuzzyMatcher._normalize_dob n = Ok n
  /\ FuzzyMatcher.score_dob v n = Ok 1%Q
  /\ FuzzyMatcher.score_dob v v = Ok 1%Q.
Proof.
  intros H. pose proof (normalize_dob_idempotent v n H) as Hn.
  split; [exact Hn|].
  unfold FuzzyMatcher.score_dob. rewrite H, Hn. cbn.
  rewrite String.eqb_refl. split; reflexivity.
Qed.

Lemma normalize_dob_fixed_point_witness :
  FuzzyMatcher._normalize_dob "01/02/1990" = Ok "01/02/1990"
  /\ FuzzyMatcher.score_dob "1-2-90" "01/02/1990" = Ok 1%Q
  /\ FuzzyMatcher.score_dob "1-2-90" "1-2-90" = Ok 1%Q.
Proof.
  apply (normalize_dob_fixed_point "1-2-90" "01/02/1990"). reflexivity.
Defined.

(** ** The name normal form *)

Lemma double_blank_cons (c : ascii) (t : string) :
  double_blank (String c t)
  = (Ascii.eqb c " " && starts_blank t) || double_blank t.
Proof. destruct t; cbn [double_blank starts_blank]; [|reflexivity].
       rewrite andb_false_r. reflexivity. Qed.

Lemma collapse_ws_cons (in_run : bool) (c : ascii) (s : string) :
  FuzzyMatcher.collapse_ws in_run (String c s)
  = if Py.isspace c
    then if in_run then FuzzyMatcher.collapse_ws true s
         else String " " (FuzzyMatcher.collapse_ws true s)
    else String c (FuzzyMatcher.collapse_ws false s).
Proof. reflexivity. Qed.

Lemma collapse_ws_shape (in_run : bool) (s : string) :
  all_chars (fun c => is_az09 c || Py.isspace c) s = true ->
  all_chars (fun c => is_az09 c || Ascii.eqb c " ")
            (FuzzyMatcher.collapse_ws in_run s) = true
  /\ double_blank (FuzzyMatcher.collapse_ws in_run s) = false
  /\ (in_run = true -> starts_blank (FuzzyMatcher.collapse_ws in_run s) = false).
Proof.
  revert in_run. induction s as [|c s IH]; intros in_run H.
  - repeat split.
  - cbn [all_chars] in H. apply andb_true_iff in H as [Hc Hs].
    rewrite collapse_ws_cons.
    destruct (Py.isspace c) eqn:Hsp.
    + destruct (IH true Hs) as (A & B & C). specialize (C eq_refl).
      destruct in_run.
      * split; [exact A|]. split; [exact B | intros _; exact C].
      * split; [cbn [all_chars]; rewrite A, orb_true_r; reflexivity|].
        split; [|discriminate].
        rewrite double_blank_cons, C, B, andb_false_r. reflexivity.
    + destruct (IH false Hs) as (A & B & _).
      rewrite orb_false_r in Hc.
      assert (Hnb : Ascii.eqb c " " = false).
      { destruct (Ascii.eqb_spec c " ") as [->|]; [|reflexivity].
        discriminate Hsp. }
      split; [cbn [all_chars]; rewrite Hc, A; reflexivity|].
      split; [rewrite double_blank_cons, Hnb, B; reflexivity|].
      intros _. exact Hnb.
Qed.

(** X6.  The name normal form holds only characters of [[a-z0-9]] and
    blanks, and never two blanks in a row: every run of white space of any
    kind has become one blank. *)
Theorem normalize_name_shape (v : string) :
  all_chars (fun c => is_az09 c || Ascii.eqb c " ")
            (FuzzyMatcher._normalize_name v) = true
  /\ double_blank (FuzzyMatcher._normalize_name v) = false.
Proof.
  unfold FuzzyMatcher._normalize_name.
  destruct (collapse_ws_shape false
              (Py.sfilter (fun c => Py.is_az c || Py.isdigit c || Py.isspace c)
                          (Py.lower (Py.strip v)))) as (A & B & _).
  - apply (all_chars_sfilter (fun c => is_az09 c || Py.isspace c)).
  - split; assumption.
Qed.

(** The name normal form is not always its own normal form: punctuation
    removed at an end can uncover a blank. *)
Example normalize_name_not_idempotent :
  FuzzyMatcher._normalize_name ", john" = " john"
  /\ FuzzyMatcher._normalize_name " john" = "john".
Proof. split; reflexivity. Qed.

(** ** Extractor: sanity checks *)

Example index_from_cursor : index_from "ab" "abcab" 1 = Some 3%nat.
Proof. reflexivity. Qed.

Example index_from_past_end : index_from "" "abc" 4 = None.
Proof. reflexivity. Qed.

Example py_index_negative : py_index [10%Z; 20%Z; 30%Z] (-1) = Some 30%Z.
Proof. reflexivity. Qed.

(** ** Extractor: the words of a match *)

Lemma strongly_sorted_snoc {A} (R : A -> A -> Prop) (l : list A) (x : A) :
  StronglySorted R l -> Forall (fun y => R y x) l -> StronglySorted R (l ++ [x]).
Proof.
  induction 1 as [|y l Hl IH Hy]; intros Hx; cbn.
  - repeat constructor.
  - inversion Hx as [|? ? Hyx Hlx]; subst.
    constructor; [apply IH, Hlx|].
    apply Forall_app. split; [exact Hy | repeat constructor; exact Hyx].
Qed.

Lemma map_word_indices (start end_ : nat) (full_text : string)
    (acc : list Z * nat) (k : nat) (w : OCRWord.t) :
  Forall (fun i => (0 <= i < Z.of_nat k)%Z) acc.1 ->
  StronglySorted Z.lt acc.1 ->
  Forall (fun i => (0 <= i < Z.of_nat (S k))%Z)
         (Extractor.map_word start end_ full_text acc (k, w)).1
  /\ StronglySorted Z.lt (Extractor.map_word start end_ full_text acc (k, w)).1.
Proof.
  destruct acc as [indices cursor]. cbn [fst]. intros Hall Hsorted.
  assert (Hweak : Forall (fun i => (0 <= i < Z.of_nat (S k))%Z) indices).
  { eapply Forall_impl; [exact Hall|]. cbn. intros i Hi. lia. }
  unfold Extractor.map_word.
  destruct (FuzzyMatcher.is_empty _); [split; assumption|].
  destruct (index_from _ _ _) as [word_start|]; [|split; assumption].
  destruct (_ || _); cbn [fst]; [split; assumption|].
  split.
  - apply Forall_app. split; [exact Hweak|]. repeat constructor; lia.
  - apply strongly_sorted_snoc; [exact Hsorted|].
    eapply Forall_impl; [exact Hall|]. cbn. intros i Hi. lia.
Qed.

Lemma foldl_map_word_indices (start end_ : nat) (full_text : string)
    (ws : list OCRWord.t) (k : nat) (acc : list Z * nat) :
  Forall (fun i => (0 <= i < Z.of_nat k)%Z) acc.1 ->
  StronglySorted Z.lt acc.1 ->
  let r := foldl (Extractor.map_word start end_ full_text) acc
                 (combine (seq k (length ws)) ws) in
  Forall (fun i => (0 <= i < Z.of_nat (k + length ws))%Z) r.1
  /\ StronglySorted Z.lt r.1.
Proof.
  revert k acc. induction ws as [|w ws IH]; intros k acc Hall Hsorted r; subst r.
  - cbn. rewrite Nat.add_0_r. split; assumption.
  - cbn [length seq combine foldl].
    destruct (map_word_indices start end_ full_text acc k w Hall Hsorted)
      as [Hall' Hsorted'].
    replace (k + S (length ws))%nat with (S k + length ws)%nat by lia.
    apply IH; assumption.
Qed.

Lemma map_to_words_valid (words : list OCRWord.t) (start end_ : nat)
    (full_text : string) :
  Forall (fun i => (0 <= i < Z.of_nat (length words))%Z)
         (Extractor._map_to_words words start end_ full_text)
  /\ StronglySorted Z.lt (Extractor._map_to_words words start end_ full_text).
Proof.
  unfold Extractor._map_to_words, enumerate.
  apply (foldl_map_word_indices start end_ full_text words 0 ([], 0%nat));
    constructor.
Qed.

(** X7.  The word indices attributed to a match are positions of the
    page's word list, in strictly increasing order; none is negative or
    repeated. *)
Theorem map_to_words_indices (words : list OCRWord.t) (start end_ : nat)
    (full_text : string) :
  Forall (fun i => (0 <= i < Z.of_nat (length words))%Z)
         (Extractor._map_to_words words start end_ full_text)
  /\ StronglySorted Z.lt (Extractor._map_to_words words start end_ full_text).
Proof. apply map_to_words_valid. Qed.

Lemma py_index_in_range {A} (l : list A) (i : Z) :
  (0 <= i < Z.of_nat (length l))%Z ->
  exists x, py_index l i = Some x /\ x ∈ l.
Proof.
  intros Hi. unfold py_index.
  destruct (Z.leb_spec 0 i) as [_|H]; [|lia].
  destruct (lookup_lt_is_Some_2 l (Z.to_nat i)) as [x Hx]; [lia|].
  exists x. split; [exact Hx|]. eapply list_elem_of_lookup_2. exact Hx.
Qed.

Lemma words_at_in_range (words : list OCRWord.t) (word_indices : list Z) :
  Forall (fun i => (0 <= i < Z.of_nat (length words))%Z) word_indices ->
  exists ws,
    Extractor.words_at words word_indices = Some ws
    /\ length ws = length word_indices
    /\ Forall (fun w => w ∈ words) ws.
Proof.
  induction 1 as [|i rest Hi _ (ws & IH & Hlen & Hin)]; cbn.
  - exists []. repeat split. constructor.
  - destruct (py_index_in_range words i Hi) as (w & -> & Hw). cbn.
    rewrite IH. cbn. exists (w :: ws). repeat split; [cbn; lia|].
    constructor; assumption.
Qed.

(** ** Extractor: the confidence of a candidate *)

Lemma inject_nat_succ (n : nat) :
  (inject_Z (Z.of_nat (S n)) == inject_Z (Z.of_nat n) + 1)%Q.
Proof. rewrite Nat2Z.inj_succ. unfold Z.succ. rewrite inject_Z_plus. reflexivity. Qed.

Lemma inject_nat_nonneg (n : nat) : (0 <= inject_Z (Z.of_nat n))%Q.
Proof.
  change 0%Q with (inject_Z 0). rewrite <- Zle_Qle. lia.
Qed.

Lemma foldl_Qplus_bounds (l : list Q) (a : Q) :
  Forall (fun q => (0 <= q <= 1)%Q) l ->
  (a <= foldl Qplus a l <= a + inject_Z (Z.of_nat (length l)))%Q.
Proof.
  intros H. revert a. induction H as [|x l [Hx0 Hx1] _ IH]; intros a.
  - cbn [foldl length]. change (inject_Z (Z.of_nat 0)) with 0%Q. split; lra.
  - cbn [foldl length]. destruct (IH (a + x)%Q) as [Hlo Hhi].
    pose proof (inject_nat_succ (length l)) as E.
    split; [lra|]. rewrite E. lra.
Qed.

Lemma average_bounds (l : list Q) :
  l <> [] -> Forall (fun q => (0 <= q <= 1)%Q) l ->
  (0 <= Extractor.sum_Q l / inject_Z (Z.of_nat (length l)) <= 1)%Q.
Proof.
  intros Hne H. unfold Extractor.sum_Q.
  destruct (foldl_Qplus_bounds l 0 H) as [Hlo Hhi].
  assert (Hpos : (0 < inject_Z (Z.of_nat (length l)))%Q).
  { change 0%Q with (inject_Z 0). rewrite <- Zlt_Qlt.
    destruct l; [congruence | cbn; lia]. }
  split.
  - apply Qle_shift_div_l; [exact Hpos | lra].
  - apply Qle_shift_div_r; [exact Hpos | lra].
Qed.

Lemma confidence_base (kind value : string) :
  let base := (6 # 10)%Q in
  let base := if String.eqb kind "name" then (base + (1 # 10))%Q else base in
  let base :=
    if String.eqb kind "mrn"
    then (base + Qmin (inject_Z (Z.of_nat (String.length value)) / 12) (2 # 10))%Q
    else base in
  let base := if String.eqb kind "dob" then (base + (1 # 10))%Q else base in
  (6 # 10 <= base <= 8 # 10)%Q.
Proof.
  assert (Hmin : (0 <= Qmin (inject_Z (Z.of_nat (String.length value)) / 12)
                            (2 # 10) <= 2 # 10)%Q).
  { destruct (Qmin_spec (inject_Z (Z.of_nat (String.length value)) / 12) (2 # 10))
      as (_ & Hle & [E|E]); rewrite E in *; [|split; lra].
    split; [|exact Hle].
    apply Qle_shift_div_l; [reflexivity|].
    pose proof (inject_nat_nonneg (String.length value)). lra. }
  destruct (String.eqb_spec kind "name") as [->|_];
    [cbn; split; lra|].
  destruct (String.eqb_spec kind "mrn") as [->|_];
    [cbn [String.eqb Ascii.eqb Bool.eqb]; cbv zeta; lra|].
  destruct (String.eqb kind "dob"); cbv zeta; split; lra.
Qed.

Lemma confidence_range (kind value : string) (word_indices : list Z)
    (words : list OCRWord.t) :
  Forall (fun i => (0 <= i < Z.of_nat (length words))%Z) word_indices ->
  confidences_in_range words ->
  exists c,
    Extractor._confidence kind value word_indices words = Some c
    /\ (6 # 10 <= c <= 1)%Q
    /\ (word_indices = [] -> (c <= 8 # 10)%Q).
Proof.
  intros Hidx Hconf. unfold Extractor._confidence.
  pose proof (confidence_base kind value) as Hbase. cbv zeta in Hbase.
  set (base := if String.eqb kind "dob" then _ else _) in *.
  destruct word_indices as [|i rest].
  - exists base. split; [reflexivity|]. split; [lra | intros _; lra].
  - destruct (words_at_in_range words (i :: rest) Hidx) as (ws & -> & Hlen & Hin).
    cbn [mbind option_bind]. eexists. split; [reflexivity|].
    split; [|discriminate].
    assert (Havg : (0 <= Extractor.sum_Q (OCRWord.confidence <$> ws)
                         / inject_Z (Z.of_nat (length (i :: rest))) <= 1)%Q).
    { rewrite <- Hlen, <- (length_fmap OCRWord.confidence ws).
      apply average_bounds.
      - destruct ws; [discriminate Hlen | discriminate].
      - apply Forall_fmap. eapply Forall_impl; [exact Hin|]. cbn.
        intros w Hw. unfold confidences_in_range in Hconf.
        rewrite Forall_forall in Hconf. apply Hconf, Hw. }
    set (avg := (Extractor.sum_Q _ / _)%Q) in *.
    destruct (Qmin_spec 1 (base + avg * (2 # 10))) as (H1 & _ & [E|E]);
      rewrite E; lra.
Qed.

(** X8.  For word indices within the word list and word confidences in
    [0, 1], [_confidence] returns a value between 0.6 and 1, at most 0.8
    when the match has no words: no candidate can fall below a minimum
    confidence of 0.6 or less, the default 0.5 included. *)
Theorem confidence_bounds (kind value : string) (word_indices : list Z)
    (words : list OCRWord.t) :
  Forall (fun i => (0 <= i < Z.of_nat (length words))%Z) word_indices ->
  confidences_in_range words ->
  exists c,
    Extractor._confidence kind value word_indices words = Some c
    /\ (6 # 10 <= c <= 1)%Q
    /\ (word_indices = [] -> (c <= 8 # 10)%Q).
Proof. apply confidence_range. Qed.

Lemma confidence_bounds_witness :
  let words := [{| OCRWord.text := "MRN"; OCRWord.bbox := (0, 0, 10, 10)%Z;
                   OCRWord.confidence := 9 # 10 |};
                {| OCRWord.text := "123456"; OCRWord.bbox := (10, 0, 10, 10)%Z;
                   OCRWord.confidence := 9 # 10 |}] in
  exists c,
    Extractor._confidence "mrn" "123456" [0%Z; 1%Z] words = Some c
    /\ (6 # 10 <= c <= 1)%Q.
Proof.
  intros words.
  destruct (confidence_bounds "mrn" "123456" [0%Z; 1%Z] words)
    as (c & Hc & Hb & _).
  - repeat constructor; cbn; lia.
  - repeat constructor; cbn; discriminate.
  - exists c. split; assumption.
Defined.

(** ** Extractor: deduplication *)

Lemma key_eqb_eq (a b : string * string) : Extractor.key_eqb a b = true <-> a = b.
Proof.
  destruct a as [a1 a2], b as [b1 b2]. unfold Extractor.key_eqb. cbn.
  rewrite andb_true_iff, !String.eqb_eq. split; [intros [-> ->] | intros [= -> ->]]; auto.
Qed.

Lemma key_eqb_refl (a : string * string) : Extractor.key_eqb a a = true.
Proof. apply key_eqb_eq. reflexivity. Qed.

Lemma unique_get_None unique key :
  Extractor.unique_get unique key = None <-> key ∉ unique.*1.
Proof.
  induction unique as [|[k v] rest IH]; cbn.
  - split; [intros _; apply not_elem_of_nil | reflexivity].
  - rewrite not_elem_of_cons.
    destruct (Extractor.key_eqb k key) eqn:E.
    + apply key_eqb_eq in E. split; [discriminate | intros [H _]; congruence].
    + rewrite IH. split; [intros H; split; [|exact H] | intros [_ H]; exact H].
      intros ->. rewrite key_eqb_refl in E. discriminate.
Qed.

Lemma unique_get_Some unique key v :
  Extractor.unique_get unique key = Some v -> (key, v) ∈ unique.
Proof.
  induction unique as [|[k w] rest IH]; cbn; [discriminate|].
  destruct (Extractor.key_eqb k key) eqn:E.
  - apply key_eqb_eq in E. intros [= ->]. subst. left.
  - intros H. right. apply IH, H.
Qed.

Lemma unique_get_app unique more key :
  Extractor.unique_get (unique ++ more) key
  = match Extractor.unique_get unique key with
    | Some v => Some v
    | None => Extractor.unique_get more key
    end.
Proof.
  induction unique as [|[k v] rest IH]; cbn; [reflexivity|].
  destruct (Extractor.key_eqb k key); [reflexivity | exact IH].
Qed.

Lemma unique_set_absent unique key c :
  Extractor.unique_get unique key = None ->
  Extractor.unique_set unique key c = unique ++ [(key, c)].
Proof.
  induction unique as [|[k v] rest IH]; cbn; [reflexivity|].
  destruct (Extractor.key_eqb k key); [discriminate|].
  intros H. rewrite (IH H). reflexivity.
Qed.

Lemma unique_set_keys unique key c :
  Extractor.unique_get unique key <> None ->
  (Extractor.unique_set unique key c).*1 = unique.*1.
Proof.
  induction unique as [|[k v] rest IH]; cbn; [congruence|].
  destruct (Extractor.key_eqb k key); [reflexivity|].
  intros H. cbn. rewrite (IH H). reflexivity.
Qed.

Lemma unique_set_elem unique key c k v :
  (k, v) ∈ Extractor.unique_set unique key c ->
  (k, v) ∈ unique \/ (k = key /\ v = c).
Proof.
  induction unique as [|[k' v'] rest IH]; cbn.
  - intros H. apply list_elem_of_singleton in H as [= -> ->]. auto.
  - destruct (Extractor.key_eqb k' key) eqn:E.
    + apply key_eqb_eq in E. subst.
      intros H. apply elem_of_cons in H as [[= -> ->]|H]; [auto|].
      left. right. exact H.
    + intros H. apply elem_of_cons in H as [[= -> ->]|H]; [left; left|].
      destruct (IH H) as [H'|H']; [left; right; exact H' | auto].
Qed.

Lemma unique_get_set unique key c key' :
  Extractor.unique_get (Extractor.unique_set unique key c) key'
  = if Extractor.key_eqb key key' then Some c
    else Extractor.unique_get unique key'.
Proof.
  induction unique as [|[k v] rest IH]; cbn.
  - destruct (Extractor.key_eqb key key'); reflexivity.
  - destruct (Extractor.key_eqb k key) eqn:E; cbn.
    + apply key_eqb_eq in E. subst.
      destruct (Extractor.key_eqb key key'); reflexivity.
    + destruct (Extractor.key_eqb k key') eqn:E'; [|exact IH].
      apply key_eqb_eq in E'. subst.
      destruct (Extractor.key_eqb key key') eqn:E''; [|reflexivity].
      apply key_eqb_eq in E''. subst. rewrite key_eqb_refl in E. discriminate.
Qed.

Lemma dedup_step_inv unique seen (c : MatchCandidate.t) :
  dedup_inv unique seen ->
  dedup_inv (Extractor.dedup_step unique c) (seen ++ [c]).
Proof.
  intros (Ha & Hb & Hc). unfold Extractor.dedup_step.
  fold (candidate_key c).
  destruct (Extractor.unique_get unique (candidate_key c)) as [e|] eqn:Hget.
  - destruct (Qltb (MatchCandidate.confidence e) (MatchCandidate.confidence c))
      eqn:Hlt.
    + apply Qltb_true in Hlt. split; [|split].
      * intros k v H. apply unique_set_elem in H as [H|[-> ->]].
        -- destruct (Ha _ _ H) as [Hk Hv]. split; [exact Hk|].
           apply elem_of_app. left. exact Hv.
        -- split; [reflexivity|]. apply elem_of_app. right. left.
      * rewrite unique_set_keys; [exact Hb | congruence].
      * intros c' Hc'. rewrite unique_get_set.
        destruct (Extractor.key_eqb (candidate_key c) (candidate_key c')) eqn:E.
        -- exists c. split; [reflexivity|].
           apply elem_of_app in Hc' as [Hc'|Hc'].
           ++ destruct (Hc _ Hc') as (v & Hv & Hle).
              apply key_eqb_eq in E. rewrite <- E, Hget in Hv.
              injection Hv as <-. lra.
           ++ apply list_elem_of_singleton in Hc' as ->. lra.
        -- apply elem_of_app in Hc' as [Hc'|Hc']; [apply Hc, Hc'|].
           apply list_elem_of_singleton in Hc' as ->.
           rewrite key_eqb_refl in E. discriminate.
    + apply (Qgtb_false (MatchCandidate.confidence c)) in Hlt.
      split; [|split; [exact Hb|]].
      * intros k v H. destruct (Ha _ _ H) as [Hk Hv]. split; [exact Hk|].
        apply elem_of_app. left. exact Hv.
      * intros c' Hc'. apply elem_of_app in Hc' as [Hc'|Hc']; [apply Hc, Hc'|].
        apply list_elem_of_singleton in Hc' as ->. exists e. split; assumption.
  - rewrite (unique_set_absent _ _ _ Hget). split; [|split].
    + intros k v H. apply elem_of_app in H as [H|H].
      * destruct (Ha _ _ H) as [Hk Hv]. split; [exact Hk|].
        apply elem_of_app. left. exact Hv.
      * apply list_elem_of_singleton in H as [= -> ->].
        split; [reflexivity|]. apply elem_of_app. right. left.
    + rewrite fmap_app. cbn. apply NoDup_app. split; [exact Hb|].
      split; [|apply NoDup_singleton].
      intros k Hk Hk'. apply list_elem_of_singleton in Hk' as ->.
      apply unique_get_None in Hget. contradiction.
    + intros c' Hc'. rewrite unique_get_app.
      apply elem_of_app in Hc' as [Hc'|Hc'].
      * destruct (Hc _ Hc') as (v & -> & Hle). eauto.
      * apply list_elem_of_singleton in Hc' as ->. rewrite Hget. cbn.
        rewrite key_eqb_refl. exists c. split; [reflexivity | lra].
Qed.

Lemma foldl_dedup_inv (l : list MatchCandidate.t) unique seen :
  dedup_inv unique seen ->
  dedup_inv (foldl Extractor.dedup_step unique l) (seen ++ l).
Proof.
  revert unique seen. induction l as [|c l IH]; intros unique seen H.
  - rewrite app_nil_r. exact H.
  - cbn [foldl]. replace (seen ++ c :: l) with ((seen ++ [c]) ++ l)
      by (rewrite <- app_assoc; reflexivity).
    apply IH, dedup_step_inv, H.
Qed.

Lemma deduplicate_facts (candidates : list MatchCandidate.t) :
  let out := Extractor._deduplicate candidates in
  NoDup (candidate_key <$> out)
  /\ (forall o, o ∈ out -> o ∈ candidates)
  /\ (forall c, c ∈ candidates ->
        exists o, o ∈ out /\ candidate_key o = candidate_key c
                  /\ (MatchCandidate.confidence c
                      <= MatchCandidate.confidence o)%Q).
Proof.
  intros out. subst out. unfold Extractor._deduplicate.
  destruct (foldl_dedup_inv candidates [] []) as (Ha & Hb & Hc).
  { split; [intros k v H; apply elem_of_nil in H as []|].
    split; [constructor | intros c H; apply elem_of_nil in H as []]. }
  cbn [app] in *.
  set (unique := foldl Extractor.dedup_step [] candidates) in *.
  split; [|split].
  - replace (candidate_key <$> unique.*2) with unique.*1; [exact Hb|].
    clear Hb Hc. induction unique as [|[k v] rest IH]; [reflexivity|].
    cbn. rewrite (proj1 (Ha k v (list_elem_of_here _ _))). f_equal.
    apply IH. intros k' v' H. apply Ha. right. exact H.
  - intros o Ho. apply list_elem_of_fmap in Ho as ([k v] & -> & Hin).
    apply (Ha _ _ Hin).
  - intros c Hin. destruct (Hc _ Hin) as (v & Hget & Hle).
    apply unique_get_Some in Hget. exists v.
    split; [apply list_elem_of_fmap; exists (candidate_key c, v); auto|].
    split; [symmetry; apply (Ha _ _ Hget) | exact Hle].
Qed.

(** X9.  [_deduplicate] returns candidates of its input, no two of them
    with the same kind and value, and for every input candidate one of
    the same kind and value whose confidence is at least as high. *)
Theorem deduplicate_spec (candidates : list MatchCandidate.t) :
  let out := Extractor._deduplicate candidates in
  NoDup (candidate_key <$> out)
  /\ (forall o, o ∈ out -> o ∈ candidates)
  /\ (forall c, c ∈ candidates ->
        exists o, o ∈ out /\ candidate_key o = candidate_key c
                  /\ (MatchCandidate.confidence c
                      <= MatchCandidate.confidence o)%Q).
Proof. exact (deduplicate_facts candidates). Qed.

(** ** Extractor: the box of a candidate *)

Lemma min_Z_spec (rest : list Z) (first : Z) :
  (Extractor.min_Z first rest <= first)%Z
  /\ Forall (fun x => (Extractor.min_Z first rest <= x)%Z) rest.
Proof.
  unfold Extractor.min_Z. revert first.
  induction rest as [|x rest IH]; intros first; cbn [foldl].
  - split; [lia | constructor].
  - destruct (IH (Z.min first x)) as [H1 H2].
    split; [lia|]. constructor; [lia | exact H2].
Qed.

Lemma max_Z_spec (rest : list Z) (first : Z) :
  (first <= Extractor.max_Z first rest)%Z
  /\ Forall (fun x => (x <= Extractor.max_Z first rest)%Z) rest.
Proof.
  unfold Extractor.max_Z. revert first.
  induction rest as [|x rest IH]; intros first; cbn [foldl].
  - split; [lia | constructor].
  - destruct (IH (Z.max first x)) as [H1 H2].
    split; [lia|]. constructor; [lia | exact H2].
Qed.

(** X10.  The box computed for a candidate contains the box of each of
    its words; without words it is [(0, 0, 0, 0)]. *)
Theorem aggregate_bbox_contains (words : list OCRWord.t) (kind : string) :
  Forall (fun w => box_inside (OCRWord.bbox w)
                              (Extractor._aggregate_bbox words kind)) words
  /\ Extractor._aggregate_bbox [] kind = (0, 0, 0, 0)%Z.
Proof.
  split; [|reflexivity].
  destruct words as [|w0 rest]; [constructor|].
  unfold Extractor._aggregate_bbox. cbn [fmap list_fmap].
  set (fx := fun w : OCRWord.t => (OCRWord.bbox w).1.1.1).
  set (fy := fun w : OCRWord.t => (OCRWord.bbox w).1.1.2).
  set (fxe := fun w : OCRWord.t => ((OCRWord.bbox w).1.1.1 + (OCRWord.bbox w).1.2)%Z).
  set (fye := fun w : OCRWord.t => ((OCRWord.bbox w).1.1.2 + (OCRWord.bbox w).2)%Z).
  destruct (min_Z_spec (fx <$> rest) (fx w0)) as [X0 X].
  destruct (min_Z_spec (fy <$> rest) (fy w0)) as [Y0 Y].
  destruct (max_Z_spec (fxe <$> rest) (fxe w0)) as [XE0 XE].
  destruct (max_Z_spec (fye <$> rest) (fye w0)) as [YE0 YE].
  rewrite Forall_fmap in X, Y, XE, YE.
  assert (Hall : Forall (fun w =>
            (Extractor.min_Z (fx w0) (fx <$> rest) <= fx w
             /\ Extractor.min_Z (fy w0) (fy <$> rest) <= fy w
             /\ fxe w <= Extractor.max_Z (fxe w0) (fxe <$> rest)
             /\ fye w <= Extractor.max_Z (fye w0) (fye <$> rest))%Z)
          (w0 :: rest)).
  { constructor; [auto|].
    apply Forall_forall. intros w Hw.
    rewrite Forall_forall in X, Y, XE, YE.
    repeat split; [apply X | apply Y | apply XE | apply YE]; exact Hw. }
  eapply Forall_impl; [exact Hall|]. cbn beta.
  intros w (H1 & H2 & H3 & H4). unfold box_inside.
  subst fx fy fxe fye. cbn beta in *.
  destruct (OCRWord.bbox w) as [[[x y] ww] h]. cbn [fst snd] in *. lia.
Qed.

(** ** Extractor: values *)

Lemma sexists_lacks (c : ascii) (s : string) :
  Py.sexists (Ascii.eqb c) s = negb (lacks c s).
Proof.
  unfold lacks. induction s as [|x s IH]; cbn; [reflexivity|].
  rewrite IH, negb_andb, negb_involutive, (Ascii.eqb_sym c x). reflexivity.
Qed.

Lemma split_head (sep : ascii) (s : string) :
  lacks sep (hd EmptyString (Py.split sep s)) = true
  /\ exists rest, s = hd EmptyString (Py.split sep s) +:+ rest.
Proof.
  induction s as [|c s (IHl & rest & IHp)].
  - split; [reflexivity | exists EmptyString; reflexivity].
  - rewrite split_cons. destruct (Ascii.eqb c sep) eqn:E.
    + split; [reflexivity | exists (String c s); reflexivity].
    + pose proof (split_nonempty sep s) as Hne.
      destruct (Py.split sep s) as [|w ws]; [congruence|]. cbn [hd] in *.
      split.
      * unfold lacks in *. cbn [all_chars]. rewrite E, IHl. reflexivity.
      * exists rest. rewrite sappend_cons, <- IHp. reflexivity.
Qed.

(** X11.  [_truncate_value] returns a prefix of its argument that holds
    no line feed, and no carriage return either unless the argument
    holds a line feed: the cut is made at the first line feed, whatever
    precedes it. *)
Theorem truncate_value_line (value : string) :
  let r := EntityExtractor._truncate_value value in
  (exists rest, value = r +:+ rest)
  /\ lacks "010" r = true
  /\ (lacks "013" r || negb (lacks "010" value)) = true.
Proof.
  intros r. subst r. unfold EntityExtractor._truncate_value.
  rewrite !sexists_lacks.
  destruct (lacks "010" value) eqn:Hlf; cbn [negb].
  - destruct (lacks "013" value) eqn:Hcr; cbn [negb].
    + split; [exists EmptyString|]; [|split; [exact Hlf | rewrite Hcr; reflexivity]].
      clear. induction value as [|c v IH]; [reflexivity|].
      rewrite sappend_cons, <- IH. reflexivity.
    + destruct (split_head "013" value) as [Hl Hp].
      split; [exact Hp|]. split; [|rewrite Hl; reflexivity].
      destruct Hp as (rest & Hp). rewrite Hp in Hlf. unfold lacks in Hlf.
      rewrite all_chars_append in Hlf. apply andb_true_iff in Hlf as [H _]. exact H.
  - destruct (split_head "010" value) as [Hl Hp].
    split; [exact Hp|]. split; [exact Hl | apply orb_true_r].
Qed.

Example truncate_keeps_carriage_return :
  EntityExtractor._truncate_value (String "a" (String "013" (String "010" "b")))
  = String "a" (String "013" EmptyString).
Proof. reflexivity. Qed.








(** ** Rounding *)

Lemma round3_bounds (x : Q) (k : Z) :
  ((k # 1000 <= x)%Q -> (k # 1000 <= round3 x)%Q)
  /\ ((x <= k # 1000)%Q -> (round3 x <= k # 1000)%Q).
Proof.
  destruct x as [n0 d0]. unfold round3, Qle. cbn [Qnum Qden].
  set (n := (n0 * 1000)%Z). set (d := Z.pos d0).
  assert (Hd : (0 < d)%Z) by (subst d; lia).
  pose proof (Z.div_mod n d ltac:(lia)) as Hdm.
  pose proof (Z.mod_pos_bound n d Hd) as Hm.
  set (q := (n / d)%Z) in *. set (m := (n mod d)%Z) in *.
  split; intros H.
  - assert (Hk : (k <= q)%Z) by nia.
    destruct (d <? 2 * m)%Z; [lia|].
    destruct (2 * m =? d)%Z; [destruct (Z.odd q)|]; lia.
  - destruct (Z.ltb_spec d (2 * m)) as [Hup|Hno].
    + assert (q < k)%Z by nia. lia.
    + destruct (Z.eqb_spec (2 * m) d) as [He|_]; [|nia].
      destruct (Z.odd q); [|nia].
      assert (q < k)%Z by nia. lia.
Qed.

(** ** Extractor: a whole page *)

Lemma ofold_inv {A S} (P : S -> Prop) (body : S -> A -> option S) :
  (forall s x s', P s -> body s x = Some s' -> P s') ->
  forall l s s', P s -> Extractor.ofold body l s = Some s' -> P s'.
Proof.
  intros Hstep l. induction l as [|x l IH]; intros s s' Hs H; cbn in H.
  - congruence.
  - destruct (body s x) as [s1|] eqn:E; cbn in H; [|discriminate]. eauto.
Qed.

Lemma ofold_returns {A S} (P : S -> Prop) (body : S -> A -> option S) :
  (forall s x, P s -> exists s', body s x = Some s' /\ P s') ->
  forall l s, P s -> exists s', Extractor.ofold body l s = Some s' /\ P s'.
Proof.
  intros Hstep l. induction l as [|x l IH]; intros s Hs; cbn; [eauto|].
  destruct (Hstep s x Hs) as (s1 & -> & Hs1). cbn. apply IH, Hs1.
Qed.

Lemma omap_returns {A B} (P : A -> Prop) (f : A -> option B) (l : list A) :
  (forall x, P x -> exists y, f x = Some y) -> Forall P l ->
  exists r, Extractor.omap f l = Some r.
Proof.
  intros Hf H. induction H as [|x l Hx _ (r & IH)]; cbn; [eauto|].
  destruct (Hf x Hx) as (y & ->). cbn. rewrite IH. cbn. eauto.
Qed.

Lemma omap_Forall2 {A B} (f : A -> option B) (l : list A) (r : list B) :
  Extractor.omap f l = Some r -> Forall2 (fun x y => f x = Some y) l r.
Proof.
  revert r. induction l as [|x l IH]; intros r H; cbn in H.
  - injection H as <-. constructor.
  - destruct (f x) as [y|] eqn:E; cbn in H; [|discriminate].
    destruct (Extractor.omap f l) as [ys|]; cbn in H; [|discriminate].
    injection H as <-. constructor; [exact E | apply IH; reflexivity].
Qed.

Section ExtractPage.
Context (entity_min_confidence : Q).
Context (finditer : string -> string -> list RegexMatch.t).

Abbreviation match_step := (Extractor.match_step entity_min_confidence).
Abbreviation _match_pattern :=
  (Extractor._match_pattern entity_min_confidence finditer).
Abbreviation extract_page :=
  (Extractor.extract_page entity_min_confidence finditer).

(** One match leaves the candidates as they are or appends the candidate
    made from its group. *)
Lemma match_step_cases kind ocr candidates m :
  exists r,
    match_step kind ocr candidates m = Some r
    /\ (r = candidates
        \/ exists c, r = candidates ++ [c]
                     /\ candidate_of (OCRResult.words ocr) kind c
                     /\ Qltb (MatchCandidate.confidence c) entity_min_confidence
                        = false
                     /\ exists g,
                          Extractor.group_of (RegexMatch.groupdict m) kind
                            (RegexMatch.group0 m) = Some g
                          /\ MatchCandidate.value c
                             = EntityExtractor._normalize_value kind
                                 (EntityExtractor._truncate_value g)).
Proof.
  unfold Extractor.match_step.
  destruct (Extractor.group_of _ _ _) as [g|]; [|eauto].
  destruct (FuzzyMatcher.is_empty g); [eauto|].
  set (value := EntityExtractor._normalize_value kind _).
  set (indices := Extractor._map_to_words _ _ _ _).
  destruct (map_to_words_valid (OCRResult.words ocr) (RegexMatch.start m)
              (RegexMatch.start m
               + String.length (EntityExtractor._truncate_value g))
              (OCRResult.text ocr)) as [Hvalid _].
  fold indices in Hvalid.
  assert (Hc : exists c, Extractor._confidence kind value indices
                           (OCRResult.words ocr) = Some c).
  { unfold Extractor._confidence.
    destruct indices as [|i rest]; [eauto|].
    destruct (words_at_in_range _ _ Hvalid) as (ws & -> & _). cbn. eauto. }
  destruct Hc as (c & Hc). rewrite Hc. cbn [mbind option_bind].
  destruct (Qltb c entity_min_confidence) eqn:Hlow; [eauto|].
  eexists. split; [reflexivity|]. right. eexists. split; [reflexivity|].
  split; [repeat split; cbn; assumption|].
  split; [exact Hlow|]. exists g. split; reflexivity.
Qed.

Lemma match_pattern_returns kind ocr :
  exists r,
    _match_pattern kind ocr = Some r
    /\ Forall (candidate_of (OCRResult.words ocr) kind) r.
Proof.
  unfold Extractor._match_pattern.
  apply (ofold_returns (Forall (candidate_of (OCRResult.words ocr) kind)));
    [|constructor].
  intros cands m Hc.
  destruct (match_step_cases kind ocr cands m) as (r & Hr & [->|(c & -> & Hgood & _)]).
  - eauto.
  - exists (cands ++ [c]). split; [exact Hr|].
    apply Forall_app. split; [exact Hc | constructor; [exact Hgood | constructor]].
Qed.

Lemma build_identifier_returns ocr kind c :
  candidate_of (OCRResult.words ocr) kind c ->
  exists i,
    Extractor._build_identifier ocr c = Some i
    /\ identifier_key i = candidate_key c
    /\ IdentifierMatch.confidence i = round3 (MatchCandidate.confidence c)
    /\ IdentifierMatch.word_indices i = MatchCandidate.word_indices c.
Proof.
  intros (_ & Hvalid & _). unfold Extractor._build_identifier.
  destruct (words_at_in_range _ _ Hvalid) as (ws & -> & _). cbn.
  eexists. split; [reflexivity|]. repeat split.
Qed.

Lemma collect_matches_returns ocr :
  exists names mrns dobs phones,
    _match_pattern "name" ocr = Some names
    /\ _match_pattern "mrn" ocr = Some mrns
    /\ _match_pattern "dob" ocr = Some dobs
    /\ _match_pattern "phone" ocr = Some phones
    /\ Extractor._collect_matches entity_min_confidence finditer ocr
       = Some (Extractor._deduplicate (names ++ mrns ++ dobs ++ phones))
    /\ Forall (fun c => exists kind,
                 kind ∈ four_kinds
                 /\ candidate_of (OCRResult.words ocr) kind c)
              (names ++ mrns ++ dobs ++ phones).
Proof.
  destruct (match_pattern_returns "name" ocr) as (names & H1 & G1).
  destruct (match_pattern_returns "mrn" ocr) as (mrns & H2 & G2).
  destruct (match_pattern_returns "dob" ocr) as (dobs & H3 & G3).
  destruct (match_pattern_returns "phone" ocr) as (phones & H4 & G4).
  exists names, mrns, dobs, phones. repeat (split; [assumption|]).
  split.
  - unfold Extractor._collect_matches. rewrite H1, H2, H3, H4. reflexivity.
  - assert (Hk : forall kind l, kind ∈ four_kinds ->
               Forall (candidate_of (OCRResult.words ocr) kind) l ->
               Forall (fun c => exists kind,
                         kind ∈ four_kinds
                         /\ candidate_of (OCRResult.words ocr) kind c) l).
    { intros kind l Hin Hl. eapply Forall_impl; [exact Hl|]. cbn. eauto. }
    unfold four_kinds in Hk.
    repeat (apply Forall_app; split);
      [apply (Hk "name") | apply (Hk "mrn") | apply (Hk "dob")
       | apply (Hk "phone")]; try assumption; set_solver.
Qed.

Lemma build_identifiers_related ocr matches ids :
  Forall (fun c => exists kind,
            kind ∈ four_kinds /\ candidate_of (OCRResult.words ocr) kind c)
         matches ->
  Extractor.omap (Extractor._build_identifier ocr) matches = Some ids ->
  Forall2 (fun c i =>
             identifier_key i = candidate_key c
             /\ IdentifierMatch.confidence i = round3 (MatchCandidate.confidence c)
             /\ IdentifierMatch.kind i ∈ four_kinds
             /\ Forall (fun j =>
                          (0 <= j < Z.of_nat (length (OCRResult.words ocr)))%Z)
                       (IdentifierMatch.word_indices i))
          matches ids.
Proof.
  intros Hmatches Hids. apply omap_Forall2 in Hids.
  induction Hids as [|c i cs is_ Hci _ IH]; [constructor|].
  inversion Hmatches as [|? ? (kind & Hkind & Hc) Hrest]; subst.
  constructor; [|apply IH, Hrest].
  destruct (build_identifier_returns ocr kind c Hc)
    as (i' & Hi' & Hkey & Hconf & Hw).
  rewrite Hci in Hi'. injection Hi' as <-.
  split; [exact Hkey|]. split; [exact Hconf|].
  destruct Hc as (Hk & Hvalid & _).
  split; [|rewrite Hw; exact Hvalid].
  unfold identifier_key, candidate_key in Hkey. injection Hkey as -> _.
  rewrite Hk. exact Hkind.
Qed.

(** X13.  [extract_page] returns for every page and every list of regex
    matches: no word lookup leaves the word list.  The page keeps its
    index; its identifiers are of the four kinds, carry word indices that
    are positions of the page's words, and no two share kind and value. *)
Theorem extract_page_returns (ocr : OCRResult.t) :
  exists page,
    extract_page ocr = Some page
    /\ PageEntities.page_index page = OCRResult.page_index ocr
    /\ NoDup (identifier_key <$> PageEntities.identifiers page)
    /\ Forall (fun i =>
                 IdentifierMatch.kind i ∈ four_kinds
                 /\ Forall (fun j =>
                              (0 <= j < Z.of_nat (length (OCRResult.words ocr)))%Z)
                           (IdentifierMatch.word_indices i))
              (PageEntities.identifiers page).
Proof.
  destruct (collect_matches_returns ocr)
    as (names & mrns & dobs & phones & _ & _ & _ & _ & Hcollect & Hgood).
  set (all := names ++ mrns ++ dobs ++ phones) in *.
  destruct (deduplicate_facts all) as (Hnodup & Hsub & _).
  set (matches := Extractor._deduplicate all) in *.
  assert (Hmatches : Forall (fun c => exists kind,
                               kind ∈ four_kinds
                               /\ candidate_of (OCRResult.words ocr) kind c)
                            matches).
  { apply Forall_forall. intros c Hc. rewrite Forall_forall in Hgood.
    apply Hgood, Hsub, Hc. }
  destruct (omap_returns _ (Extractor._build_identifier ocr) matches
              (fun c '(ex_intro _ kind (conj _ Hc)) =>
                 match build_identifier_returns ocr kind c Hc with
                 | ex_intro _ i (conj Hi _) => ex_intro _ i Hi
                 end) Hmatches) as (ids & Hids).
  unfold Extractor.extract_page. rewrite Hcollect. cbn [mbind option_bind].
  fold matches. rewrite Hids. cbn [mbind option_bind].
  eexists. split; [reflexivity|]. cbn [PageEntities.page_index PageEntities.identifiers].
  split; [reflexivity|].
  pose proof (build_identifiers_related ocr matches ids Hmatches Hids) as Hrel.
  split.
  - replace (identifier_key <$> ids) with (candidate_key <$> matches);
      [exact Hnodup|].
    clear -Hrel. induction Hrel as [|c i cs is_ (Hkey & _) _ IH]; [reflexivity|].
    cbn. rewrite Hkey, IH. reflexivity.
  - clear -Hrel.
    induction Hrel as [|c i cs is_ (_ & _ & H) _ IH]; constructor; assumption.
Qed.
End ExtractPage.

Section ExtractPageKeeps.
Context (entity_min_confidence : Q).
Context (finditer : string -> string -> list RegexMatch.t).

Lemma match_step_keeps kind ocr candidates m g :
  confidences_in_range (OCRResult.words ocr) ->
  (entity_min_confidence <= 6 # 10)%Q ->
  Extractor.group_of (RegexMatch.groupdict m) kind (RegexMatch.group0 m)
    = Some g ->
  g <> EmptyString ->
  exists c,
    Extractor.match_step entity_min_confidence kind ocr candidates m
      = Some (candidates ++ [c])
    /\ MatchCandidate.kind c = kind
    /\ MatchCandidate.value c
       = EntityExtractor._normalize_value kind
           (EntityExtractor._truncate_value g).
Proof.
  intros Hrange Hmin Hg Hne. unfold Extractor.match_step. rewrite Hg.
  destruct g as [|a g']; [congruence|]. cbn [FuzzyMatcher.is_empty].
  set (g := String a g') in *.
  set (value := EntityExtractor._normalize_value kind _).
  set (indices := Extractor._map_to_words _ _ _ _).
  destruct (map_to_words_valid (OCRResult.words ocr) (RegexMatch.start m)
              (RegexMatch.start m
               + String.length (EntityExtractor._truncate_value g))
              (OCRResult.text ocr)) as [Hvalid _].
  fold indices in Hvalid.
  destruct (confidence_range kind value indices (OCRResult.words ocr)
              Hvalid Hrange) as (c & -> & [Hlo _] & _).
  cbn [mbind option_bind].
  assert (Hkeep : Qltb c entity_min_confidence = false).
  { apply (Qgtb_false entity_min_confidence c). lra. }
  rewrite Hkeep. eexists. split; [reflexivity|]. split; reflexivity.
Qed.

Lemma match_pattern_keeps kind ocr (l : list RegexMatch.t) acc r :
  confidences_in_range (OCRResult.words ocr) ->
  (entity_min_confidence <= 6 # 10)%Q ->
  Extractor.ofold (Extractor.match_step entity_min_confidence kind ocr) l acc
    = Some r ->
  (forall c, c ∈ acc -> c ∈ r)
  /\ forall m g,
       m ∈ l ->
       Extractor.group_of (RegexMatch.groupdict m) kind (RegexMatch.group0 m)
         = Some g ->
       g <> EmptyString ->
       exists c, c ∈ r /\ MatchCandidate.kind c = kind
                 /\ MatchCandidate.value c
                    = EntityExtractor._normalize_value kind
                        (EntityExtractor._truncate_value g).
Proof.
  intros Hrange Hmin. revert acc.
  induction l as [|m0 l IH]; intros acc H; cbn in H.
  - injection H as <-. split; [auto|]. intros m g Hm. apply elem_of_nil in Hm as [].
  - destruct (Extractor.match_step _ kind ocr acc m0) as [acc1|] eqn:Hstep;
      cbn in H; [|discriminate].
    destruct (IH _ H) as [Hsub Hall].
    assert (Hacc : forall c, c ∈ acc -> c ∈ acc1).
    { destruct (match_step_cases entity_min_confidence kind ocr acc m0)
        as (r' & Hr' & Hcase).
      rewrite Hstep in Hr'. injection Hr' as <-.
      destruct Hcase as [->|(c & -> & _)]; [auto|].
      intros c' Hc'. apply elem_of_app. left. exact Hc'. }
    split; [intros c Hc; apply Hsub, Hacc, Hc|].
    intros m g Hm Hg Hne. apply elem_of_cons in Hm as [->|Hm].
    + destruct (match_step_keeps kind ocr acc m0 g Hrange Hmin Hg Hne)
        as (c & Hc & Hk & Hv).
      rewrite Hstep in Hc. injection Hc as ->.
      exists c. split; [|split; assumption].
      apply Hsub, elem_of_app. right. left.
    + apply (Hall m g Hm Hg Hne).
Qed.

(** X14.  With word confidences in [0, 1] and a minimum confidence of
    0.6 or less (0.5 by default), no match is lost to the confidence
    filter: every match whose group is not empty has an identifier on the
    page with its kind and its truncated, normalised value; and every
    identifier of the page has a confidence between 0.6 and 1. *)
Theorem extract_page_keeps_matches (ocr : OCRResult.t) (page : PageEntities.t) :
  confidences_in_range (OCRResult.words ocr) ->
  (entity_min_confidence <= 6 # 10)%Q ->
  Extractor.extract_page entity_min_confidence finditer ocr = Some page ->
  Forall (fun i => (6 # 10 <= IdentifierMatch.confidence i <= 1)%Q)
         (PageEntities.identifiers page)
  /\ forall kind m g,
       kind ∈ four_kinds ->
       m ∈ finditer kind (OCRResult.text ocr) ->
       Extractor.group_of (RegexMatch.groupdict m) kind (RegexMatch.group0 m)
         = Some g ->
       g <> EmptyString ->
       exists i,
         i ∈ PageEntities.identifiers page
         /\ IdentifierMatch.kind i = kind
         /\ IdentifierMatch.value i
            = EntityExtractor._normalize_value kind
                (EntityExtractor._truncate_value g).
Proof.
  intros Hrange Hmin Hpage.
  destruct (collect_matches_returns entity_min_confidence finditer ocr)
    as (names & mrns & dobs & phones & H1 & H2 & H3 & H4 & Hcollect & Hgood).
  set (all := names ++ mrns ++ dobs ++ phones) in *.
  destruct (deduplicate_facts all) as (_ & Hsub & Hrep).
  set (matches := Extractor._deduplicate all) in *.
  assert (Hmatches : Forall (fun c => exists kind,
                               kind ∈ four_kinds
                               /\ candidate_of (OCRResult.words ocr) kind c)
                            matches).
  { apply Forall_forall. intros c Hc. rewrite Forall_forall in Hgood.
    apply Hgood, Hsub, Hc. }
  unfold Extractor.extract_page in Hpage. rewrite Hcollect in Hpage.
  cbn [mbind option_bind] in Hpage. fold matches in Hpage.
  destruct (Extractor.omap (Extractor._build_identifier ocr) matches)
    as [ids|] eqn:Hids; cbn in Hpage; [|discriminate].
  injection Hpage as <-. cbn [PageEntities.identifiers].
  pose proof (build_identifiers_related ocr matches ids Hmatches Hids) as Hrel.
  split.
  - clear -Hrel Hmatches Hrange.
    induction Hrel as [|c i cs is_ (_ & Hconf & _) _ IH]; [constructor|].
    inversion Hmatches as [|? ? (kind & _ & (_ & Hvalid & Hc)) Hrest]; subst.
    constructor; [|apply IH, Hrest].
    destruct (confidence_range kind (MatchCandidate.value c)
                (MatchCandidate.word_indices c) (OCRResult.words ocr)
                Hvalid Hrange) as (c' & Hc' & [Hlo Hhi] & _).
    rewrite Hc in Hc'. injection Hc' as <-. rewrite Hconf.
    destruct (round3_bounds (MatchCandidate.confidence c) 600) as [L _].
    destruct (round3_bounds (MatchCandidate.confidence c) 1000) as [_ U].
    assert (E6 : (600 # 1000 == 6 # 10)%Q) by reflexivity.
    assert (E1 : (1000 # 1000 == 1)%Q) by reflexivity.
    split; [rewrite <- E6; apply L; rewrite E6; exact Hlo
           | rewrite <- E1; apply U; rewrite E1; exact Hhi].
  - intros kind m g Hkind Hm Hg Hne.
    assert (Hcand : exists c, c ∈ all /\ MatchCandidate.kind c = kind
                              /\ MatchCandidate.value c
                                 = EntityExtractor._normalize_value kind
                                     (EntityExtractor._truncate_value g)).
    { assert (Hpat : forall r,
                 Extractor._match_pattern entity_min_confidence finditer kind ocr
                   = Some r ->
                 exists c, c ∈ r /\ MatchCandidate.kind c = kind
                           /\ MatchCandidate.value c
                              = EntityExtractor._normalize_value kind
                                  (EntityExtractor._truncate_value g)).
      { intros r Hr. unfold Extractor._match_pattern in Hr.
        destruct (match_pattern_keeps kind ocr _ [] r Hrange Hmin Hr) as [_ Hall].
        apply (Hall m g Hm Hg Hne). }
      assert (Hfour : kind = "name" \/ kind = "mrn" \/ kind = "dob"
                      \/ kind = "phone").
      { unfold four_kinds in Hkind.
        repeat (apply elem_of_cons in Hkind as [Hkind|Hkind]; [tauto|]).
        apply elem_of_nil in Hkind as []. }
      subst all.
      destruct Hfour as [Hk|[Hk|[Hk|Hk]]]; subst kind.
      - destruct (Hpat _ H1) as (c & Hc & Hfacts). exists c.
        split; [|exact Hfacts]. rewrite !elem_of_app. tauto.
      - destruct (Hpat _ H2) as (c & Hc & Hfacts). exists c.
        split; [|exact Hfacts]. rewrite !elem_of_app. tauto.
      - destruct (Hpat _ H3) as (c & Hc & Hfacts). exists c.
        split; [|exact Hfacts]. rewrite !elem_of_app. tauto.
      - destruct (Hpat _ H4) as (c & Hc & Hfacts). exists c.
        split; [|exact Hfacts]. rewrite !elem_of_app. tauto. }
    destruct Hcand as (c & Hc & Hk & Hv).
    destruct (Hrep c Hc) as (o & Ho & Hkey & _).
    assert (Hid : exists i, i ∈ ids /\ identifier_key i = candidate_key o).
    { clear -Hrel Ho. induction Hrel as [|c' i cs is_ (Hkey & _) _ IH].
      - apply elem_of_nil in Ho as [].
      - apply elem_of_cons in Ho as [->|Ho].
        + exists i. split; [left | exact Hkey].
        + destruct (IH Ho) as (i' & Hi' & Hk'). exists i'.
          split; [right; exact Hi' | exact Hk']. }
    destruct Hid as (i & Hi & Hik). exists i. split; [exact Hi|].
    rewrite Hkey in Hik. unfold identifier_key, candidate_key in Hik.
    injection Hik as -> ->. split; assumption.
Qed.
End ExtractPageKeeps.

(** A page reading "MRN: 123456" with its two words, the one match the
    default MRN pattern finds on it, and the default minimum confidence. *)
Lemma extract_page_keeps_matches_witness :
  let words := [{| OCRWord.text := "MRN:"; OCRWord.bbox := (0, 0, 10, 10)%Z;
                   OCRWord.confidence := 9 # 10 |};
                {| OCRWord.text := "123456"; OCRWord.bbox := (10, 0, 10, 10)%Z;
                   OCRWord.confidence := 9 # 10 |}] in
  let ocr := {| OCRResult.page_index := 0; OCRResult.text := "MRN: 123456";
                OCRResult.words := words;
                OCRResult.average_confidence := None |} in
  let m := {| RegexMatch.start := 0; RegexMatch.group0 := "MRN: 123456";
              RegexMatch.groupdict := [("mrn", Some "123456")] |} in
  let finditer := fun kind (_ : string) =>
                    if String.eqb kind "mrn" then [m] else [] in
  exists page i,
    Extractor.extract_page (5 # 10) finditer ocr = Some page
    /\ i ∈ PageEntities.identifiers page
    /\ IdentifierMatch.kind i = "mrn"
    /\ IdentifierMatch.value i = "123456".
Proof.
  intros words ocr m finditer.
  assert (Hreturns : exists page,
             Extractor.extract_page (5 # 10) finditer ocr = Some page)
    by (eexists; vm_compute; reflexivity).
  destruct Hreturns as (page & Hpage).
  destruct (extract_page_keeps_matches (5 # 10) finditer ocr page) as [_ Hall].
  - repeat constructor; cbn; discriminate.
  - discriminate.
  - exact Hpage.
  - destruct (Hall "mrn" m "123456") as (i & Hi & Hk & Hv).
    + unfold four_kinds. set_solver.
    + left.
    + reflexivity.
    + discriminate.
    + exists page, i. repeat split; assumption.
Defined.

Lemma round3_monotone (x y : Q) : (x <= y)%Q -> (round3 x <= round3 y)%Q.
Proof.
  destruct x as [a b], y as [c d]. unfold Qle, round3. cbn [Qnum Qden].
  intros H.
  set (n1 := (a * 1000)%Z). set (n2 := (c * 1000)%Z).
  assert (Hn : (n1 * Z.pos d <= n2 * Z.pos b)%Z) by (subst n1 n2; lia).
  pose proof (Z.div_mod n1 (Z.pos b) ltac:(lia)) as E1.
  pose proof (Z.div_mod n2 (Z.pos d) ltac:(lia)) as E2.
  pose proof (Z.mod_pos_bound n1 (Z.pos b) ltac:(lia)) as B1.
  pose proof (Z.mod_pos_bound n2 (Z.pos d) ltac:(lia)) as B2.
  set (q1 := (n1 / Z.pos b)%Z) in *. set (m1 := (n1 mod Z.pos b)%Z) in *.
  set (q2 := (n2 / Z.pos d)%Z) in *. set (m2 := (n2 mod Z.pos d)%Z) in *.
  assert (Hq : (q1 <= q2)%Z).
  { destruct (Z.le_gt_cases q1 q2) as [Hle|Hgt]; [exact Hle | exfalso].
    assert (H1 : (Z.pos b * Z.pos d * (q2 + 1) <= Z.pos b * Z.pos d * q1)%Z)
      by (apply Z.mul_le_mono_nonneg_l; lia).
    assert (H2 : (Z.pos b * m2 < Z.pos b * Z.pos d)%Z)
      by (apply Z.mul_lt_mono_pos_l; lia).
    assert (H3 : (0 <= m1 * Z.pos d)%Z) by (apply Z.mul_nonneg_nonneg; lia).
    rewrite E1, E2 in Hn. lia. }
  assert (Hgoal : ((if if (Z.pos b <? 2 * m1)%Z then true
                       else if (2 * m1 =? Z.pos b)%Z then Z.odd q1 else false
                    then q1 + 1 else q1)
                   <= (if if (Z.pos d <? 2 * m2)%Z then true
                          else if (2 * m2 =? Z.pos d)%Z then Z.odd q2 else false
                       then q2 + 1 else q2))%Z).
  { destruct (Z.eq_dec q1 q2) as [Heq|Hne].
    - assert (Hm : (m1 * Z.pos d <= m2 * Z.pos b)%Z) by nia.
      rewrite <- Heq.
      destruct (Z.ltb_spec (Z.pos b) (2 * m1)) as [L1|L1].
      + destruct (Z.ltb_spec (Z.pos d) (2 * m2)) as [L2|L2]; [lia | nia].
      + destruct (Z.eqb_spec (2 * m1) (Z.pos b)) as [E|E].
        * destruct (Z.ltb_spec (Z.pos d) (2 * m2)) as [L2|L2];
            [destruct (Z.odd q1); lia|].
          destruct (Z.eqb_spec (2 * m2) (Z.pos d)) as [E'|E'];
            [destruct (Z.odd q1); lia | nia].
        * destruct (if (Z.pos d <? 2 * m2)%Z then true
                    else if (2 * m2 =? Z.pos d)%Z then Z.odd q1 else false); lia.
    - destruct (if (Z.pos b <? 2 * m1)%Z then true
                else if (2 * m1 =? Z.pos b)%Z then Z.odd q1 else false);
        destruct (if (Z.pos d <? 2 * m2)%Z then true
                  else if (2 * m2 =? Z.pos d)%Z then Z.odd q2 else false); lia. }
  cbn [Qnum Qden]. nia.
Qed.

(** ** Sorting *)

Lemma insert_by_perm {A} (before : A -> A -> bool) (x : A) (l : list A) :
  insert_by before x l ≡ₚ x :: l.
Proof.
  induction l as [|y l IH]; cbn; [reflexivity|].
  destruct (before x y); [reflexivity|].
  rewrite IH. apply Permutation_swap.
Qed.

Lemma sort_by_perm {A} (before : A -> A -> bool) (l : list A) :
  sort_by before l ≡ₚ l.
Proof.
  induction l as [|x l IH]; cbn; [reflexivity|].
  rewrite insert_by_perm. f_equiv. exact IH.
Qed.

Lemma insert_by_sorted {A} (before : A -> A -> bool) (x : A) (l : list A) :
  (forall a b, before a b = true \/ before b a = true) ->
  (forall a b c, before a b = true -> before b c = true -> before a c = true) ->
  StronglySorted (fun a b => before a b = true) l ->
  StronglySorted (fun a b => before a b = true) (insert_by before x l).
Proof.
  intros Htotal Htrans. induction 1 as [|y l Hl IH Hy]; cbn.
  - repeat constructor.
  - destruct (before x y) eqn:Hxy.
    + constructor; [constructor; assumption|].
      constructor; [exact Hxy|].
      eapply Forall_impl; [exact Hy|]. cbn. intros z Hz. eauto.
    + constructor; [exact IH|].
      apply Forall_forall. intros z Hz.
      apply elem_of_insert_by in Hz as [->|Hz].
      * destruct (Htotal x y) as [H|H]; [congruence | exact H].
      * rewrite Forall_forall in Hy. apply Hy, Hz.
Qed.

Lemma sort_by_sorted {A} (before : A -> A -> bool) (l : list A) :
  (forall a b, before a b = true \/ before b a = true) ->
  (forall a b c, before a b = true -> before b c = true -> before a c = true) ->
  StronglySorted (fun a b => before a b = true) (sort_by before l).
Proof.
  intros Htotal Htrans. induction l as [|x l IH]; cbn; [constructor|].
  apply insert_by_sorted; assumption.
Qed.

(** A list sorted by a key whose keys are pairwise distinct is sorted
    strictly. *)
Lemma sorted_strict {A K} (f : A -> K) (le lt : K -> K -> Prop) (l : list A) :
  (forall a b, le a b -> a <> b -> lt a b) ->
  StronglySorted (fun a b => le (f a) (f b)) l -> NoDup (f <$> l) ->
  StronglySorted (fun a b => lt (f a) (f b)) l.
Proof.
  intros Hlt. induction 1 as [|x l Hl IH Hx]; intros Hnd; [constructor|].
  rewrite fmap_cons in Hnd. apply NoDup_cons in Hnd as [Hnotin Hnd].
  constructor; [apply IH, Hnd|].
  apply Forall_forall. intros y Hy. rewrite Forall_forall in Hx.
  apply Hlt; [apply Hx, Hy|]. intros E. apply Hnotin. rewrite E.
  apply list_elem_of_fmap_2. exact Hy.
Qed.

Lemma sorted_map {A B} (g : A -> B) (R : B -> B -> Prop) (l : list A) :
  StronglySorted (fun a b => R (g a) (g b)) l -> StronglySorted R (List.map g l).
Proof.
  induction 1 as [|x l Hl IH Hx]; cbn; constructor; [exact IH|].
  apply Forall_map. exact Hx.
Qed.

Lemma sorted_Z_ascending (l : list Z) :
  NoDup l -> StronglySorted Z.lt (sorted_Z l).
Proof.
  intros Hnd. unfold sorted_Z.
  apply (sorted_strict id (fun a b => (a <=? b)%Z = true) Z.lt).
  - intros a b Hle Hne. apply Z.leb_le in Hle. lia.
  - apply sort_by_sorted.
    + intros a b. rewrite !Z.leb_le. lia.
    + intros a b c. rewrite !Z.leb_le. lia.
  - rewrite list_fmap_id, sort_by_perm. exact Hnd.
Qed.

(** [<=] on strings is transitive. *)
Lemma string_compare_trans (a b c : string) :
  String.compare a b <> Gt -> String.compare b c <> Gt ->
  String.compare a c <> Gt.
Proof.
  revert b c. induction a as [|x a IH]; intros [|y b] [|z c]; cbn;
    try congruence.
  unfold Ascii.compare.
  destruct (N.compare_spec (N_of_ascii x) (N_of_ascii y)) as [Exy|Lxy|Gxy];
    destruct (N.compare_spec (N_of_ascii y) (N_of_ascii z)) as [Eyz|Lyz|Gyz];
    try congruence; intros Hab Hbc.
  - rewrite Exy, Eyz, N.compare_refl. eauto.
  - rewrite Exy. apply N.compare_lt_iff in Lyz. rewrite Lyz. discriminate.
  - rewrite <- Eyz. apply N.compare_lt_iff in Lxy. rewrite Lxy. discriminate.
  - assert (L : (N_of_ascii x < N_of_ascii z)%N) by lia.
    apply N.compare_lt_iff in L. rewrite L. discriminate.
Qed.

Lemma string_leb_trans (a b c : string) :
  String.leb a b = true -> String.leb b c = true -> String.leb a c = true.
Proof.
  unfold String.leb. intros Hab Hbc.
  pose proof (string_compare_trans a b c) as H.
  destruct (String.compare a b), (String.compare b c), (String.compare a c);
    try reflexivity; try discriminate; exfalso; apply H; congruence.
Qed.

Lemma string_leb_ltb (a b : string) :
  String.leb a b = true -> a <> b -> String.ltb a b = true.
Proof.
  unfold String.leb, String.ltb. intros Hle Hne.
  destruct (String.compare a b) eqn:E; [|reflexivity|discriminate].
  apply String.compare_eq_iff in E. contradiction.
Qed.
(** ** Entity linker: what the clusters hold *)

Lemma Qmax_mono (a b c : Q) : (a <= b)%Q -> (Qmax a c <= Qmax b c)%Q.
Proof.
  intros H. destruct (Qmax_spec a c) as (_ & _ & [-> | ->]).
  - eapply Qle_trans; [exact H | apply Qmax_spec].
  - apply Qmax_spec.
Qed.

Lemma merge_identifier_pages cluster identifier page_index score p :
  p ∈ ClusterCandidate.pages
        (PatientEntityLinker._merge_identifier cluster identifier page_index score)
  <-> p ∈ ClusterCandidate.pages cluster \/ p = page_index.
Proof.
  unfold PatientEntityLinker._merge_identifier. cbn. case_bool_decide as Hin.
  - split; [intros H; left; exact H | intros [H | ->]; assumption].
  - rewrite elem_of_app, list_elem_of_singleton. reflexivity.
Qed.

Lemma merge_identifier_records cluster identifier page_index score :
  records (PatientEntityLinker._merge_identifier cluster identifier page_index score)
          page_index identifier.
Proof.
  unfold records.
  assert (Hp : page_index ∈ ClusterCandidate.pages
                 (PatientEntityLinker._merge_identifier cluster identifier
                    page_index score))
    by (apply merge_identifier_pages; right; reflexivity).
  revert Hp. unfold PatientEntityLinker._merge_identifier. cbn. intros Hp.
  destruct (ClusterCandidate.identifiers cluster !! IdentifierMatch.kind identifier)
    as [existing|]; eexists; (split; [apply lookup_insert_eq|]); cbn;
    (split; [|exact Hp]).
  - apply elem_of_app. right. left.
  - left.
Qed.

Lemma merge_identifier_keeps cluster identifier page_index score p i :
  records cluster p i ->
  records (PatientEntityLinker._merge_identifier cluster identifier page_index score)
          p i.
Proof.
  intros (linked & Hl & Hsrc & Hp). unfold records.
  assert (Hp' : p ∈ ClusterCandidate.pages
                  (PatientEntityLinker._merge_identifier cluster identifier
                     page_index score))
    by (apply merge_identifier_pages; left; exact Hp).
  revert Hp'. unfold PatientEntityLinker._merge_identifier. cbn. intros Hp'.
  destruct (decide (IdentifierMatch.kind identifier = IdentifierMatch.kind i))
    as [Heq|Hne].
  - rewrite Heq, Hl. eexists. split; [apply lookup_insert_eq|]. cbn.
    split; [|exact Hp']. apply elem_of_app. left. exact Hsrc.
  - exists linked. split; [|split; [exact Hsrc | exact Hp']].
    destruct (ClusterCandidate.identifiers cluster !! IdentifierMatch.kind identifier);
      rewrite lookup_insert_ne by exact Hne; exact Hl.
Qed.

Lemma new_cluster_records patient_id identifier page_index :
  records (PatientEntityLinker.new_cluster patient_id identifier page_index)
          page_index identifier.
Proof.
  eexists. cbn. split; [apply lookup_singleton_eq|]. cbn. split; left.
Qed.

Lemma merge_identifier_shape cluster identifier page_index score :
  cluster_shape cluster ->
  cluster_shape (PatientEntityLinker._merge_identifier cluster identifier
                   page_index score).
Proof.
  intros (Hnd & (kw & lw & Hkw & Hlw) & Hall).
  pose proof (merge_identifier_pages cluster identifier page_index score) as Hpages.
  revert Hpages. unfold cluster_shape, PatientEntityLinker._merge_identifier.
  cbn [ClusterCandidate.pages ClusterCandidate.identifiers ClusterCandidate.score].
  set (k := IdentifierMatch.kind identifier).
  set (n := IdentifierMatch.confidence identifier).
  intros Hpages.
  destruct (Qmax_spec (ClusterCandidate.score cluster) n) as (Hs1 & Hs2 & _).
  split; [|split].
  - case_bool_decide as Hin; [exact Hnd|].
    apply NoDup_app. split; [exact Hnd|]. split; [|apply NoDup_singleton].
    intros x Hx Hx'. apply list_elem_of_singleton in Hx' as ->. contradiction.
  - unfold Qmax at 1 2. destruct (Qltb (ClusterCandidate.score cluster) n) eqn:Hlt.
    + apply Qltb_true in Hlt. exists k.
      destruct (ClusterCandidate.identifiers cluster !! k) as [existing|] eqn:Hk.
      * eexists. split; [apply lookup_insert_eq|]. cbn.
        destruct (Hall k existing Hk) as (_ & _ & Hle & _).
        unfold Qmax. replace (Qltb (LinkedIdentifier.confidence existing) n)
          with true; [reflexivity|].
        symmetry. apply Qltb_true. eapply Qle_lt_trans; eassumption.
      * eexists. split; [apply lookup_insert_eq | reflexivity].
    + destruct (decide (kw = k)) as [->|Hne].
      * rewrite Hkw. exists k. eexists. split; [apply lookup_insert_eq|]. cbn.
        rewrite Hlw. unfold Qmax. rewrite Hlt. reflexivity.
      * exists kw, lw. split; [|exact Hlw].
        destruct (ClusterCandidate.identifiers cluster !! k);
          rewrite lookup_insert_ne by congruence; exact Hkw.
  - intros kind linked Hlookup.
    destruct (decide (kind = k)) as [->|Hne].
    + destruct (ClusterCandidate.identifiers cluster !! k) as [existing|] eqn:Hk;
        rewrite lookup_insert_eq in Hlookup; injection Hlookup as <-; cbn.
      * destruct (Hall k existing Hk) as (Hkind & _ & Hle & Hsrc).
        split; [exact Hkind|]. split; [intros E; apply app_eq_nil in E as [_ E]; discriminate|].
        split; [apply Qmax_mono, Hle|].
        intros src Hin. apply Hpages. apply elem_of_app in Hin as [Hin|Hin].
        -- left. apply Hsrc, Hin.
        -- right. apply list_elem_of_singleton in Hin as ->. reflexivity.
      * split; [reflexivity|]. split; [discriminate|]. split; [exact Hs2|].
        intros src Hin. apply list_elem_of_singleton in Hin as ->.
        apply Hpages. right. reflexivity.
    + assert (Hold : ClusterCandidate.identifiers cluster !! kind = Some linked).
      { destruct (ClusterCandidate.identifiers cluster !! k);
          rewrite lookup_insert_ne in Hlookup by congruence; exact Hlookup. }
      destruct (Hall kind linked Hold) as (Hkind & Hne' & Hle & Hsrc).
      split; [exact Hkind|]. split; [exact Hne'|].
      split; [eapply Qle_trans; eassumption|].
      intros src Hin. apply Hpages. left. apply Hsrc, Hin.
Qed.

Lemma new_cluster_shape patient_id identifier page_index :
  cluster_shape (PatientEntityLinker.new_cluster patient_id identifier page_index).
Proof.
  split; [apply NoDup_singleton|]. cbn. split.
  - eexists _, _. split; [apply lookup_singleton_eq | reflexivity].
  - intros kind linked H. apply lookup_singleton_Some in H as [<- <-]. cbn.
    split; [reflexivity|]. split; [discriminate|]. split; [apply Qle_refl|].
    intros src Hin. apply list_elem_of_singleton in Hin as ->. left.
Qed.

Lemma resolution_shape settings st identifier page_index preferred force_attach
    bc bs :
  Forall cluster_shape (PatientEntityLinker.clusters st) ->
  Forall cluster_shape
    (PatientEntityLinker.clusters
       (PatientEntityLinker.resolution settings st identifier page_index
          preferred force_attach bc bs).2).
Proof.
  intros Hst. unfold PatientEntityLinker.resolution.
  assert (Hm : forall h s,
             Forall cluster_shape
               (PatientEntityLinker.clusters
                  (PatientEntityLinker.merge_at st h identifier page_index s))).
  { intros h s. unfold PatientEntityLinker.merge_at. cbn.
    apply Forall_alter; [exact Hst|].
    intros c _ Hc. apply merge_identifier_shape. exact Hc. }
  assert (Hc : Forall cluster_shape
                 (PatientEntityLinker.clusters
                    (PatientEntityLinker._create_cluster st identifier page_index).2)).
  { cbn. apply Forall_app. split; [exact Hst|].
    constructor; [apply new_cluster_shape | constructor]. }
  destruct bc; [destruct (Qgeb _ _)|];
    (destruct preferred; [destruct force_attach|]);
    try (destruct (PatientEntityLinker._create_cluster _ _ _); exact Hc);
    apply Hm.
Qed.
Lemma to_linked_patient_shape (cluster : ClusterCandidate.t) :
  cluster_shape cluster ->
  let patient := PatientEntityLinker._to_linked_patient cluster in
  StronglySorted Z.lt (LinkedPatient.pages patient)
  /\ LinkedPatient.pages patient <> []
  /\ StronglySorted
       (fun a b => String.ltb (LinkedIdentifier.kind a) (LinkedIdentifier.kind b)
                   = true)
       (LinkedPatient.identifiers patient)
  /\ (exists linked,
         linked ∈ LinkedPatient.identifiers patient
         /\ LinkedIdentifier.confidence linked = LinkedPatient.score patient)
  /\ forall linked,
       linked ∈ LinkedPatient.identifiers patient ->
       LinkedIdentifier.sources linked <> []
       /\ (LinkedIdentifier.confidence linked <= LinkedPatient.score patient)%Q
       /\ forall src, src ∈ LinkedIdentifier.sources linked ->
                      src.1 ∈ LinkedPatient.pages patient.
Proof.
  intros (Hnd & (kw & lw & Hkw & Hlw) & Hall) patient. subst patient.
  unfold PatientEntityLinker._to_linked_patient.
  cbn [LinkedPatient.pages LinkedPatient.identifiers LinkedPatient.score].
  set (ids := ClusterCandidate.identifiers cluster) in *.
  set (vs := (map_to_list ids).*2).
  assert (Hvs : forall v, v ∈ vs <-> exists k, ids !! k = Some v).
  { intros v. subst vs. rewrite list_elem_of_fmap. split.
    - intros ([k v'] & -> & Hin). exists k. apply elem_of_map_to_list. exact Hin.
    - intros (k & Hk). exists (k, v). split; [reflexivity|].
      apply elem_of_map_to_list. exact Hk. }
  assert (Hkinds : LinkedIdentifier.kind <$> vs = (map_to_list ids).*1).
  { subst vs. rewrite <- list_fmap_compose. apply Forall_fmap_ext.
    apply Forall_forall. intros [k v] Hin. cbn.
    apply elem_of_map_to_list in Hin. apply (Hall k v Hin). }
  assert (Hin_sorted : forall linked,
             linked ∈ PatientEntityLinker.sorted_by_kind vs <-> linked ∈ vs).
  { intros linked. apply elem_of_sort_by. }
  split; [apply sorted_Z_ascending, Hnd|].
  assert (Hpage : forall p, p ∈ sorted_Z (ClusterCandidate.pages cluster)
                            <-> p ∈ ClusterCandidate.pages cluster).
  { intros p. apply elem_of_sort_by. }
  split.
  { destruct (Hall kw lw Hkw) as (_ & Hsrc & _ & Hp).
    destruct (LinkedIdentifier.sources lw) as [|src rest] eqn:E; [congruence|].
    intros Hnil. specialize (Hp src (list_elem_of_here _ _)).
    apply Hpage in Hp. rewrite Hnil in Hp. inversion Hp. }
  split.
  { apply sorted_map. cbn [LinkedIdentifier.kind].
    apply (sorted_strict LinkedIdentifier.kind
             (fun a b => String.leb a b = true)
             (fun a b => String.ltb a b = true)).
    - intros a b. apply string_leb_ltb.
    - apply (sort_by_sorted
               (fun a b => String.leb (LinkedIdentifier.kind a)
                                      (LinkedIdentifier.kind b))).
      + intros a b. apply String.leb_total.
      + intros a b c. apply string_leb_trans.
    - unfold PatientEntityLinker.sorted_by_kind.
      rewrite sort_by_perm, Hkinds. apply NoDup_fst_map_to_list. }
  split.
  { eexists. split.
    - apply list_elem_of_In, in_map_iff. exists lw. split; [reflexivity|].
      apply list_elem_of_In, Hin_sorted, Hvs. exists kw. exact Hkw.
    - cbn. rewrite Hlw. reflexivity. }
  intros linked Hin.
  apply list_elem_of_In, in_map_iff in Hin as (v & <- & Hv).
  apply list_elem_of_In, Hin_sorted, Hvs in Hv as (k & Hk).
  destruct (Hall k v Hk) as (_ & Hsrc & Hle & Hp). cbn.
  split; [exact Hsrc|]. split; [apply round3_monotone, Hle|].
  intros src Hs. apply Hpage, Hp, Hs.
Qed.

Section LinkShape.
Context (fuzz : Fuzz) (settings : Settings).

Lemma link_clusters pages out :
  PatientEntityLinker.link fuzz settings pages = Ok out ->
  exists r,
    PatientEntityLinker.link_loop fuzz settings PatientEntityLinker.fresh pages
      = Ok r
    /\ out = List.map PatientEntityLinker._to_linked_patient
               (PatientEntityLinker.clusters r.1)
    /\ Forall cluster_shape (PatientEntityLinker.clusters r.1).
Proof.
  intros H. unfold PatientEntityLinker.link, PatientEntityLinker.link_from in H.
  apply rbind_ok in H as (r & Hr & H). injection H as <-.
  exists r. split; [exact Hr|]. split; [reflexivity|].
  apply (link_loop_state_inv fuzz settings
           (fun st => Forall cluster_shape (PatientEntityLinker.clusters st))
           (fun st i p pr fa bc bs => resolution_shape settings st i p pr fa bc bs)
           pages (PatientEntityLinker.fresh, []) r); [constructor | exact Hr].
Qed.

(** X15.  Every patient returned by [link] has its pages in strictly
    ascending order and at least one page; its identifiers are in strictly
    ascending order of kind, so no kind occurs twice; its score is the
    confidence of one of its identifiers and no identifier has a greater
    one; every identifier has a source, and every source lies on one of the
    patient's pages. *)
Theorem link_patients_shape (pages : list PageEntities.t)
    (out : list LinkedPatient.t) (patient : LinkedPatient.t) :
  PatientEntityLinker.link fuzz settings pages = Ok out ->
  patient ∈ out ->
  StronglySorted Z.lt (LinkedPatient.pages patient)
  /\ LinkedPatient.pages patient <> []
  /\ StronglySorted
       (fun a b => String.ltb (LinkedIdentifier.kind a) (LinkedIdentifier.kind b)
                   = true)
       (LinkedPatient.identifiers patient)
  /\ (exists linked,
         linked ∈ LinkedPatient.identifiers patient
         /\ LinkedIdentifier.confidence linked = LinkedPatient.score patient)
  /\ forall linked,
       linked ∈ LinkedPatient.identifiers patient ->
       LinkedIdentifier.sources linked <> []
       /\ (LinkedIdentifier.confidence linked <= LinkedPatient.score patient)%Q
       /\ forall src, src ∈ LinkedIdentifier.sources linked ->
                      src.1 ∈ LinkedPatient.pages patient.
Proof.
  intros H Hin. apply link_clusters in H as (r & _ & -> & Hshape).
  apply list_elem_of_In, in_map_iff in Hin as (c & <- & Hc).
  apply to_linked_patient_shape.
  rewrite Forall_forall in Hshape. apply Hshape, list_elem_of_In, Hc.
Qed.
End LinkShape.
(** ** Entity linker: every identifier is recorded *)

(** A loop that establishes [Q] for the tags of each element and keeps
    [Q] once it holds. *)
Lemma rfold_each {A B S} (I : S -> Prop) (Q : B -> S -> Prop)
    (tags : A -> B -> Prop) (body : S -> A -> result S) :
  (forall s x s', I s -> body s x = Ok s' ->
     I s' /\ (forall b, tags x b -> Q b s') /\ (forall b, Q b s -> Q b s')) ->
  forall l s s', I s -> rfold body l s = Ok s' ->
    I s' /\ (forall x b, x ∈ l -> tags x b -> Q b s')
    /\ (forall b, Q b s -> Q b s').
Proof.
  intros Hstep l. induction l as [|x l IH]; intros s s' Hs H; cbn in H.
  - injection H as <-. split; [exact Hs|]. split; [|auto].
    intros x b Hx. inversion Hx.
  - apply rbind_ok in H as (s1 & H1 & H2).
    destruct (Hstep s x s1 Hs H1) as (Hs1 & Hnew & Hkeep).
    destruct (IH s1 s' Hs1 H2) as (Hs' & Hall & Hkeep').
    split; [exact Hs'|]. split; [|auto].
    intros y b Hy Hb. apply elem_of_cons in Hy as [->|Hy]; eauto.
Qed.

Lemma rmap_length {A B} (f : A -> result B) (l : list A) (r : list B) :
  rmap f l = Ok r -> length r = length l.
Proof.
  revert r. induction l as [|x l IH]; intros r H; cbn in H.
  - injection H as <-. reflexivity.
  - apply rbind_ok in H as (y & _ & H). apply rbind_ok in H as (ys & Hys & H).
    injection H as <-. cbn. f_equal. apply IH, Hys.
Qed.

Lemma elem_of_enumerate_from {A} (l : list A) (k : nat) (x : A) :
  x ∈ l -> exists idx, (idx, x) ∈ combine (seq k (length l)) l.
Proof.
  revert k. induction l as [|y l IH]; intros k Hx; [inversion Hx|].
  apply elem_of_cons in Hx as [->|Hx]; cbn.
  - exists k. left.
  - destruct (IH (S k) Hx) as (idx & Hidx). exists idx. right. exact Hidx.
Qed.

Lemma elem_of_enumerate_snd {A} (l : list A) (k : nat) (item : nat * A) :
  item ∈ combine (seq k (length l)) l -> item.2 ∈ l.
Proof.
  revert k. induction l as [|y l IH]; intros k Hx; cbn in Hx; [inversion Hx|].
  apply elem_of_cons in Hx as [->|Hx]; [left | right; eapply IH, Hx].
Qed.

Lemma best_match_valid fuzz identifier cs b s :
  PatientEntityLinker.best_match fuzz identifier cs 0 None 0%Q = Ok (Some b, s) ->
  (b < length cs)%nat.
Proof.
  intros H. destruct (best_match_returns_inv _ _ _ _ _ _ _ H) as (ss & Hss).
  rewrite (best_match_scan _ _ _ _ _ _ _ Hss) in H. injection H as H.
  destruct (scan_spec ss 0 None 0%Q) as (_ & _ & [Heq | (j & Hj & Hlook & _)]).
  - rewrite H in Heq. discriminate.
  - rewrite H in Hj, Hlook. cbn in Hj, Hlook. injection Hj as ->.
    apply lookup_lt_Some in Hlook. rewrite (rmap_length _ _ _ Hss) in Hlook.
    exact Hlook.
Qed.

Lemma min_by_pos_cons (a y : nat * nat) (rest : list (nat * nat)) :
  PatientEntityLinker.min_by_pos a (y :: rest)
  = PatientEntityLinker.min_by_pos (if (y.1 <? a.1)%nat then y else a) rest.
Proof. reflexivity. Qed.

Lemma min_by_pos_spec (rest : list (nat * nat)) (a : nat * nat) :
  let m := PatientEntityLinker.min_by_pos a rest in
  m ∈ a :: rest /\ forall x, x ∈ a :: rest -> (m.1 <= x.1)%nat.
Proof.
  revert a. induction rest as [|y rest IH]; intros a m; subst m.
  - split; [left|]. intros x Hx. apply list_elem_of_singleton in Hx as ->.
    apply Nat.le_refl.
  - rewrite min_by_pos_cons.
    destruct (IH (if (y.1 <? a.1)%nat then y else a)) as [Hin Hmin].
    destruct (Nat.ltb_spec y.1 a.1) as [Hlt|Hge].
    + split.
      * right. exact Hin.
      * intros x Hx. apply elem_of_cons in Hx as [->|Hx]; [|apply Hmin, Hx].
        specialize (Hmin y (list_elem_of_here _ _)). lia.
    + split.
      * apply elem_of_cons in Hin as [Hin|Hin];
          [rewrite Hin; left | right; right; exact Hin].
      * intros x Hx. apply elem_of_cons in Hx as [->|Hx];
          [apply Hmin; left|].
        apply elem_of_cons in Hx as [->|Hx].
        -- specialize (Hmin a (list_elem_of_here _ _)). lia.
        -- apply Hmin. right. exact Hx.
Qed.

(** X16.  [_nearest_anchor] raises on an empty anchor list only.
    Otherwise it returns the cluster of an anchor of the list: of the one
    at the greatest position up to [idx] when an anchor lies there, else,
    all anchors lying after [idx], of the one at the least position. *)
Theorem nearest_anchor_choice (idx : nat) (anchors : list (nat * nat)) :
  match PatientEntityLinker._nearest_anchor idx anchors with
  | Raise _ => anchors = []
  | Ok p =>
      exists pos,
        (pos, p) ∈ anchors
        /\ if existsb (fun a => (a.1 <=? idx)%nat) anchors
           then (pos <= idx)%nat
                /\ forall a, a ∈ anchors -> (a.1 <= idx)%nat -> (a.1 <= pos)%nat
           else forall a, a ∈ anchors -> (idx < pos <= a.1)%nat
  end.
Proof.
  unfold PatientEntityLinker._nearest_anchor.
  destruct (List.filter _ anchors) as [|p ps] eqn:Hf.
  - assert (Hnone : forall a, a ∈ anchors -> (idx < a.1)%nat).
    { intros a Ha. destruct (Nat.leb_spec a.1 idx) as [Hle|Hgt]; [|exact Hgt].
      assert (Hin : In a (List.filter (fun item => (item.1 <=? idx)%nat) anchors)).
      { apply filter_In. split; [apply list_elem_of_In, Ha | apply Nat.leb_le, Hle]. }
      rewrite Hf in Hin. destruct Hin. }
    destruct anchors as [|a rest]; [reflexivity|].
    destruct (min_by_pos_spec rest a) as [Hin Hmin].
    exists (PatientEntityLinker.min_by_pos a rest).1.
    split; [destruct (PatientEntityLinker.min_by_pos a rest); exact Hin|].
    replace (existsb _ (a :: rest)) with false.
    + intros x Hx. split; [apply Hnone, Hin | apply Hmin, Hx].
    + symmetry. apply not_true_is_false. intros E.
      apply existsb_exists in E as (x & Hx & Hle).
      apply Nat.leb_le in Hle.
      specialize (Hnone x (proj2 (list_elem_of_In _ _) Hx)). lia.
  - destruct (max_by_pos_spec ps p) as [Hin Hmax].
    assert (Hmem : forall a, a ∈ p :: ps <-> a ∈ anchors /\ (a.1 <= idx)%nat).
    { intros a. rewrite <- Hf, !list_elem_of_In, filter_In, Nat.leb_le.
      reflexivity. }
    exists (PatientEntityLinker.max_by_pos p ps).1.
    apply Hmem in Hin as Hin'. destruct Hin' as [Hanchor Hle].
    split; [destruct (PatientEntityLinker.max_by_pos p ps); exact Hanchor|].
    replace (existsb _ anchors) with true.
    + split; [exact Hle|]. intros a Ha Hale. apply Hmax, Hmem. split; assumption.
    + symmetry. apply existsb_exists.
      exists (PatientEntityLinker.max_by_pos p ps).
      split; [apply list_elem_of_In, Hanchor | apply Nat.leb_le, Hle].
Qed.

Lemma preferred_for_valid idx kind anchors pf q :
  PatientEntityLinker.preferred_for idx kind anchors = Ok pf ->
  pf.1 = Some q -> exists pos, (pos, q) ∈ anchors.
Proof.
  unfold PatientEntityLinker.preferred_for. intros H Hq.
  destruct anchors as [|a rest]; [injection H as <-; discriminate|].
  destruct (PatientEntityLinker.supportive_kinds kind);
    [|injection H as <-; discriminate].
  apply rbind_ok in H as (p & Hp & H). injection H as <-. cbn in Hq.
  injection Hq as ->.
  unfold PatientEntityLinker._nearest_anchor in Hp.
  destruct (List.filter _ (a :: rest)) as [|p0 ps] eqn:Hf; injection Hp as <-.
  - destruct (min_by_pos_spec rest a) as [Hin _].
    exists (PatientEntityLinker.min_by_pos a rest).1.
    destruct (PatientEntityLinker.min_by_pos a rest); exact Hin.
  - destruct (max_by_pos_spec ps p0) as [Hin _].
    exists (PatientEntityLinker.max_by_pos p0 ps).1.
    rewrite <- Hf in Hin. apply list_elem_of_In, filter_In in Hin as [Hin _].
    apply list_elem_of_In in Hin.
    destruct (PatientEntityLinker.max_by_pos p0 ps); exact Hin.
Qed.

Lemma merge_at_recorded st h identifier page_index score :
  (h < length (PatientEntityLinker.clusters st))%nat ->
  recorded (PatientEntityLinker.merge_at st h identifier page_index score)
           (page_index, identifier).
Proof.
  intros Hh. apply lookup_lt_is_Some_2 in Hh as (c & Hc).
  exists (PatientEntityLinker._merge_identifier c identifier page_index score).
  split; [|apply merge_identifier_records].
  unfold PatientEntityLinker.merge_at. cbn.
  apply (list_elem_of_lookup_2 _ h). rewrite list_lookup_alter_eq, Hc. reflexivity.
Qed.

Lemma merge_at_keeps st h identifier page_index score item :
  recorded st item ->
  recorded (PatientEntityLinker.merge_at st h identifier page_index score) item.
Proof.
  intros (c & Hc & Hrec). apply list_elem_of_lookup in Hc as (j & Hj).
  unfold recorded, PatientEntityLinker.merge_at. cbn.
  destruct (decide (j = h)) as [->|Hne].
  - exists (PatientEntityLinker._merge_identifier c identifier page_index score).
    split; [|apply merge_identifier_keeps, Hrec].
    apply (list_elem_of_lookup_2 _ h). rewrite list_lookup_alter_eq, Hj. reflexivity.
  - exists c. split; [|exact Hrec].
    apply (list_elem_of_lookup_2 _ j). rewrite list_lookup_alter_ne by congruence.
    exact Hj.
Qed.

Lemma resolution_records settings st identifier page_index preferred
    force_attach bc bs :
  (forall b, bc = Some b -> (b < length (PatientEntityLinker.clusters st))%nat) ->
  (forall q, preferred = Some q ->
             (q < length (PatientEntityLinker.clusters st))%nat) ->
  let r := PatientEntityLinker.resolution settings st identifier page_index
             preferred force_attach bc bs in
  recorded r.2 (page_index, identifier)
  /\ (r.1.2 < length (PatientEntityLinker.clusters r.2))%nat
  /\ forall item, recorded st item -> recorded r.2 item.
Proof.
  intros Hbc Hpref r. subst r. unfold PatientEntityLinker.resolution.
  assert (Hm : forall h s,
             (h < length (PatientEntityLinker.clusters st))%nat ->
             let st' := PatientEntityLinker.merge_at st h identifier page_index s in
             recorded st' (page_index, identifier)
             /\ (h < length (PatientEntityLinker.clusters st'))%nat
             /\ forall item, recorded st item -> recorded st' item).
  { intros h s Hh st'. subst st'. split; [apply merge_at_recorded, Hh|].
    split; [rewrite merge_at_length; exact Hh|].
    intros item. apply merge_at_keeps. }
  assert (Hc : let r := PatientEntityLinker._create_cluster st identifier
                          page_index in
               recorded r.2 (page_index, identifier)
               /\ (r.1 < length (PatientEntityLinker.clusters r.2))%nat
               /\ forall item, recorded st item -> recorded r.2 item).
  { cbn. split.
    - eexists. split; [|apply new_cluster_records].
      cbn. apply elem_of_app. right. left.
    - split; [rewrite length_app; cbn; lia|].
      intros item (c & Hin & Hrec). exists c. split; [|exact Hrec].
      cbn. apply elem_of_app. left. exact Hin. }
  destruct bc as [b|]; [destruct (Qgeb _ _)|];
    (destruct preferred as [q|]; [destruct force_attach|]);
    try (destruct (PatientEntityLinker._create_cluster _ _ _); exact Hc);
    cbn [fst snd]; apply Hm; auto.
Qed.

Section LinkRecords.
Context (fuzz : Fuzz) (settings : Settings).

Lemma link_identifier_step page_index ps item ps' :
  anchors_valid ps ->
  PatientEntityLinker.link_identifier fuzz settings page_index ps item = Ok ps' ->
  anchors_valid ps'
  /\ recorded ps'.1.1 (page_index, item.2)
  /\ forall it, recorded ps.1.1 it -> recorded ps'.1.1 it.
Proof.
  destruct ps as [[st anchors] sites], item as [idx identifier].
  unfold anchors_valid. cbn [fst snd]. intros Hvalid H.
  unfold PatientEntityLinker.link_identifier in H.
  apply rbind_ok in H as (pf & Hpf & H).
  apply rbind_ok in H as ([[site h] st'] & Hassign & H).
  injection H as <-. cbn [fst snd].
  apply assign_identifier_inv in Hassign as (bc & bs & Hbest & Hr).
  destruct (resolution_records settings st identifier page_index pf.1 pf.2 bc bs)
    as (Hrec & Hh & Hkeep).
  { intros b ->. eapply best_match_valid, Hbest. }
  { intros q Hq. destruct (preferred_for_valid _ _ _ _ _ Hpf Hq) as (pos & Hin).
    rewrite Forall_forall in Hvalid. apply (Hvalid _ Hin). }
  pose proof (resolution_length settings st identifier page_index pf.1 pf.2 bc bs)
    as Hlen.
  rewrite <- Hr in Hrec, Hh, Hkeep, Hlen. cbn [fst snd] in *.
  split; [|split; [exact Hrec | exact Hkeep]].
  assert (Hold : Forall (fun a : nat * nat =>
                           (a.2 < length (PatientEntityLinker.clusters st'))%nat)
                        anchors).
  { eapply Forall_impl; [exact Hvalid|]. cbn. intros a Ha. lia. }
  assert (Hnew : Forall (fun a : nat * nat =>
                           (a.2 < length (PatientEntityLinker.clusters st'))%nat)
                        (anchors ++ [(idx, h)])).
  { apply Forall_app. split; [exact Hold|]. constructor; [exact Hh | constructor]. }
  unfold PatientEntityLinker.record_anchor.
  destruct (PatientEntityLinker.anchor_kinds _); [exact Hnew|].
  destruct (PatientEntityLinker.supportive_kinds _); [|exact Hold].
  destruct (_ && _); [exact Hnew | exact Hold].
Qed.

Lemma link_page_step acc page acc' :
  PatientEntityLinker.link_page fuzz settings acc page = Ok acc' ->
  (forall identifier,
      identifier ∈ PageEntities.identifiers page ->
      recorded acc'.1 (PageEntities.page_index page, identifier))
  /\ forall it, recorded acc.1 it -> recorded acc'.1 it.
Proof.
  intros H. unfold PatientEntityLinker.link_page in H.
  apply rbind_ok in H as (ps & Hps & H). injection H as <-. cbn [fst snd].
  destruct (rfold_each anchors_valid
              (fun b (ps : PatientEntityLinker.page_state) => recorded ps.1.1 b)
              (fun (item : nat * IdentifierMatch.t) b =>
                 b = (PageEntities.page_index page, item.2))
              (PatientEntityLinker.link_identifier fuzz settings
                 (PageEntities.page_index page)))
    with (l := enumerate (PageEntities.identifiers page))
         (s := (acc.1, @nil (nat * nat), acc.2)) (s' := ps)
    as (_ & Hall & Hkeep).
  - intros s x s' Hs Hbody.
    destruct (link_identifier_step _ _ _ _ Hs Hbody) as (Hs' & Hrec & Hk).
    split; [exact Hs'|]. split; [intros b ->; exact Hrec | exact Hk].
  - constructor.
  - exact Hps.
  - split; [|exact Hkeep].
    intros identifier Hin.
    destruct (elem_of_enumerate_from _ 0 _ Hin) as (idx & Hidx).
    apply (Hall (idx, identifier)); [exact Hidx | reflexivity].
Qed.

(** X17.  [link] loses no identifier: each identifier of each page is
    among the sources of an identifier of its kind of some returned
    patient, and that patient has the page. *)
Theorem link_records_every_identifier (pages : list PageEntities.t)
    (out : list LinkedPatient.t) (page : PageEntities.t)
    (identifier : IdentifierMatch.t) :
  PatientEntityLinker.link fuzz settings pages = Ok out ->
  page ∈ pages ->
  identifier ∈ PageEntities.identifiers page ->
  exists patient linked,
    patient ∈ out
    /\ linked ∈ LinkedPatient.identifiers patient
    /\ LinkedIdentifier.kind linked = IdentifierMatch.kind identifier
    /\ (PageEntities.page_index page, IdentifierMatch.word_indices identifier)
         ∈ LinkedIdentifier.sources linked
    /\ PageEntities.page_index page ∈ LinkedPatient.pages patient.
Proof.
  intros H Hpage Hid.
  apply link_clusters in H as (r & Hr & -> & Hshape).
  unfold PatientEntityLinker.link_loop in Hr.
  destruct (rfold_each (fun _ => True)
              (fun b (acc : PatientEntityLinker.state
                            * list PatientEntityLinker.return_site) =>
                 recorded acc.1 b)
              (fun (pg : PageEntities.t) b =>
                 b.1 = PageEntities.page_index pg
                 /\ b.2 ∈ PageEntities.identifiers pg)
              (PatientEntityLinker.link_page fuzz settings))
    with (l := pages) (s := (PatientEntityLinker.fresh, @nil PatientEntityLinker.return_site))
         (s' := r) as (_ & Hall & _).
  - intros s x s' _ Hbody. destruct (link_page_step _ _ _ Hbody) as (Hnew & Hk).
    split; [exact I|]. split; [|exact Hk].
    intros [p i] [Hp Hi]. cbn in Hp, Hi. subst p. apply Hnew, Hi.
  - exact I.
  - exact Hr.
  - destruct (Hall page (PageEntities.page_index page, identifier) Hpage)
      as (c & Hc & linked & Hl & Hsrc & Hp); [split; [reflexivity | exact Hid]|].
    cbn [fst snd] in *.
    rewrite Forall_forall in Hshape.
    destruct (Hshape c Hc) as (_ & _ & Hall').
    destruct (Hall' _ _ Hl) as (Hkind & _).
    exists (PatientEntityLinker._to_linked_patient c). eexists.
    split; [apply list_elem_of_In, in_map, list_elem_of_In, Hc|].
    split.
    { cbn. apply list_elem_of_In, in_map_iff. exists linked.
      split; [reflexivity|]. apply list_elem_of_In, elem_of_sort_by.
      apply list_elem_of_fmap. exists (IdentifierMatch.kind identifier, linked).
      split; [reflexivity|]. apply elem_of_map_to_list. exact Hl. }
    cbn. split; [exact Hkind|]. split; [exact Hsrc|].
    apply elem_of_sort_by. exact Hp.
Qed.
End LinkRecords.
(** ** Entity linker: nothing is invented *)

Lemma elem_of_page_items pages p i :
  (p, i) ∈ page_items pages
  <-> exists page, page ∈ pages /\ PageEntities.page_index page = p
                   /\ i ∈ PageEntities.identifiers page.
Proof.
  unfold page_items. rewrite list_elem_of_bind. split.
  - intros (page & Hin & Hpage). apply list_elem_of_fmap in Hin as (i' & E & Hi).
    injection E as -> ->. exists page. auto.
  - intros (page & Hpage & <- & Hi). exists page. split; [|exact Hpage].
    apply list_elem_of_fmap. exists i. auto.
Qed.

Lemma merge_identifier_from items cluster identifier page_index score :
  (page_index, identifier) ∈ items ->
  cluster_from items cluster ->
  cluster_from items
    (PatientEntityLinker._merge_identifier cluster identifier page_index score).
Proof.
  intros Hitem (Hpages & Hall).
  pose proof (merge_identifier_pages cluster identifier page_index score) as Hp.
  revert Hp. unfold cluster_from, PatientEntityLinker._merge_identifier.
  cbn [ClusterCandidate.pages ClusterCandidate.identifiers].
  set (k := IdentifierMatch.kind identifier). intros Hp.
  split.
  - intros p Hin. apply Hp in Hin as [Hin | ->]; [apply Hpages, Hin|].
    exists identifier. exact Hitem.
  - intros kind linked Hlookup.
    destruct (decide (kind = k)) as [->|Hne].
    + destruct (ClusterCandidate.identifiers cluster !! k) as [existing|] eqn:Hk;
        rewrite lookup_insert_eq in Hlookup; injection Hlookup as <-; cbn.
      * destruct (Hall k existing Hk) as (Hval & Hconf & Hsrc).
        split; [|split].
        -- destruct (Qgtb score (LinkedIdentifier.confidence existing));
             [exists page_index, identifier; auto | exact Hval].
        -- destruct (Qmax_spec (LinkedIdentifier.confidence existing)
                       (IdentifierMatch.confidence identifier))
             as (_ & _ & [-> | ->]);
             [exact Hconf | exists page_index, identifier; auto].
        -- intros src Hin. apply elem_of_app in Hin as [Hin|Hin];
             [apply Hsrc, Hin|].
           apply list_elem_of_singleton in Hin as ->. exists identifier. auto.
      * split; [exists page_index, identifier; auto|].
        split; [exists page_index, identifier; auto|].
        intros src Hin. apply list_elem_of_singleton in Hin as ->.
        exists identifier. auto.
    + apply Hall.
      destruct (ClusterCandidate.identifiers cluster !! k);
        rewrite lookup_insert_ne in Hlookup by congruence; exact Hlookup.
Qed.

Lemma new_cluster_from items patient_id identifier page_index :
  (page_index, identifier) ∈ items ->
  cluster_from items
    (PatientEntityLinker.new_cluster patient_id identifier page_index).
Proof.
  intros Hitem. split; cbn.
  - intros p Hin. apply list_elem_of_singleton in Hin as ->.
    exists identifier. exact Hitem.
  - intros kind linked H. apply lookup_singleton_Some in H as [<- <-]. cbn.
    split; [exists page_index, identifier; auto|].
    split; [exists page_index, identifier; auto|].
    intros src Hin. apply list_elem_of_singleton in Hin as ->.
    exists identifier. auto.
Qed.

Lemma resolution_from items settings st identifier page_index preferred
    force_attach bc bs :
  (page_index, identifier) ∈ items ->
  Forall (cluster_from items) (PatientEntityLinker.clusters st) ->
  Forall (cluster_from items)
    (PatientEntityLinker.clusters
       (PatientEntityLinker.resolution settings st identifier page_index
          preferred force_attach bc bs).2).
Proof.
  intros Hitem Hst. unfold PatientEntityLinker.resolution.
  assert (Hm : forall h s,
             Forall (cluster_from items)
               (PatientEntityLinker.clusters
                  (PatientEntityLinker.merge_at st h identifier page_index s))).
  { intros h s. unfold PatientEntityLinker.merge_at. cbn.
    apply Forall_alter; [exact Hst|].
    intros c _ Hc. apply merge_identifier_from; assumption. }
  assert (Hc : Forall (cluster_from items)
                 (PatientEntityLinker.clusters
                    (PatientEntityLinker._create_cluster st identifier page_index).2)).
  { cbn. apply Forall_app. split; [exact Hst|].
    constructor; [apply new_cluster_from, Hitem | constructor]. }
  destruct bc; [destruct (Qgeb _ _)|];
    (destruct preferred; [destruct force_attach|]);
    try (destruct (PatientEntityLinker._create_cluster _ _ _); exact Hc);
    apply Hm.
Qed.

Section LinkFrom.
Context (fuzz : Fuzz) (settings : Settings).

(** A property of the linker state kept by the resolution of every
    identifier of the document is kept by the whole of [link_loop]. *)
Lemma link_loop_state_inv_in (P : PatientEntityLinker.state -> Prop)
    (pages : list PageEntities.t) :
  (forall st identifier page_index preferred force_attach bc bs,
      (page_index, identifier) ∈ page_items pages ->
      P st ->
      P (PatientEntityLinker.resolution settings st identifier page_index
           preferred force_attach bc bs).2) ->
  forall acc acc',
    P acc.1 ->
    rfold (PatientEntityLinker.link_page fuzz settings) pages acc = Ok acc' ->
    P acc'.1.
Proof.
  intros Hres.
  apply (rfold_inv_in
           (fun acc : PatientEntityLinker.state * list PatientEntityLinker.return_site =>
              P acc.1)).
  intros acc page acc' Hpage Hacc H.
  unfold PatientEntityLinker.link_page in H.
  apply rbind_ok in H as (ps & Hps & H). injection H as <-. cbn.
  revert Hps.
  apply (rfold_inv_in (fun ps : PatientEntityLinker.page_state => P ps.1.1));
    [|exact Hacc].
  intros [[st anchors] sites] [idx identifier] ps' Hin Hst H.
  unfold PatientEntityLinker.link_identifier in H.
  apply rbind_ok in H as (pf & _ & H).
  apply rbind_ok in H as ([[site h] st'] & Hassign & H).
  injection H as <-. cbn in *.
  apply assign_identifier_inv in Hassign as (bc & bs & _ & Hr).
  apply (f_equal snd) in Hr. cbn in Hr. subst st'.
  apply Hres; [|exact Hst].
  apply elem_of_page_items. exists page. split; [exact Hpage|].
  split; [reflexivity|]. apply (elem_of_enumerate_snd _ 0 _ Hin).
Qed.

Lemma link_clusters_from (pages : list PageEntities.t)
    (out : list LinkedPatient.t) :
  PatientEntityLinker.link fuzz settings pages = Ok out ->
  exists cs,
    out = List.map PatientEntityLinker._to_linked_patient cs
    /\ Forall cluster_shape cs
    /\ Forall (cluster_from (page_items pages)) cs.
Proof.
  intros H. apply link_clusters in H as (r & Hr & -> & Hshape).
  exists (PatientEntityLinker.clusters r.1).
  split; [reflexivity|]. split; [exact Hshape|].
  apply (link_loop_state_inv_in
           (fun st => Forall (cluster_from (page_items pages))
                        (PatientEntityLinker.clusters st))
           pages
           (fun st i p pr fa bc bs Hi =>
              resolution_from (page_items pages) settings st i p pr fa bc bs Hi)
           (PatientEntityLinker.fresh, []) r); [constructor | exact Hr].
Qed.

(** X18.  [link] invents nothing: every page of a returned patient is a
    page of the document that has identifiers, and every identifier of a
    returned patient has the value of an identifier of its kind in the
    document, the rounded confidence of one, and as sources only places
    where the document has an identifier of that kind. *)
Theorem link_invents_nothing (pages : list PageEntities.t)
    (out : list LinkedPatient.t) (patient : LinkedPatient.t) :
  PatientEntityLinker.link fuzz settings pages = Ok out ->
  patient ∈ out ->
  (forall p, p ∈ LinkedPatient.pages patient ->
     exists page, page ∈ pages /\ PageEntities.page_index page = p
                  /\ PageEntities.identifiers page <> [])
  /\ forall linked,
       linked ∈ LinkedPatient.identifiers patient ->
       (exists page i,
           page ∈ pages /\ i ∈ PageEntities.identifiers page
           /\ IdentifierMatch.kind i = LinkedIdentifier.kind linked
           /\ IdentifierMatch.value i = LinkedIdentifier.value linked)
       /\ (exists page i,
              page ∈ pages /\ i ∈ PageEntities.identifiers page
              /\ IdentifierMatch.kind i = LinkedIdentifier.kind linked
              /\ round3 (IdentifierMatch.confidence i)
                 = LinkedIdentifier.confidence linked)
       /\ forall src,
            src ∈ LinkedIdentifier.sources linked ->
            exists page i,
              page ∈ pages /\ i ∈ PageEntities.identifiers page
              /\ PageEntities.page_index page = src.1
              /\ IdentifierMatch.kind i = LinkedIdentifier.kind linked
              /\ IdentifierMatch.word_indices i = src.2.
Proof.
  intros H Hin. apply link_clusters_from in H as (cs & -> & Hshape & Hfrom).
  apply list_elem_of_In, in_map_iff in Hin as (c & <- & Hc).
  apply list_elem_of_In in Hc.
  rewrite Forall_forall in Hshape, Hfrom.
  destruct (Hshape c Hc) as (_ & _ & Hkinds).
  destruct (Hfrom c Hc) as (Hpages & Hall).
  split.
  - intros p Hp. cbn in Hp. apply elem_of_sort_by in Hp.
    destruct (Hpages p Hp) as (i & Hi).
    apply elem_of_page_items in Hi as (page & Hpage & Hidx & Hi).
    exists page. split; [exact Hpage|]. split; [exact Hidx|].
    intros E. rewrite E in Hi. inversion Hi.
  - intros linked Hl. cbn in Hl.
    apply list_elem_of_In, in_map_iff in Hl as (v & <- & Hv).
    apply list_elem_of_In, elem_of_sort_by, list_elem_of_fmap in Hv
      as ([k v'] & -> & Hv).
    apply elem_of_map_to_list in Hv. cbn [snd LinkedIdentifier.kind
      LinkedIdentifier.value LinkedIdentifier.confidence LinkedIdentifier.sources].
    destruct (Hkinds k v' Hv) as (Hk & _).
    destruct (Hall k v' Hv)
      as ((p1 & i1 & Hi1 & Hk1 & Hv1) & (p2 & i2 & Hi2 & Hk2 & Hc2) & Hsrc).
    rewrite Hk. split; [|split].
    + apply elem_of_page_items in Hi1 as (page & Hpage & _ & Hi).
      exists page, i1. auto.
    + apply elem_of_page_items in Hi2 as (page & Hpage & _ & Hi).
      exists page, i2. rewrite Hc2. auto.
    + intros src Hs. destruct (Hsrc src Hs) as (i & Hi & Hki & Hw).
      apply elem_of_page_items in Hi as (page & Hpage & Hidx & Hi).
      exists page, i. auto.
Qed.
End LinkFrom.
(** ** Entity linker: kinds the linker does not know *)

Section UnknownKind.
Context (fuzz : Fuzz) (settings : Settings).

Lemma unknown_kind_eqb (kind : string) :
  kind ∉ four_kinds ->
  String.eqb kind "name" = false /\ String.eqb kind "mrn" = false
  /\ String.eqb kind "dob" = false /\ String.eqb kind "phone" = false.
Proof.
  intros Hkind. unfold four_kinds in Hkind.
  repeat split; apply String.eqb_neq; intros ->; apply Hkind; set_solver.
Qed.

Lemma match_identifier_unknown cluster identifier :
  IdentifierMatch.kind identifier ∉ four_kinds ->
  PatientEntityLinker._match_identifier fuzz cluster identifier = Ok 0%Q.
Proof.
  intros Hkind. unfold PatientEntityLinker._match_identifier.
  destruct (ClusterCandidate.identifiers cluster !! IdentifierMatch.kind identifier);
    [|reflexivity].
  destruct (unknown_kind_eqb _ Hkind) as (-> & -> & -> & ->). reflexivity.
Qed.

Lemma best_match_unknown identifier cs h bc :
  IdentifierMatch.kind identifier ∉ four_kinds ->
  PatientEntityLinker.best_match fuzz identifier cs h bc 0%Q = Ok (bc, 0%Q).
Proof.
  intros Hkind. revert h. induction cs as [|c cs IH]; intros h; cbn;
    [reflexivity|].
  rewrite (match_identifier_unknown c identifier Hkind). cbn. apply IH.
Qed.

(** X19.  An identifier whose kind is none of name, mrn, dob and phone is
    never compared, merged or attached: the step of [link] for it appends
    a cluster holding it alone, whatever the clusters and the anchors are,
    and leaves the anchors as they were. *)
Theorem link_identifier_unknown_kind (page_index : Z)
    (st : PatientEntityLinker.state) (anchors : list (nat * nat))
    (sites : list PatientEntityLinker.return_site) (idx : nat)
    (identifier : IdentifierMatch.t) :
  IdentifierMatch.kind identifier ∉ four_kinds ->
  PatientEntityLinker.link_identifier fuzz settings page_index
    (st, anchors, sites) (idx, identifier)
  = Ok ({| PatientEntityLinker.clusters :=
             PatientEntityLinker.clusters st
             ++ [PatientEntityLinker.new_cluster
                   ("patient_" +:+ PatientEntityLinker.format_03d
                      (PatientEntityLinker.next_patient st))
                   identifier page_index];
           PatientEntityLinker.next_patient :=
             S (PatientEntityLinker.next_patient st) |},
        anchors, sites ++ [PatientEntityLinker.At_create]).
Proof.
  intros Hkind.
  assert (Hsup : PatientEntityLinker.supportive_kinds
                   (IdentifierMatch.kind identifier) = false).
  { unfold PatientEntityLinker.supportive_kinds.
    destruct (unknown_kind_eqb _ Hkind) as (-> & _ & -> & ->). reflexivity. }
  assert (Hanchor : PatientEntityLinker.anchor_kinds
                      (IdentifierMatch.kind identifier) = false).
  { unfold PatientEntityLinker.anchor_kinds.
    apply (unknown_kind_eqb _ Hkind). }
  assert (Hpf : PatientEntityLinker.preferred_for idx
                  (IdentifierMatch.kind identifier) anchors = Ok (None, false)).
  { unfold PatientEntityLinker.preferred_for. rewrite Hsup.
    destruct anchors; reflexivity. }
  rewrite (link_identifier_eq fuzz settings _ _ _ _ _ _ _ _ _ Hpf
             (best_match_unknown identifier _ 0 None Hkind)).
  rewrite resolution_without_merge by (left; reflexivity).
  cbn. unfold PatientEntityLinker.record_anchor. rewrite Hanchor, Hsup.
  reflexivity.
Qed.
End UnknownKind.
Lemma link_patients_shape_witness :
  exists out patient,
    PatientEntityLinker.link fuzz_exact default_settings two_page_document = Ok out
    /\ patient ∈ out
    /\ StronglySorted Z.lt (LinkedPatient.pages patient)
    /\ LinkedPatient.pages patient <> [].
Proof.
  eexists _, _. split; [vm_compute; reflexivity|]. split; [left|].
  destruct (link_patients_shape fuzz_exact default_settings two_page_document
              _ _ eq_refl (list_elem_of_here _ _)) as (H1 & H2 & _).
  split; [exact H1 | exact H2].
Defined.

Lemma link_records_every_identifier_witness :
  exists out patient linked,
    PatientEntityLinker.link fuzz_exact default_settings two_page_document = Ok out
    /\ patient ∈ out
    /\ linked ∈ LinkedPatient.identifiers patient
    /\ LinkedIdentifier.kind linked = "dob"
    /\ (1%Z, []) ∈ LinkedIdentifier.sources linked
    /\ 1%Z ∈ LinkedPatient.pages patient.
Proof.
  assert (Hlink : exists out,
             PatientEntityLinker.link fuzz_exact default_settings
               two_page_document = Ok out)
    by (eexists; vm_compute; reflexivity).
  destruct Hlink as (out & Hout).
  destruct (link_records_every_identifier fuzz_exact default_settings
              two_page_document out
              (page_of 1 [identifier_match "mrn" "12345" (7 # 10);
                          identifier_match "dob" "01/02/1990" (9 # 10)])
              (identifier_match "dob" "01/02/1990" (9 # 10)) Hout)
    as (patient & linked & H).
  - right. left.
  - right. left.
  - exists out, patient, linked. split; [exact Hout | exact H].
Defined.

Lemma link_invents_nothing_witness :
  exists out patient,
    PatientEntityLinker.link fuzz_exact default_settings two_page_document = Ok out
    /\ patient ∈ out
    /\ forall p, p ∈ LinkedPatient.pages patient ->
          exists page, page ∈ two_page_document
                       /\ PageEntities.page_index page = p
                       /\ PageEntities.identifiers page <> [].
Proof.
  eexists _, _. split; [vm_compute; reflexivity|]. split; [left|].
  apply (link_invents_nothing fuzz_exact default_settings two_page_document
           _ _ eq_refl (list_elem_of_here _ _)).
Defined.

Lemma link_identifier_unknown_kind_witness :
  let identifier := identifier_match "ssn" "123-45-6789" (9 # 10) in
  PatientEntityLinker.link_identifier fuzz_exact default_settings 1
    (one_cluster_state identifier, [(0%nat, 0%nat)], []) (1%nat, identifier)
  = Ok ({| PatientEntityLinker.clusters :=
             [PatientEntityLinker.new_cluster "patient_001" identifier 0;
              PatientEntityLinker.new_cluster "patient_002" identifier 1];
           PatientEntityLinker.next_patient := 3 |},
        [(0%nat, 0%nat)], [PatientEntityLinker.At_create]).
Proof.
  intros identifier.
  apply (link_identifier_unknown_kind fuzz_exact default_settings 1
           (one_cluster_state identifier) [(0%nat, 0%nat)] [] 1 identifier).
  apply (bool_decide_unpack _). vm_compute. exact I.
Defined.

(** ** Page assigner: the assignment of one page *)

Section AssignResult.
Context (arith : Binary64) (fuzz : Fuzz) (settings : Settings).

Lemma score_page_facts page patient s :
  PageAssigner._score_page arith fuzz settings page patient = Ok s ->
  AssignmentScore.patient_id s = LinkedPatient.patient_id patient
  /\ (AssignmentScore.score s <= 1)%Q
  /\ Forall (fun r => exists i, i ∈ PageEntities.identifiers page
                                /\ AssignmentReason.kind r = IdentifierMatch.kind i)
            (AssignmentScore.reasons s).
Proof.
  intros H. unfold PageAssigner._score_page in H.
  apply rbind_ok in H as (acc & Hacc & H). injection H as <-.
  cbn [AssignmentScore.patient_id AssignmentScore.score AssignmentScore.reasons].
  split; [reflexivity|]. split.
  - destruct (round3_bounds (Qmin acc.1 1) 1000) as [_ U].
    apply (Qle_trans _ (1000 # 1000)); [|discriminate].
    apply U. apply (Qle_trans _ 1); [apply Qmin_spec | discriminate].
  - revert Hacc.
    apply (rfold_inv_in
             (fun acc : Q * list AssignmentReason.t =>
                Forall (fun r => exists i, i ∈ PageEntities.identifiers page
                                           /\ AssignmentReason.kind r
                                              = IdentifierMatch.kind i) acc.2));
      [|constructor].
    intros a identifier a' Hin Ha Hbody.
    apply rbind_ok in Hbody as (bb & _ & Hbody).
    destruct (Qgtb bb.1 0); injection Hbody as <-; [|exact Ha].
    cbn. apply Forall_app. split; [exact Ha|].
    constructor; [|constructor]. exists identifier. split; [exact Hin | reflexivity].
Qed.

Lemma ranked_scores_elem page patients ranked s :
  PageAssigner.ranked_scores arith fuzz settings page patients = Ok ranked ->
  s ∈ ranked ->
  (0 < AssignmentScore.score s)%Q
  /\ exists patient, patient ∈ patients
                     /\ PageAssigner._score_page arith fuzz settings page patient = Ok s.
Proof.
  intros H Hs. unfold PageAssigner.ranked_scores in H.
  apply rbind_ok in H as (scores & Hscores & H). injection H as <-.
  apply elem_of_sort_by, list_elem_of_In, filter_In in Hs as [Hs Hpos].
  split; [apply Qgtb_true, Hpos|].
  apply (rmap_elem_of _ _ _ _ Hscores), list_elem_of_In, Hs.
Qed.

Lemma assign_single_page_facts (page : PageEntities.t)
    (patients : list LinkedPatient.t) (a : PageAssignment.t) :
  PageAssigner._assign_single_page arith fuzz settings page patients = Ok a ->
  PageAssignment.page_index a = PageEntities.page_index page
  /\ (0 <= PageAssignment.confidence a <= 1)%Q
  /\ Forall (fun r => exists i, i ∈ PageEntities.identifiers page
                                /\ AssignmentReason.kind r = IdentifierMatch.kind i)
            (PageAssignment.reasons a)
  /\ match PageAssignment.patient_id a with
     | None =>
         PageAssignment.reasons a = [] /\ PageAssignment.manual_review a = true
     | Some id =>
         (exists patient, patient ∈ patients
                          /\ LinkedPatient.patient_id patient = id)
         /\ PageAssignment.reasons a <> []
         /\ (0 < PageAssignment.confidence a)%Q
     end
  /\ (PageAssignment.manual_review a = false ->
      PageAssignment.patient_id a <> None
      /\ (assign_min_confidence settings <= PageAssignment.confidence a)%Q).
Proof.
  intros H.
  split; [apply (assign_single_page_index arith fuzz settings _ _ _ H)|].
  destruct (PageAssigner.ranked_scores arith fuzz settings page patients)
    as [[|top others]|e] eqn:Hranked.
  - unfold PageAssigner._assign_single_page in H. rewrite Hranked in H.
    injection H as <-. cbn.
    split; [split; [apply Qle_refl | discriminate]|].
    split; [constructor|]. split; [split; reflexivity | discriminate].
  - destruct (ranked_scores_spec arith fuzz settings _ _ _ _ Hranked)
      as (Hpos & _ & Hreasons).
    destruct (ranked_scores_elem _ _ _ top Hranked (list_elem_of_here _ _))
      as (_ & patient & Hpatient & Hscore).
    destruct (score_page_facts _ _ _ Hscore) as (Hid & Hle & Hkinds).
    rewrite (assign_single_page_ranked arith fuzz settings _ _ _ _ Hranked) in H.
    assert (Hconf : (0 <= AssignmentScore.score top <= 1)%Q)
      by (split; [apply Qlt_le_weak, Hpos | exact Hle]).
    assert (Hsome : exists p, p ∈ patients
                              /\ LinkedPatient.patient_id p
                                 = AssignmentScore.patient_id top)
      by (exists patient; auto).
    destruct (Qltb (AssignmentScore.score top) (assign_min_confidence settings))
      eqn:Hlow; injection H as <-; cbn.
    + split; [exact Hconf|].
      destruct (assign_allow_unassigned settings); cbn.
      * split; [constructor|]. split; [split; reflexivity | discriminate].
      * split; [exact Hkinds|]. split; [auto | discriminate].
    + split; [exact Hconf|]. split; [exact Hkinds|]. split; [auto|].
      intros _. split; [discriminate|].
      apply (Qgtb_false (assign_min_confidence settings)). exact Hlow.
  - unfold PageAssigner._assign_single_page in H. rewrite Hranked in H.
    discriminate.
Qed.

(** X21.  What [_assign_single_page] returns: the page's index; a
    confidence between 0 and 1; reasons only of kinds found on the page;
    without a patient id no reasons and the manual-review flag; with a
    patient id that of one of the patients, at least one reason and a
    positive confidence.  Only a page with a patient id and a confidence
    of at least the minimum is left unflagged. *)
Theorem assign_single_page_result (page : PageEntities.t)
    (patients : list LinkedPatient.t) (a : PageAssignment.t) :
  PageAssigner._assign_single_page arith fuzz settings page patients = Ok a ->
  PageAssignment.page_index a = PageEntities.page_index page
  /\ (0 <= PageAssignment.confidence a <= 1)%Q
  /\ Forall (fun r => exists i, i ∈ PageEntities.identifiers page
                                /\ AssignmentReason.kind r = IdentifierMatch.kind i)
            (PageAssignment.reasons a)
  /\ match PageAssignment.patient_id a with
     | None =>
         PageAssignment.reasons a = [] /\ PageAssignment.manual_review a = true
     | Some id =>
         (exists patient, patient ∈ patients
                          /\ LinkedPatient.patient_id patient = id)
         /\ PageAssignment.reasons a <> []
         /\ (0 < PageAssignment.confidence a)%Q
     end
  /\ (PageAssignment.manual_review a = false ->
      PageAssignment.patient_id a <> None
      /\ (assign_min_confidence settings <= PageAssignment.confidence a)%Q).
Proof. apply assign_single_page_facts. Qed.
End AssignResult.
(** ** Page assigner: the summary *)

Lemma rmap_Forall2 {A B} (f : A -> result B) (l : list A) (r : list B) :
  rmap f l = Ok r -> Forall2 (fun x y => f x = Ok y) l r.
Proof.
  revert r. induction l as [|x l IH]; intros r H; cbn in H.
  - injection H as <-. constructor.
  - apply rbind_ok in H as (y & Hy & H). apply rbind_ok in H as (ys & Hys & H).
    injection H as <-. constructor; [exact Hy | apply IH, Hys].
Qed.

Lemma rmap_returns {A B} (f : A -> result B) (l : list A) :
  Forall (fun x => exists y, f x = Ok y) l -> exists r, rmap f l = Ok r.
Proof.
  induction 1 as [|x l (y & Hy) _ (r & Hr)]; cbn; [eauto|].
  rewrite Hy, Hr. cbn. eauto.
Qed.

Lemma filter_fmap_sublist {A B} (f : A -> B) (p : A -> bool) (l : list A) :
  (f <$> List.filter p l) `sublist_of` (f <$> l).
Proof.
  induction l as [|x l IH]; cbn; [constructor|].
  destruct (p x); cbn; [apply sublist_skip | apply sublist_cons]; exact IH.
Qed.

Lemma filter_disjoint_length {A} (p q : A -> bool) (l : list A) :
  (forall x, p x = true -> q x = false) ->
  (length (List.filter p l) + length (List.filter q l) <= length l)%nat.
Proof.
  intros Hpq. induction l as [|x l IH]; cbn; [lia|].
  destruct (p x) eqn:Hp; [rewrite (Hpq x Hp); cbn; lia|].
  destruct (q x); cbn; lia.
Qed.

Lemma filter_none {A} (p : A -> bool) (l : list A) :
  Forall (fun x => p x = false) l -> List.filter p l = [].
Proof.
  induction 1 as [|x l Hx _ IH]; cbn; [reflexivity|]. rewrite Hx. exact IH.
Qed.

Section AssignPages.
Context (arith : Binary64) (fuzz : Fuzz) (settings : Settings).

(** X22.  [assign_pages] assigns every page on its own: the summary
    holds one assignment per page, in page order, each the result of
    [_assign_single_page] on that page with all the patients.  The
    unassigned and the ambiguous pages are taken in page order from the
    pages, and no assignment counts for both. *)
Theorem assign_pages_one_per_page (pages : list PageEntities.t)
    (patients : list LinkedPatient.t) (summary : DocumentAssignmentSummary.t) :
  PageAssigner.assign_pages arith fuzz settings pages patients = Ok summary ->
  Forall2 (fun page a =>
             PageAssigner._assign_single_page arith fuzz settings page patients = Ok a)
          pages (DocumentAssignmentSummary.assignments summary)
  /\ PageAssignment.page_index <$> DocumentAssignmentSummary.assignments summary
     = PageEntities.page_index <$> pages
  /\ DocumentAssignmentSummary.unassigned_pages summary
       `sublist_of` (PageEntities.page_index <$> pages)
  /\ DocumentAssignmentSummary.ambiguous_pages summary
       `sublist_of` (PageEntities.page_index <$> pages)
  /\ (length (DocumentAssignmentSummary.unassigned_pages summary)
      + length (DocumentAssignmentSummary.ambiguous_pages summary)
      <= length pages)%nat.
Proof.
  intros H. unfold PageAssigner.assign_pages in H.
  destruct (assign_pages_from arith fuzz settings _ _ _ _ H)
    as (results & Hres & Hass & Hun & Hamb).
  cbn in Hass, Hun, Hamb. rewrite Hass, Hun, Hamb.
  pose proof (rmap_Forall2 _ _ _ Hres) as Hall.
  assert (Hidx : PageAssignment.page_index <$> results
                 = PageEntities.page_index <$> pages).
  { clear -Hall. induction Hall as [|page a pages results Ha _ IH];
      [reflexivity|].
    cbn. rewrite IH, (assign_single_page_index arith fuzz settings _ _ _ Ha).
    reflexivity. }
  split; [exact Hall|]. split; [exact Hidx|].
  rewrite <- Hidx.
  split; [apply filter_fmap_sublist|]. split; [apply filter_fmap_sublist|].
  rewrite !length_fmap, (Forall2_length _ _ _ Hall).
  apply filter_disjoint_length.
  intros a Ha. unfold is_ambiguous. rewrite Ha. reflexivity.
Qed.

Lemma score_page_no_identifiers page patient :
  PageEntities.identifiers page = [] ->
  exists s, PageAssigner._score_page arith fuzz settings page patient = Ok s
            /\ Qgtb (AssignmentScore.score s) 0 = false.
Proof.
  intros Hnil. unfold PageAssigner._score_page. rewrite Hnil. cbn.
  eexists. split; [reflexivity|]. reflexivity.
Qed.

Lemma assign_pages_none_from (done pages : list PageEntities.t) :
  rfold (PageAssigner.assign_page arith fuzz settings []) pages
    {| DocumentAssignmentSummary.assignments := no_candidate <$> done;
       DocumentAssignmentSummary.unassigned_pages :=
         PageEntities.page_index <$> done;
       DocumentAssignmentSummary.ambiguous_pages := [] |}
  = Ok {| DocumentAssignmentSummary.assignments := no_candidate <$> done ++ pages;
          DocumentAssignmentSummary.unassigned_pages :=
            PageEntities.page_index <$> done ++ pages;
          DocumentAssignmentSummary.ambiguous_pages := [] |}.
Proof.
  revert done. induction pages as [|page pages IH]; intros done; cbn [rfold].
  - rewrite !app_nil_r. reflexivity.
  - unfold PageAssigner.assign_page at 1. cbn.
    replace (done ++ page :: pages) with ((done ++ [page]) ++ pages)
      by (rewrite <- app_assoc; reflexivity).
    rewrite <- IH. rewrite !fmap_app. reflexivity.
Qed.

(** X23.  Without patients every page gets the assignment of a page
    without candidate: no patient id, confidence 0, no reasons, flagged
    for manual review; all pages are listed as unassigned and none as
    ambiguous.  A page without identifiers gets that assignment whatever
    the patients are. *)
Theorem assign_pages_without_candidates :
  (forall pages,
      PageAssigner.assign_pages arith fuzz settings pages []
      = Ok {| DocumentAssignmentSummary.assignments := no_candidate <$> pages;
              DocumentAssignmentSummary.unassigned_pages :=
                PageEntities.page_index <$> pages;
              DocumentAssignmentSummary.ambiguous_pages := [] |})
  /\ (forall page patients,
         PageEntities.identifiers page = [] ->
         PageAssigner._assign_single_page arith fuzz settings page patients
         = Ok (no_candidate page)).
Proof.
  split.
  - intros pages. apply (assign_pages_none_from [] pages).
  - intros page patients Hnil.
    assert (Hranked : PageAssigner.ranked_scores arith fuzz settings page patients
                      = Ok []).
    { unfold PageAssigner.ranked_scores.
      destruct (rmap_returns (PageAssigner._score_page arith fuzz settings page) patients)
        as (scores & Hscores).
      { apply Forall_forall. intros patient _.
        destruct (score_page_no_identifiers page patient Hnil) as (s & Hs & _).
        eauto. }
      rewrite Hscores. cbn. rewrite filter_none; [reflexivity|].
      apply Forall_forall. intros s Hs.
      destruct (rmap_elem_of _ _ _ _ Hscores Hs) as (patient & _ & Hp).
      destruct (score_page_no_identifiers page patient Hnil) as (s' & Hs' & Hz).
      congruence. }
    unfold PageAssigner._assign_single_page. rewrite Hranked. reflexivity.
Qed.
End AssignPages.
(** ** Page assigner: when it returns *)

Section AssignReturns.
Context (arith : Binary64) (fuzz : Fuzz) (settings : Settings).

Lemma compare_returns kind a b :
  (kind = "dob" -> dob_normalises a /\ dob_normalises b) ->
  exists s, PageAssigner._compare fuzz kind a b = Ok s.
Proof.
  intros H. unfold PageAssigner._compare.
  destruct (String.eqb kind "mrn"); [eauto|].
  destruct (String.eqb_spec kind "dob") as [Hdob|_].
  - destruct (H Hdob) as [(na & Ha) (nb & Hb)].
    rewrite (score_dob_categorical _ _ _ _ Ha Hb). eauto.
  - destruct (String.eqb kind "phone"); [eauto|].
    destruct (String.eqb kind "name"); eauto.
Qed.

Lemma best_candidate_returns identifier patient :
  identifier_safe identifier -> patient_safe patient ->
  exists bb,
    PageAssigner.best_candidate fuzz identifier
      (PageAssigner.patient_lookup patient (IdentifierMatch.kind identifier))
    = Ok bb.
Proof.
  intros Hi Hp. unfold PageAssigner.best_candidate.
  match goal with
  | |- context [rfold ?body ?items ?init] =>
      destruct (rfold_returns (fun _ : Q * option string => True)
                  (fun c => IdentifierMatch.kind identifier = "dob" ->
                            dob_normalises (LinkedIdentifier.value c))
                  body) with (l := items) (s := init) as (bb & Hbb & _)
  end.
  - intros acc c _ Hc.
    destruct (compare_returns (IdentifierMatch.kind identifier)
                (IdentifierMatch.value identifier) (LinkedIdentifier.value c))
      as (s & ->); [auto|].
    cbn. eauto.
  - apply Forall_forall. intros c Hc Hdob.
    unfold PageAssigner.patient_lookup in Hc.
    apply list_elem_of_In, filter_In in Hc as [Hc Hk].
    apply String.eqb_eq in Hk. unfold patient_safe in Hp.
    rewrite Forall_forall in Hp. apply Hp; [apply list_elem_of_In, Hc|].
    congruence.
  - exact I.
  - eauto.
Qed.

Lemma score_page_returns page patient :
  page_safe page -> patient_safe patient ->
  exists s, PageAssigner._score_page arith fuzz settings page patient = Ok s.
Proof.
  intros Hpage Hpatient. unfold PageAssigner._score_page. cbv zeta.
  match goal with
  | |- context [rfold ?body ?items ?init] =>
      destruct (rfold_returns (fun _ : Q * list AssignmentReason.t => True)
                  identifier_safe body) with (l := items) (s := init)
        as (acc & Hacc & _)
  end.
  - intros acc identifier _ Hi. cbv zeta.
    destruct (best_candidate_returns identifier patient Hi Hpatient) as (bb & ->).
    cbn. destruct (Qgtb bb.1 0); eauto.
  - exact Hpage.
  - exact I.
  - rewrite Hacc. cbn. eauto.
Qed.

Lemma assign_pages_returns_safe pages patients :
  Forall page_safe pages -> Forall patient_safe patients ->
  exists summary,
    PageAssigner.assign_pages arith fuzz settings pages patients = Ok summary.
Proof.
  intros Hpages Hpatients. unfold PageAssigner.assign_pages.
  destruct (rfold_returns (fun _ : DocumentAssignmentSummary.t => True) page_safe
              (PageAssigner.assign_page arith fuzz settings patients))
    with (l := pages) (s := PageAssigner.empty_summary) as (summary & Hs & _);
    [|exact Hpages | exact I | eauto].
  intros acc page _ Hpage. unfold PageAssigner.assign_page.
  assert (Hsingle : exists a,
             PageAssigner._assign_single_page arith fuzz settings page patients = Ok a).
  { unfold PageAssigner._assign_single_page, PageAssigner.ranked_scores.
    destruct (rmap_returns (PageAssigner._score_page arith fuzz settings page) patients)
      as (scores & ->).
    { eapply Forall_impl; [exact Hpatients|]. cbn. intros patient Hp.
      apply score_page_returns; assumption. }
    cbn. destruct (PageAssigner.sort_scores _) as [|top others]; [eauto|].
    destruct (Qltb _ _); eauto. }
  destruct Hsingle as (a & ->). cbn. eauto.
Qed.

(** X24.  [assign_pages] raises only through a date of birth: when every
    date of birth on the pages and among the patients' identifiers is a
    value on which [_normalize_dob] returns, [assign_pages] returns a
    summary. *)
Theorem assign_pages_returns (pages : list PageEntities.t)
    (patients : list LinkedPatient.t) :
  Forall page_safe pages -> Forall patient_safe patients ->
  exists summary,
    PageAssigner.assign_pages arith fuzz settings pages patients = Ok summary.
Proof. apply assign_pages_returns_safe. Qed.

(** X25.  Linking and then assigning, as [process_pdf] does: when every
    date of birth on the pages is a value on which [_normalize_dob]
    returns, [link] returns the patients and [assign_pages] on the same
    pages and these patients returns a summary with one assignment per
    page. *)
Theorem link_then_assign_returns (pages : list PageEntities.t) :
  Forall page_safe pages ->
  exists patients summary,
    PatientEntityLinker.link fuzz settings pages = Ok patients
    /\ PageAssigner.assign_pages arith fuzz settings pages patients = Ok summary
    /\ length (DocumentAssignmentSummary.assignments summary) = length pages.
Proof.
  intros Hpages.
  destruct (link_returns fuzz settings pages Hpages) as (patients & Hlink).
  assert (Hsafe : Forall patient_safe patients).
  { destruct (link_clusters_from fuzz settings pages patients Hlink)
      as (cs & -> & Hshape & Hfrom).
    apply Forall_forall. intros patient Hin.
    apply list_elem_of_In, in_map_iff in Hin as (c & <- & Hc).
    apply list_elem_of_In in Hc.
    rewrite Forall_forall in Hshape, Hfrom.
    destruct (Hshape c Hc) as (_ & _ & Hkinds).
    destruct (Hfrom c Hc) as (_ & Hall).
    unfold patient_safe. cbn. apply Forall_forall. intros linked Hl.
    apply list_elem_of_In, in_map_iff in Hl as (v & <- & Hv).
    apply list_elem_of_In, elem_of_sort_by, list_elem_of_fmap in Hv
      as ([k v'] & -> & Hv).
    apply elem_of_map_to_list in Hv. cbn. intros Hdob.
    destruct (Hkinds k v' Hv) as (Hk & _).
    destruct (Hall k v' Hv) as ((p & i & Hi & Hki & Hvi) & _).
    apply elem_of_page_items in Hi as (page & Hpage & _ & Hi).
    rewrite <- Hvi.
    rewrite Forall_forall in Hpages. specialize (Hpages page Hpage).
    unfold page_safe in Hpages. rewrite Forall_forall in Hpages.
    apply (Hpages i Hi). congruence. }
  destruct (assign_pages_returns_safe pages patients Hpages Hsafe)
    as (summary & Hsummary).
  exists patients, summary. split; [exact Hlink|]. split; [exact Hsummary|].
  unfold PageAssigner.assign_pages in Hsummary.
  destruct (assign_pages_from arith fuzz settings _ _ _ _ Hsummary)
    as (results & Hres & Hass & _).
  cbn in Hass. rewrite Hass. apply rmap_length in Hres. exact Hres.
Qed.
End AssignReturns.

Lemma assign_pages_returns_witness :
  exists summary,
    PageAssigner.assign_pages binary64 fuzz_exact default_settings two_page_document
      [dob_patient "patient_001" "1-2-90"] = Ok summary.
Proof.
  apply (assign_pages_returns binary64 fuzz_exact default_settings two_page_document
           [dob_patient "patient_001" "1-2-90"]).
  - repeat constructor; intros H;
      first [discriminate H | eexists; vm_compute; reflexivity].
  - repeat constructor; intros H; eexists; vm_compute; reflexivity.
Defined.

Lemma link_then_assign_returns_witness :
  exists patients summary,
    PatientEntityLinker.link fuzz_exact default_settings two_page_document
      = Ok patients
    /\ PageAssigner.assign_pages binary64 fuzz_exact default_settings two_page_document
         patients = Ok summary
    /\ length (DocumentAssignmentSummary.assignments summary) = 2%nat.
Proof.
  apply (link_then_assign_returns binary64 fuzz_exact default_settings two_page_document).
  repeat constructor; intros H;
    first [discriminate H | eexists; vm_compute; reflexivity].
Defined.
(** ** Page assigner: the best candidate of an identifier *)

Section BestCandidate.
Context (fuzz : Fuzz).

Abbreviation compare_with identifier c :=
  (PageAssigner._compare fuzz (IdentifierMatch.kind identifier)
     (IdentifierMatch.value identifier) (LinkedIdentifier.value c)).

Abbreviation best_step identifier :=
  (fun (acc : Q * option string) candidate =>
     current ← compare_with identifier candidate;
     Ok (if Qgtb current acc.1
         then (current, Some (LinkedIdentifier.value candidate))
         else acc)).

Lemma best_candidate_from identifier (matches : list LinkedIdentifier.t)
    (b0 : Q) (v0 : option string) (best : Q) (bv : option string) :
  rfold (best_step identifier) matches (b0, v0) = Ok (best, bv) ->
  (b0 <= best)%Q
  /\ (forall c, c ∈ matches ->
        exists s, compare_with identifier c = Ok s /\ (s <= best)%Q)
  /\ ((best, bv) = (b0, v0)
      \/ exists j c,
           matches !! j = Some c
           /\ bv = Some (LinkedIdentifier.value c)
           /\ compare_with identifier c = Ok best
           /\ (b0 < best)%Q
           /\ forall j' c' s', (j' < j)%nat -> matches !! j' = Some c' ->
                compare_with identifier c' = Ok s' -> (s' < best)%Q).
Proof.
  revert b0 v0. induction matches as [|m matches IH]; intros b0 v0 H; cbn in H.
  - injection H as <- <-. split; [apply Qle_refl|].
    split; [intros c Hc; inversion Hc | left; reflexivity].
  - apply rbind_ok in H as (acc & Hstep & H).
    apply rbind_ok in Hstep as (s & Hs & Hstep). injection Hstep as <-.
    cbn [fst] in H.
    destruct (Qgtb s b0) eqn:Hgt.
    + apply Qgtb_true in Hgt.
      destruct (IH _ _ H) as (Hle & Hall & Hcase).
      split; [eapply Qle_trans; [apply Qlt_le_weak, Hgt | exact Hle]|].
      split.
      * intros c Hc. apply elem_of_cons in Hc as [->|Hc]; [eauto | auto].
      * right. destruct Hcase as [Heq | (j & c & Hj & Hbv & Hc & Hlt & Hfirst)].
        -- injection Heq as -> ->. exists 0%nat, m.
           repeat split; try assumption; try reflexivity.
           intros j' c' s' Hj'. lia.
        -- exists (S j), c. repeat split; try assumption.
           ++ eapply Qlt_trans; eassumption.
           ++ intros [|j'] c' s' Hj' Hlook Hcmp; cbn in Hlook.
              ** injection Hlook as <-. rewrite Hs in Hcmp.
                 injection Hcmp as <-. exact Hlt.
              ** apply (Hfirst j' c' s'); [lia | assumption | assumption].
    + apply Qgtb_false in Hgt.
      destruct (IH _ _ H) as (Hle & Hall & Hcase).
      split; [exact Hle|]. split.
      * intros c Hc. apply elem_of_cons in Hc as [->|Hc]; [|auto].
        exists s. split; [exact Hs | eapply Qle_trans; eassumption].
      * destruct Hcase as [Heq | (j & c & Hj & Hbv & Hc & Hlt & Hfirst)];
          [left; exact Heq|].
        right. exists (S j), c. repeat split; try assumption.
        intros [|j'] c' s' Hj' Hlook Hcmp; cbn in Hlook.
        -- injection Hlook as <-. rewrite Hs in Hcmp. injection Hcmp as <-.
           eapply Qle_lt_trans; eassumption.
        -- apply (Hfirst j' c' s'); [lia | assumption | assumption].
Qed.

(** X26.  When [best_candidate] returns, its score is an upper bound of
    the comparisons of the identifier's value with every candidate.
    Either no comparison is above zero, and it returns score 0 and no
    value; or its score is positive and it returns the value of the first
    candidate, in the patient's order, whose comparison gives that
    score. *)
Theorem best_candidate_spec (identifier : IdentifierMatch.t)
    (matches : list LinkedIdentifier.t) (best : Q) (best_value : option string) :
  PageAssigner.best_candidate fuzz identifier matches = Ok (best, best_value) ->
  (forall c, c ∈ matches ->
     exists s, compare_with identifier c = Ok s /\ (s <= best)%Q)
  /\ match best_value with
     | None => best = 0%Q
     | Some v =>
         (0 < best)%Q
         /\ exists j c,
              matches !! j = Some c
              /\ LinkedIdentifier.value c = v
              /\ compare_with identifier c = Ok best
              /\ forall j' c' s', (j' < j)%nat -> matches !! j' = Some c' ->
                   compare_with identifier c' = Ok s' -> (s' < best)%Q
     end.
Proof.
  intros H. unfold PageAssigner.best_candidate in H.
  destruct (best_candidate_from _ _ _ _ _ _ H) as (_ & Hall & Hcase).
  split; [exact Hall|].
  destruct Hcase as [Heq | (j & c & Hj & Hbv & Hc & Hlt & Hfirst)].
  - injection Heq as -> ->. reflexivity.
  - rewrite Hbv. split; [exact Hlt|]. exists j, c. auto.
Qed.
End BestCandidate.

Lemma best_candidate_spec_witness :
  let identifier := identifier_match "dob" "01/02/1990" (9 # 10) in
  let matches := LinkedPatient.identifiers (dob_patient "patient_001" "1-2-90") in
  exists best v,
    PageAssigner.best_candidate fuzz_exact identifier matches = Ok (best, Some v)
    /\ (0 < best)%Q
    /\ exists j c, matches !! j = Some c /\ LinkedIdentifier.value c = v.
Proof.
  intros identifier matches.
  assert (H : exists best v,
             PageAssigner.best_candidate fuzz_exact identifier matches
             = Ok (best, Some v))
    by (eexists _, _; vm_compute; reflexivity).
  destruct H as (best & v & H). exists best, v. split; [exact H|].
  destruct (best_candidate_spec fuzz_exact identifier matches best (Some v) H)
    as (_ & Hpos & j & c & Hj & Hv & _).
  split; [exact Hpos|]. exists j, c. auto.
Defined.

Lemma assign_single_page_result_witness :
  let page := page_of 0 [identifier_match "dob" "01/02/1990" (9 # 10)] in
  let patients := [dob_patient "patient_001" "1-2-90"] in
  exists a,
    PageAssigner._assign_single_page binary64 fuzz_exact default_settings page patients
      = Ok a
    /\ PageAssignment.page_index a = 0%Z
    /\ (0 <= PageAssignment.confidence a <= 1)%Q.
Proof.
  intros page patients.
  assert (H : exists a,
             PageAssigner._assign_single_page binary64 fuzz_exact default_settings page
               patients = Ok a)
    by (eexists; vm_compute; reflexivity).
  destruct H as (a & H). exists a. split; [exact H|].
  destruct (assign_single_page_result binary64 fuzz_exact default_settings page patients
              a H) as (Hidx & Hconf & _).
  split; [exact Hidx | exact Hconf].
Defined.

Lemma assign_pages_one_per_page_witness :
  let patients := [dob_patient "patient_001" "1-2-90"] in
  exists summary,
    PageAssigner.assign_pages binary64 fuzz_exact default_settings two_page_document
      patients = Ok summary
    /\ PageAssignment.page_index <$> DocumentAssignmentSummary.assignments summary
       = [0%Z; 1%Z].
Proof.
  intros patients.
  assert (H : exists summary,
             PageAssigner.assign_pages binary64 fuzz_exact default_settings
               two_page_document patients = Ok summary)
    by (eexists; vm_compute; reflexivity).
  destruct H as (summary & H). exists summary. split; [exact H|].
  apply (assign_pages_one_per_page binary64 fuzz_exact default_settings
           two_page_document patients summary H).
Defined.
(** ** OCR words and their average confidence *)

Lemma word_of_facts (r : OCRProcessor.row) (w : OCRWord.t) :
  OCRProcessor.word_of r = Some w ->
  OCRWord.text w = OCRProcessor.text r
  /\ Py.strip (OCRWord.text w) <> EmptyString
  /\ (0 <= OCRWord.confidence w <= 1)%Q
  /\ exists v, OCRProcessor.conf r = Some v /\ (0 <= v)%Q.
Proof.
  unfold OCRProcessor.word_of. intros H.
  destruct (Py.strip (OCRProcessor.text r)) as [|c s] eqn:Hstrip;
    [discriminate|]. cbn [FuzzyMatcher.is_empty] in H.
  destruct (Qltb _ 0) eqn:Hneg; [discriminate|].
  injection H as <-. cbn [OCRWord.text OCRWord.confidence].
  split; [reflexivity|]. split; [rewrite Hstrip; discriminate|].
  apply (Qgtb_false 0) in Hneg.
  split.
  - set (x := Qmax _ 0).
    assert (Hx : (0 <= x)%Q) by apply Qmax_spec.
    destruct (Qmin_spec x 1) as (_ & H1 & [E|E]); rewrite E in *;
      split; try assumption; discriminate.
  - destruct (OCRProcessor.conf r) as [v|]; [eauto|].
    exfalso. apply Hneg. reflexivity.
Qed.

(** X27.  Every word [_run_tesseract] keeps has a text that is not
    blank and a confidence between 0 and 1; the words keep the order of
    the rows.  The average confidence of the page is absent exactly when
    no word is kept, and lies between 0 and 1 otherwise. *)
Theorem tesseract_average_confidence (rows : list OCRProcessor.row) :
  let words := OCRProcessor.tesseract_words rows in
  confidences_in_range words
  /\ Forall (fun w => Py.strip (OCRWord.text w) <> EmptyString) words
  /\ (OCRWord.text <$> words) `sublist_of` (OCRProcessor.text <$> rows)
  /\ match OCRProcessor._calculate_average_confidence words with
     | None => words = []
     | Some average => words <> [] /\ (0 <= average <= 1)%Q
     end.
Proof.
  intros words. subst words.
  assert (Hwords : Forall (fun w => (0 <= OCRWord.confidence w <= 1)%Q
                                    /\ Py.strip (OCRWord.text w) <> EmptyString)
                          (OCRProcessor.tesseract_words rows)).
  { unfold OCRProcessor.tesseract_words.
    induction rows as [|r rows IH]; cbn; [constructor|].
    destruct (OCRProcessor.word_of r) as [w|] eqn:Hw; [|exact IH].
    destruct (word_of_facts r w Hw) as (_ & Hs & Hc & _).
    constructor; [split; assumption | exact IH]. }
  assert (Hrange : confidences_in_range (OCRProcessor.tesseract_words rows)).
  { eapply Forall_impl; [exact Hwords|]. cbn. tauto. }
  split; [exact Hrange|]. split.
  { eapply Forall_impl; [exact Hwords|]. cbn. tauto. }
  split.
  { clear Hwords Hrange. unfold OCRProcessor.tesseract_words.
    induction rows as [|r rows IH]; cbn; [constructor|].
    destruct (OCRProcessor.word_of r) as [w|] eqn:Hw.
    - destruct (word_of_facts r w Hw) as (Ht & _).
      rewrite fmap_cons, Ht. apply sublist_skip, IH.
    - apply sublist_cons, IH. }
  unfold OCRProcessor._calculate_average_confidence.
  destruct (OCRProcessor.tesseract_words rows) as [|w ws] eqn:E;
    [reflexivity|].
  cbn [fmap list_fmap]. split; [discriminate|].
  apply (average_bounds (OCRWord.confidence w :: (OCRWord.confidence <$> ws)));
    [discriminate|].
  change (Forall (fun q => (0 <= q <= 1)%Q) (OCRWord.confidence <$> w :: ws)).
  apply Forall_fmap. exact Hrange.
Qed.

(** ** Document splitter *)

Lemma ofold_inv_seen {A S} (P : list A -> S -> Prop) (body : S -> A -> option S) :
  (forall seen s x s', P seen s -> body s x = Some s' -> P (seen ++ [x]) s') ->
  forall l seen s s',
    P seen s -> Extractor.ofold body l s = Some s' -> P (seen ++ l) s'.
Proof.
  intros Hstep l. induction l as [|x l IH]; intros seen s s' Hs H; cbn in H.
  - injection H as <-. rewrite app_nil_r. exact Hs.
  - destruct (body s x) as [s1|] eqn:E; cbn in H; [|discriminate].
    replace (seen ++ x :: l) with ((seen ++ [x]) ++ l)
      by (rewrite <- app_assoc; reflexivity).
    eapply IH; [|exact H]. eapply Hstep; eassumption.
Qed.

Lemma filter_snoc {A} (p : A -> bool) (l : list A) (x : A) :
  List.filter p (l ++ [x])
  = List.filter p l ++ (if p x then [x] else []).
Proof. rewrite List.filter_app. cbn. destruct (p x); reflexivity. Qed.

Lemma filter_partition_length {A} (p : A -> bool) (l : list A) :
  (length (List.filter p l) + length (List.filter (fun x => negb (p x)) l)
   = length l)%nat.
Proof.
  induction l as [|x l IH]; cbn; [reflexivity|].
  destruct (p x); cbn; lia.
Qed.

Lemma filter_ext_Forall {A} (p q : A -> bool) (l : list A) :
  Forall (fun x => p x = q x) l -> List.filter p l = List.filter q l.
Proof.
  induction 1 as [|x l Hx _ IH]; cbn; [reflexivity|].
  rewrite Hx, IH. reflexivity.
Qed.

Lemma belongs_inv num_pages k a :
  belongs num_pages k a = true
  <-> (PageAssignment.page_index a < num_pages)%Z
      /\ DocumentSplitter.truthy (PageAssignment.patient_id a) = Some k.
Proof.
  unfold belongs. rewrite andb_true_iff, Z.ltb_lt, bool_decide_eq_true.
  reflexivity.
Qed.

Lemma belongs_routed num_pages k a :
  belongs num_pages k a = true -> routed num_pages a = true.
Proof.
  intros H. apply belongs_inv in H as [Hlt Hk]. unfold routed.
  apply andb_true_iff. split; [apply Z.ltb_lt, Hlt|].
  apply bool_decide_eq_true. rewrite Hk. eauto.
Qed.

Lemma truthy_not_empty patient_id k :
  DocumentSplitter.truthy patient_id = Some k -> k <> EmptyString.
Proof.
  unfold DocumentSplitter.truthy. destruct patient_id as [[|c id]|]; cbn;
    intros H; [discriminate | | discriminate].
  injection H as <-. discriminate.
Qed.

Section SplitGroups.
Context {Page : Type} (split_include_unassigned : bool).
Context (num_pages : Z) (page_at : Z -> option Page).

Abbreviation add_to_patient := (@DocumentSplitter.add_to_patient Page).
Abbreviation split_step :=
  (@DocumentSplitter.split_step Page num_pages page_at).
Abbreviation split :=
  (@DocumentSplitter.split Page split_include_unassigned num_pages page_at).

Lemma add_to_patient_keys groups id page a :
  (add_to_patient groups id page a).*1
  = if bool_decide (id ∈ groups.*1) then groups.*1 else groups.*1 ++ [id].
Proof.
  induction groups as [|[k g] groups IH]; cbn.
  - rewrite bool_decide_eq_false_2 by (intros H; inversion H). reflexivity.
  - destruct (String.eqb_spec k id) as [->|Hne]; cbn.
    + rewrite bool_decide_eq_true_2 by left. reflexivity.
    + rewrite IH. case_bool_decide as Hin.
      * rewrite bool_decide_eq_true_2 by (right; exact Hin). reflexivity.
      * rewrite bool_decide_eq_false_2; [reflexivity|].
        intros H. apply elem_of_cons in H as [H|H]; [congruence | contradiction].
Qed.

Lemma add_to_patient_elem groups id page a k g :
  NoDup groups.*1 ->
  (k, g) ∈ add_to_patient groups id page a ->
  (k <> id /\ (k, g) ∈ groups)
  \/ (k = id
      /\ ((exists g0, (id, g0) ∈ groups /\ g = (g0.1 ++ [page], g0.2 ++ [a]))
          \/ ((id ∉ groups.*1) /\ g = ([page], [a])))).
Proof.
  induction groups as [|[k0 g0] groups IH]; cbn; intros Hnd H.
  - apply list_elem_of_singleton in H. injection H as -> ->.
    right. split; [reflexivity|]. right.
    split; [intros H; inversion H | reflexivity].
  - apply NoDup_cons in Hnd as [Hnotin Hnd].
    destruct (String.eqb_spec k0 id) as [->|Hne].
    + apply elem_of_cons in H as [H|H].
      * injection H as -> ->. right. split; [reflexivity|]. left.
        exists g0. split; [left | reflexivity].
      * left. split; [|right; exact H].
        intros ->. apply Hnotin. apply list_elem_of_fmap. exists (id, g). auto.
    + apply elem_of_cons in H as [H|H].
      * injection H as -> ->. left. split; [exact Hne | left].
      * destruct (IH Hnd H) as [[Hk Hin] | [-> [(g1 & Hin & ->) | [Hnot ->]]]].
        -- left. split; [exact Hk | right; exact Hin].
        -- right. split; [reflexivity|]. left. exists g1.
           split; [right; exact Hin | reflexivity].
        -- right. split; [reflexivity|]. right. split; [|reflexivity].
           intros Hin. apply elem_of_cons in Hin as [Hin|Hin];
             [congruence | contradiction].
Qed.

Lemma add_to_patient_total groups id page a :
  length (concat ((fun kv : string * (list Page * list PageAssignment.t) =>
                     kv.2.2) <$> add_to_patient groups id page a))
  = S (length (concat ((fun kv : string * (list Page * list PageAssignment.t) =>
                          kv.2.2) <$> groups))).
Proof.
  induction groups as [|[k g] groups IH]; cbn; [reflexivity|].
  destruct (String.eqb k id); cbn.
  - rewrite !length_app. cbn. lia.
  - rewrite !length_app, IH. lia.
Qed.

Lemma split_step_groups seen acc a acc' :
  groups_of num_pages acc.1 seen ->
  split_step acc a = Some acc' ->
  groups_of num_pages acc'.1 (seen ++ [a]).
Proof.
  destruct acc as [groups w]. cbn [fst snd].
  intros (Hnd & Hall & Hkeys & Htotal) H.
  assert (Hsame : (forall k, belongs num_pages k a = false) ->
                  groups_of num_pages groups (seen ++ [a])).
  { intros Hno. split; [exact Hnd|]. split; [|split].
    - intros k g Hin. rewrite filter_snoc, Hno, app_nil_r. apply Hall, Hin.
    - intros a' k Ha' Hb. apply elem_of_app in Ha' as [Ha'|Ha'];
        [eapply Hkeys; eassumption|].
      apply list_elem_of_singleton in Ha' as ->. rewrite Hno in Hb. discriminate.
    - rewrite filter_snoc. replace (routed num_pages a) with false;
        [rewrite app_nil_r; exact Htotal|].
      symmetry. apply not_true_is_false. intros Hr. unfold routed in Hr.
      apply andb_true_iff in Hr as [Hlt Hs].
      apply bool_decide_eq_true in Hs as [k Hk].
      specialize (Hno k). unfold belongs in Hno. rewrite Hlt, Hk in Hno.
      rewrite bool_decide_eq_true_2 in Hno by reflexivity. discriminate. }
  unfold DocumentSplitter.split_step in H. cbv zeta in H. cbn [fst snd] in H.
  destruct (Z.leb_spec num_pages (PageAssignment.page_index a)) as [Hout|Hin].
  { injection H as <-. apply Hsame. intros k. unfold belongs.
    replace (PageAssignment.page_index a <? num_pages)%Z with false;
      [reflexivity|]. symmetry. apply Z.ltb_ge. exact Hout. }
  destruct (DocumentSplitter.truthy (PageAssignment.patient_id a)) as [id|] eqn:Hid.
  2:{ assert (Hacc : acc'.1 = groups).
      { destruct w as [w|]; [|injection H as <-; reflexivity].
        destruct (page_at _); cbn in H; [|discriminate].
        injection H as <-. reflexivity. }
      rewrite Hacc. apply Hsame. intros k. unfold belongs. rewrite Hid.
      rewrite bool_decide_eq_false_2 by discriminate. apply andb_false_r. }
  destruct (page_at (PageAssignment.page_index a)) as [page|]; cbn in H;
    [|discriminate].
  injection H as <-. cbn [fst].
  assert (Hbel : belongs num_pages id a = true)
    by (apply belongs_inv; split; assumption).
  assert (Hother : forall k, k <> id -> belongs num_pages k a = false).
  { intros k Hk. apply not_true_is_false. intros Hb.
    apply belongs_inv in Hb as [_ Hb]. congruence. }
  split; [|split; [|split]].
  - rewrite add_to_patient_keys. case_bool_decide as Hmem; [exact Hnd|].
    apply NoDup_app. split; [exact Hnd|]. split; [|apply NoDup_singleton].
    intros x Hx Hx'. apply list_elem_of_singleton in Hx' as ->. contradiction.
  - intros k g Hg.
    apply (add_to_patient_elem _ _ _ _ _ _ Hnd) in Hg
      as [[Hk Hg] | [-> [(g0 & Hg0 & ->) | [Hnot ->]]]].
    + rewrite filter_snoc, (Hother k Hk), app_nil_r. apply Hall, Hg.
    + destruct (Hall id g0 Hg0) as (Hf & Hne & Hlen). cbn [fst snd].
      rewrite filter_snoc, Hbel, <- Hf.
      split; [reflexivity|].
      split; [intros E; apply app_eq_nil in E as [_ E]; discriminate|].
      rewrite !length_app, Hlen. reflexivity.
    + cbn [fst snd]. rewrite filter_snoc, Hbel.
      rewrite filter_none; [split; [reflexivity|]; split; [discriminate|reflexivity]|].
      apply Forall_forall. intros a' Ha'. apply not_true_is_false. intros Hb.
      apply Hnot. eapply Hkeys; eassumption.
  - intros a' k Ha' Hb. rewrite add_to_patient_keys.
    assert (Hk : k ∈ groups.*1 \/ k = id).
    { apply elem_of_app in Ha' as [Ha'|Ha']; [left; eapply Hkeys; eassumption|].
      apply list_elem_of_singleton in Ha' as ->.
      destruct (decide (k = id)) as [->|Hne]; [right; reflexivity|].
      rewrite (Hother k Hne) in Hb. discriminate. }
    case_bool_decide as Hmem.
    + destruct Hk as [Hk | ->]; assumption.
    + apply elem_of_app. destruct Hk as [Hk | ->]; [left; exact Hk | right; left].
  - rewrite add_to_patient_total, filter_snoc, (belongs_routed _ _ _ Hbel).
    rewrite length_app, Htotal. cbn. lia.
Qed.

Lemma split_groups summary result :
  split summary = Some result ->
  exists groups,
    groups_of num_pages groups (DocumentAssignmentSummary.assignments summary)
    /\ DocumentSplitResult.artifacts result
       = (fun kv : string * (list Page * list PageAssignment.t) =>
            DocumentSplitter._write_patient_artifact kv.1 kv.2.2) <$> groups
    /\ DocumentSplitResult.total_pages result
       = Z.of_nat (length (DocumentAssignmentSummary.assignments summary))
    /\ DocumentSplitResult.assigned_pages result
       = (Z.of_nat (length (DocumentAssignmentSummary.assignments summary))
          - Z.of_nat (length (DocumentAssignmentSummary.unassigned_pages summary)))%Z.
Proof.
  unfold DocumentSplitter.split. intros H.
  destruct (Extractor.ofold _ _ _) as [acc|] eqn:Hfold; cbn in H; [|discriminate].
  injection H as <-. exists acc.1. cbn. split; [|auto].
  apply (ofold_inv_seen
           (fun seen (acc : list (string * (list Page * list PageAssignment.t))
                            * option (list Page)) =>
              groups_of num_pages acc.1 seen)
           split_step split_step_groups _ [] _ _) in Hfold; [exact Hfold|].
  split; [constructor|]. split; [intros k g Hin; inversion Hin|].
  split; [intros a k Ha; inversion Ha | reflexivity].
Qed.

(** X28.  The documents [split] makes: one per patient id that is
    present, not empty, and named by an assignment whose page is below
    the number of pages of the source; no patient id twice.  The pages
    of a patient's document are the pages of exactly these assignments
    for that patient, in the order of the assignments, and never empty. *)
Theorem split_artifacts (summary : DocumentAssignmentSummary.t)
    (result : DocumentSplitResult.t) :
  split summary = Some result ->
  let assignments := DocumentAssignmentSummary.assignments summary in
  let ids := SplitArtifact.patient_id <$> DocumentSplitResult.artifacts result in
  NoDup ids
  /\ (forall id, id ∈ ids <->
                 exists a, a ∈ assignments /\ belongs num_pages id a = true)
  /\ Forall (fun id => id <> EmptyString) ids
  /\ Forall (fun artifact =>
               SplitArtifact.pages artifact
               = PageAssignment.page_index
                   <$> List.filter
                         (belongs num_pages (SplitArtifact.patient_id artifact))
                         assignments
               /\ SplitArtifact.pages artifact <> [])
            (DocumentSplitResult.artifacts result).
Proof.
  intros H assignments ids. subst assignments ids.
  destruct (split_groups _ _ H) as (groups & (Hnd & Hall & Hkeys & _) & -> & _).
  assert (Hids : SplitArtifact.patient_id
                   <$> ((fun kv : string * (list Page * list PageAssignment.t) =>
                           DocumentSplitter._write_patient_artifact kv.1 kv.2.2)
                          <$> groups)
                 = groups.*1).
  { rewrite <- list_fmap_compose. reflexivity. }
  rewrite Hids.
  assert (Hmem : forall id, id ∈ groups.*1 <->
                   exists a, a ∈ DocumentAssignmentSummary.assignments summary
                             /\ belongs num_pages id a = true).
  { intros id. split.
    - intros Hin. apply list_elem_of_fmap in Hin as ([k g] & -> & Hin). cbn.
      destruct (Hall k g Hin) as (Hf & Hne & _).
      destruct g.2 as [|a rest] eqn:E; [congruence|].
      assert (Ha : In a (List.filter (belongs num_pages k)
                           (DocumentAssignmentSummary.assignments summary)))
        by (rewrite <- Hf; left; reflexivity).
      apply filter_In in Ha as [Ha Hb]. exists a.
      split; [apply list_elem_of_In, Ha | exact Hb].
    - intros (a & Ha & Hb). eapply Hkeys; eassumption. }
  split; [exact Hnd|]. split; [exact Hmem|]. split.
  - apply Forall_forall. intros id Hin. apply Hmem in Hin as (a & _ & Hb).
    apply belongs_inv in Hb as [_ Hb]. eapply truthy_not_empty, Hb.
  - apply Forall_fmap, Forall_forall. intros [k g] Hin. cbn.
    destruct (Hall k g Hin) as (Hf & Hne & _). rewrite <- Hf.
    split; [reflexivity|]. destruct g.2; [congruence | discriminate].
Qed.
End SplitGroups.
Section SplitAfterAssign.
Context (arith : Binary64) (fuzz : Fuzz) (settings : Settings).
Context {Page : Type} (split_include_unassigned : bool).
Context (num_pages : Z) (page_at : Z -> option Page).

Lemma assign_pages_results pages patients summary :
  PageAssigner.assign_pages arith fuzz settings pages patients = Ok summary ->
  Forall2 (fun page a =>
             PageAssigner._assign_single_page arith fuzz settings page patients = Ok a)
          pages (DocumentAssignmentSummary.assignments summary)
  /\ DocumentAssignmentSummary.unassigned_pages summary
     = PageAssignment.page_index
         <$> List.filter is_unassigned (DocumentAssignmentSummary.assignments summary).
Proof.
  intros H. unfold PageAssigner.assign_pages in H.
  destruct (assign_pages_from arith fuzz settings _ _ _ _ H)
    as (results & Hres & Hass & Hun & _).
  cbn in Hass, Hun. rewrite Hass, Hun.
  split; [apply rmap_Forall2, Hres | reflexivity].
Qed.

(** X29.  Splitting the summary of [assign_pages]: the average
    confidence of every patient's document lies between 0 and 1. *)
Theorem split_average_confidence (pages : list PageEntities.t)
    (patients : list LinkedPatient.t) (summary : DocumentAssignmentSummary.t)
    (result : DocumentSplitResult.t) :
  PageAssigner.assign_pages arith fuzz settings pages patients = Ok summary ->
  DocumentSplitter.split split_include_unassigned num_pages page_at summary
    = Some result ->
  Forall (fun artifact =>
            (0 <= SplitArtifact.average_confidence artifact <= 1)%Q)
         (DocumentSplitResult.artifacts result).
Proof.
  intros Hassign Hsplit.
  destruct (assign_pages_results _ _ _ Hassign) as (Hall & _).
  assert (Hconf : Forall (fun a => (0 <= PageAssignment.confidence a <= 1)%Q)
                         (DocumentAssignmentSummary.assignments summary)).
  { clear -Hall. induction Hall as [|page a pages results Ha _ IH];
      constructor; [|exact IH].
    apply (assign_single_page_facts arith fuzz settings _ _ _ Ha). }
  destruct (split_groups _ _ _ _ _ Hsplit) as (groups & (_ & Hgroups & _) & -> & _).
  apply Forall_fmap, Forall_forall. intros [k g] Hin.
  unfold DocumentSplitter._write_patient_artifact.
  cbn [SplitArtifact.average_confidence fst snd compose].
  destruct (Hgroups k g Hin) as (Hf & Hne & _).
  destruct g.2 as [|a rest] eqn:E; [congruence|].
  rewrite <- (length_fmap PageAssignment.confidence (a :: rest)).
  apply (average_bounds (PageAssignment.confidence <$> a :: rest));
    [discriminate|].
  apply Forall_fmap, Forall_forall. intros a' Ha'.
  rewrite Forall_forall in Hconf. apply Hconf.
  rewrite Hf in Ha'. apply list_elem_of_In, filter_In in Ha' as [Ha' _].
  apply list_elem_of_In, Ha'.
Qed.

(** X30.  Splitting the summary of [assign_pages]: the total is the
    number of pages, and the number of assigned pages is the number of
    assignments with a patient id.  When every page index is below the
    number of pages of the source and no patient id is the empty string,
    the documents of the patients together hold as many pages as are
    counted as assigned. *)
Theorem split_counts (pages : list PageEntities.t)
    (patients : list LinkedPatient.t) (summary : DocumentAssignmentSummary.t)
    (result : DocumentSplitResult.t) :
  PageAssigner.assign_pages arith fuzz settings pages patients = Ok summary ->
  DocumentSplitter.split split_include_unassigned num_pages page_at summary
    = Some result ->
  DocumentSplitResult.total_pages result = Z.of_nat (length pages)
  /\ DocumentSplitResult.assigned_pages result
     = Z.of_nat (length (List.filter (fun a => negb (is_unassigned a))
                           (DocumentAssignmentSummary.assignments summary)))
  /\ (Forall (fun a => (PageAssignment.page_index a < num_pages)%Z
                       /\ PageAssignment.patient_id a <> Some EmptyString)
             (DocumentAssignmentSummary.assignments summary) ->
      Z.of_nat (length (concat (SplitArtifact.pages
                                  <$> DocumentSplitResult.artifacts result)))
      = DocumentSplitResult.assigned_pages result).
Proof.
  intros Hassign Hsplit.
  destruct (assign_pages_results _ _ _ Hassign) as (Hall & Hun).
  destruct (split_groups _ _ _ _ _ Hsplit)
    as (groups & (_ & _ & _ & Htotal) & -> & -> & ->).
  pose proof (filter_partition_length is_unassigned
                (DocumentAssignmentSummary.assignments summary)) as Hpart.
  assert (Hassigned :
            (Z.of_nat (length (DocumentAssignmentSummary.assignments summary))
             - Z.of_nat (length (DocumentAssignmentSummary.unassigned_pages summary))
             = Z.of_nat (length (List.filter (fun a => negb (is_unassigned a))
                                   (DocumentAssignmentSummary.assignments summary))))%Z).
  { rewrite Hun, length_fmap. lia. }
  split; [rewrite (Forall2_length _ _ _ Hall); reflexivity|].
  split; [exact Hassigned|].
  intros Hrange. rewrite Hassigned. f_equal.
  assert (Hpages : concat (SplitArtifact.pages
                     <$> ((fun kv : string * (list Page * list PageAssignment.t) =>
                             DocumentSplitter._write_patient_artifact kv.1 kv.2.2)
                            <$> groups))
                   = PageAssignment.page_index
                       <$> concat ((fun kv : string * (list Page * list PageAssignment.t) =>
                                      kv.2.2) <$> groups)).
  { clear. induction groups as [|[k g] groups IH]; cbn; [reflexivity|].
    rewrite fmap_app, IH. reflexivity. }
  rewrite Hpages, length_fmap, Htotal. f_equal.
  apply filter_ext_Forall. eapply Forall_impl; [exact Hrange|]. cbn.
  intros a [Hlt Hid]. unfold routed, is_unassigned, DocumentSplitter.truthy.
  apply Z.ltb_lt in Hlt. rewrite Hlt. cbn.
  destruct (PageAssignment.patient_id a) as [[|c id]|]; cbn;
    [congruence | reflexivity | reflexivity].
Qed.
End SplitAfterAssign.

(** A source of two pages, every page readable, and the assignment of
    the two-page document to the patients [link] finds in it. *)
Lemma split_artifacts_witness :
  let patients := [dob_patient "patient_001" "01/02/1990"] in
  exists summary result,
    PageAssigner.assign_pages binary64 fuzz_exact keep_assigned_settings two_page_document
      patients = Ok summary
    /\ DocumentSplitter.split true 2 (fun i : Z => Some i) summary = Some result
    /\ NoDup (SplitArtifact.patient_id <$> DocumentSplitResult.artifacts result).
Proof.
  intros patients.
  assert (H : exists summary result,
             PageAssigner.assign_pages binary64 fuzz_exact keep_assigned_settings
               two_page_document patients = Ok summary
             /\ DocumentSplitter.split true 2 (fun i : Z => Some i) summary
                = Some result)
    by (eexists _, _; split; vm_compute; reflexivity).
  destruct H as (summary & result & Ha & Hs). exists summary, result.
  split; [exact Ha|]. split; [exact Hs|].
  apply (split_artifacts true 2 (fun i : Z => Some i) summary result Hs).
Defined.

Lemma split_average_confidence_witness :
  let patients := [dob_patient "patient_001" "01/02/1990"] in
  exists summary result,
    PageAssigner.assign_pages binary64 fuzz_exact keep_assigned_settings two_page_document
      patients = Ok summary
    /\ DocumentSplitter.split true 2 (fun i : Z => Some i) summary = Some result
    /\ Forall (fun artifact =>
                 (0 <= SplitArtifact.average_confidence artifact <= 1)%Q)
              (DocumentSplitResult.artifacts result).
Proof.
  intros patients.
  assert (H : exists summary result,
             PageAssigner.assign_pages binary64 fuzz_exact keep_assigned_settings
               two_page_document patients = Ok summary
             /\ DocumentSplitter.split true 2 (fun i : Z => Some i) summary
                = Some result)
    by (eexists _, _; split; vm_compute; reflexivity).
  destruct H as (summary & result & Ha & Hs). exists summary, result.
  split; [exact Ha|]. split; [exact Hs|].
  apply (split_average_confidence binary64 fuzz_exact keep_assigned_settings true 2
           (fun i : Z => Some i) two_page_document patients summary result Ha Hs).
Defined.

Lemma split_counts_witness :
  let patients := [dob_patient "patient_001" "01/02/1990"] in
  exists summary result,
    PageAssigner.assign_pages binary64 fuzz_exact keep_assigned_settings two_page_document
      patients = Ok summary
    /\ DocumentSplitter.split true 2 (fun i : Z => Some i) summary = Some result
    /\ DocumentSplitResult.total_pages result = 2%Z.
Proof.
  intros patients.
  assert (H : exists summary result,
             PageAssigner.assign_pages binary64 fuzz_exact keep_assigned_settings
               two_page_document patients = Ok summary
             /\ DocumentSplitter.split true 2 (fun i : Z => Some i) summary
                = Some result)
    by (eexists _, _; split; vm_compute; reflexivity).
  destruct H as (summary & result & Ha & Hs). exists summary, result.
  split; [exact Ha|]. split; [exact Hs|].
  apply (split_counts binary64 fuzz_exact keep_assigned_settings true 2
           (fun i : Z => Some i) two_page_document patients summary result Ha Hs).
Defined.
